(** * ledger-live-common: libcore transaction builders and the Ripple JS bridge

    A shallow embedding of two modules of the repository
    - the libcore transaction builder (functions [bitcoin], [ethereum] and
      the [byFamily] dispatch of the default export), and
    - the Ripple JS bridge ([mergeOps], [txToOperation],
      [scanAccountsOnDevice], [startSync], [getTransactionStatus],
      [recipientIsNew] and its cache, [createTransaction],
      [updateTransaction], [prepareTransaction], [signAndBroadcast]),
    followed by the properties of the specification that concern them and
    by further properties of the code.

    Conventions of the embedding.
    - A JS [Date] is its time value, an integer number of milliseconds
      (invalid dates are not modelled), so [b.date - a.date] is a
      subtraction in [Z].
    - A [BigNumber] is an integer or [NaN]; amounts are expressed in the
      smallest unit of the currency.  Infinite and fractional values are
      not modelled.
    - A thrown JS error is the pair of its [name] and [message].
    - Calls to external collaborators (device, chain API, libcore,
      derivation utilities) are taken from explicit records of oracles. *)

From Stdlib Require Import ZArith Lia.
From stdpp Require Import base option list sorting strings gmap.

Local Open Scope Z_scope.

(* ===================================================================== *)
(** * Part I. The embedding                                                *)
(* ===================================================================== *)

(** ** JavaScript errors *)

Module JsError.
Record t := mk { name : string; message : string }.
End JsError.

(** The error classes of [@ledgerhq/errors] used by the two modules: each
    class made by [createCustomErrorClass] carries its own [name]. *)
Definition FeeNotLoaded : JsError.t := JsError.mk "FeeNotLoaded" "".
Definition FeeRequired : JsError.t := JsError.mk "FeeRequired" "".
Definition FeeTooHigh : JsError.t := JsError.mk "FeeTooHigh" "".
Definition NotEnoughBalance : JsError.t := JsError.mk "NotEnoughBalance" "".
Definition NotEnoughBalanceBecauseDestinationNotCreated (msg : string) : JsError.t :=
  JsError.mk "NotEnoughBalanceBecauseDestinationNotCreated" msg.
Definition InvalidAddress (msg : string) : JsError.t := JsError.mk "InvalidAddress" msg.
Definition InvalidAddressBecauseDestinationIsAlsoSource : JsError.t :=
  JsError.mk "InvalidAddressBecauseDestinationIsAlsoSource" "".
Definition RecipientRequired (msg : string) : JsError.t := JsError.mk "RecipientRequired" msg.
Definition NetworkDown : JsError.t := JsError.mk "NetworkDown" "".

(** [new Error(msg)], the error thrown by [invariant(false, msg)], and the
    built-in errors raised by the engine. *)
Definition Error_ (msg : string) : JsError.t := JsError.mk "Error" msg.
Definition InvariantViolation (msg : string) : JsError.t :=
  JsError.mk "Invariant Violation" msg.
Definition TypeError (msg : string) : JsError.t := JsError.mk "TypeError" msg.
Definition RangeError (msg : string) : JsError.t := JsError.mk "RangeError" msg.

(** The outcome of a call that may throw. *)
Inductive Result (A : Type) : Type :=
| Ok (a : A)
| Throws (e : JsError.t).
Arguments Ok {A} a.
Arguments Throws {A} e.

(** ** BigNumber *)

Module BigNumber.
Inductive t := NaN | Fin (z : Z).

Definition plus (a b : t) : t :=
  match a, b with Fin x, Fin y => Fin (x + y) | _, _ => NaN end.
Definition minus (a b : t) : t :=
  match a, b with Fin x, Fin y => Fin (x - y) | _, _ => NaN end.
Definition times (a b : t) : t :=
  match a, b with Fin x, Fin y => Fin (x * y) | _, _ => NaN end.

(** Comparisons with [NaN] are false. *)
Definition gt (a b : t) : bool :=
  match a, b with Fin x, Fin y => y <? x | _, _ => false end.
Definition lt (a b : t) : bool :=
  match a, b with Fin x, Fin y => x <? y | _, _ => false end.
Definition eq (a b : t) : bool :=
  match a, b with Fin x, Fin y => x =? y | _, _ => false end.

Definition isNaN (a : t) : bool :=
  match a with NaN => true | Fin _ => false end.
Definition isFinite (a : t) : bool :=
  match a with NaN => false | Fin _ => true end.
End BigNumber.

(** ** Operations and accounts *)

Inductive OperationType := IN | OUT.

Definition OperationType_toString (ty : OperationType) : string :=
  match ty with IN => "IN" | OUT => "OUT" end.

Module Operation.
Record t := mk {
  id : string;
  hash : string;
  accountId : string;
  type : OperationType;
  value : BigNumber.t;
  fee : BigNumber.t;
  blockHash : option string;
  blockHeight : option Z;
  senders : list string;
  recipients : list string;
  date : Z;
  (** [transactionSequenceNumber?: number]: [None] when missing *)
  transactionSequenceNumber : option Z;
  extra : gmap string string
}.
End Operation.

Module Currency.
Record t := mk {
  id : string;
  name : string;
  family : string;
  units : list string
}.
End Currency.

Module Account.
Record t := mk {
  type : string;
  id : string;
  seedIdentifier : string;
  derivationMode : string;
  name : string;
  freshAddress : string;
  freshAddressPath : string;
  freshAddresses : list (string * string);
  balance : BigNumber.t;
  blockHeight : Z;
  index : nat;
  currency : Currency.t;
  operations : list Operation.t;
  pendingOperations : list Operation.t;
  unit : option string;
  archived : option bool;
  lastSyncDate : Z;
  endpointConfig : option string
}.
End Account.

(** ** [Array.prototype.sort]

    The sort is stable (ECMAScript 2019): elements that compare equal keep
    their relative order.  [compareFn a b > 0] places [b] before [a]. *)

Section ArraySort.
Context {A : Type} (compareFn : A → A → Z).

Fixpoint sort_insert (x : A) (l : list A) : list A :=
  match l with
  | [] => [x]
  | y :: l' =>
      if 0 <? compareFn x y then y :: sort_insert x l' else x :: y :: l'
  end.

Definition Array_sort (l : list A) : list A := foldr sort_insert [] l.
End ArraySort.

(** ** Ripple bridge: [mergeOps] *)

(** The comparator [(a, b) => b.date - a.date]. *)
Definition byDateDesc (a b : Operation.t) : Z :=
  Operation.date b - Operation.date a.

Definition mergeOps (existing newFetched : list Operation.t) : list Operation.t :=
  let ids := Operation.id <$> existing in
  let all := existing ++ filter (λ o, Operation.id o ∉ ids) newFetched in
  Array_sort byDateDesc all.

(** The two halves of the specification's sort invariant, and the order the
    comparator does establish. *)
Definition strictlyDescendingByDate (l : list Operation.t) : Prop :=
  Sorted (λ a b, Operation.date b < Operation.date a) l.
Definition descendingByDate (l : list Operation.t) : Prop :=
  Sorted (λ a b, Operation.date b ≤ Operation.date a) l.
Definition uniqueIds (l : list Operation.t) : Prop :=
  NoDup (Operation.id <$> l).

(** ** Asynchronous functions

    An [async] function is run against a world that counts how many times
    the cancellation flag has been read so far and logs, in order, the
    external calls made and the events emitted.  It ends with a value, with
    a thrown error (a rejected promise), or with an early [return;]. *)

Record World (E : Type) := mkWorld { polls : nat; log : list E }.
Arguments mkWorld {E} polls log.
Arguments polls {E} w.
Arguments log {E} w.

Inductive Outcome (E A : Type) : Type :=
| Value (a : A) (w : World E)
| Thrown (e : JsError.t) (w : World E)
| Returned (w : World E).
Arguments Value {E A} a w.
Arguments Thrown {E A} e w.
Arguments Returned {E A} w.

Definition Async (E A : Type) : Type := World E → Outcome E A.

Definition ret {E A} (a : A) : Async E A := λ w, Value a w.
Definition bind {E A B} (m : Async E A) (k : A → Async E B) : Async E B :=
  λ w, match m w with
       | Value a w' => k a w'
       | Thrown e w' => Thrown e w'
       | Returned w' => Returned w'
       end.
Definition throw {E A} (e : JsError.t) : Async E A := λ w, Thrown e w.
(** [return;] *)
Definition return_ {E A} : Async E A := λ w, Returned w.
(** record an external call or an emitted event *)
Definition tell {E} (x : E) : Async E () :=
  λ w, Value () (mkWorld (polls w) (log w ++ [x])).
(** [if (flag()) return;] where the [n]-th read of the flag answers
    [flag n] *)
Definition checkpoint {E} (flag : nat → bool) : Async E () :=
  λ w, let w' := mkWorld (S (polls w)) (log w) in
       if flag (polls w) then Returned w' else Value () w'.
Definition await {E A} (r : Result A) : Async E A :=
  match r with Ok a => ret a | Throws e => throw e end.
(** [invariant(cond, msg)] *)
Definition invariant {E} (cond : bool) (msg : string) : Async E () :=
  if cond then ret () else throw (InvariantViolation msg).

Global Instance Async_ret {E} : MRet (Async E) := λ A, ret.
Global Instance Async_bind {E} : MBind (Async E) := λ A B k m, bind m k.

(** Synchronous code that may throw. *)
Global Instance Result_ret : MRet Result := λ A, Ok.
Global Instance Result_bind : MBind Result := λ A B k r,
  match r with Ok a => k a | Throws e => Throws e end.
Global Instance Result_fmap : FMap Result := λ A B f r,
  match r with Ok a => Ok (f a) | Throws e => Throws e end.

Definition initialWorld {E} : World E := mkWorld 0 [].

(** ** Strings and buffers *)

(** Truthiness of a string: only the empty string is falsy. *)
Definition truthy_string (s : string) : bool := negb (String.eqb s "").

Fixpoint string_drop (n : nat) (s : string) : string :=
  match n, s with
  | S n', String _ s' => string_drop n' s'
  | _, _ => s
  end.

(** [s.includes(sub)] *)
Fixpoint includes (s sub : string) : bool :=
  String.prefix sub s
  || match s with
     | EmptyString => false
     | String _ s' => includes s' sub
     end.

(** [s.replace(pat, rep)] with a string pattern: the first occurrence only. *)
Fixpoint replace (pat rep s : string) : string :=
  if String.prefix pat s then rep +:+ string_drop (String.length pat) s
  else match s with
       | EmptyString => EmptyString
       | String c s' => String c (replace pat rep s')
       end.

Definition unhex (c : Ascii.ascii) : option Z :=
  let n := Z.of_N (Ascii.N_of_ascii c) in
  if (48 <=? n) && (n <=? 57) then Some (n - 48)
  else if (97 <=? n) && (n <=? 102) then Some (n - 87)
  else if (65 <=? n) && (n <=? 70) then Some (n - 55)
  else None.

Definition hexDigit (d : Z) : Ascii.ascii :=
  Ascii.ascii_of_N (Z.to_N (if d <? 10 then 48 + d else 87 + d)).

(** A buffer is the list of its bytes, each in [0, 256). *)
Definition Buffer : Type := list Z.

(** [Buffer.alloc(n)], for [0 ≤ n] *)
Definition Buffer_alloc (n : Z) : Buffer := replicate (Z.to_nat n) 0.

(** [Buffer.from(s, "hex")]: two digits per byte; decoding stops at the
    first pair that is not made of two hexadecimal digits, and a trailing
    single character is dropped. *)
Fixpoint Buffer_from_hex (s : string) : Buffer :=
  match s with
  | String a (String b s') =>
      match unhex a, unhex b with
      | Some x, Some y => (16 * x + y) :: Buffer_from_hex s'
      | _, _ => []
      end
  | _ => []
  end.

(** [buf.toString("hex")] *)
Fixpoint Buffer_toString_hex (buf : Buffer) : string :=
  match buf with
  | [] => EmptyString
  | b :: buf' =>
      String (hexDigit (b / 16)) (String (hexDigit (b mod 16)) (Buffer_toString_hex buf'))
  end.

(** The digits of a non-negative number in base 16, most significant first;
    [fuel] bounds the number of digits. *)
Fixpoint hexDigitsOf (fuel : nat) (n : Z) (acc : string) : string :=
  match fuel with
  | O => acc
  | S fuel' =>
      let acc' := String (hexDigit (n mod 16)) acc in
      if n / 16 =? 0 then acc' else hexDigitsOf fuel' (n / 16) acc'
  end.

Definition Z_toString16 (n : Z) : string :=
  hexDigitsOf (S (Z.to_nat (Z.log2 n))) n EmptyString.

(** [amount.toString(16)] *)
Definition BigNumber_toString16 (b : BigNumber.t) : string :=
  match b with
  | BigNumber.NaN => "NaN"
  | BigNumber.Fin z => if z <? 0 then "-" +:+ Z_toString16 (- z) else Z_toString16 z
  end.

(** The unsigned big-endian value of a buffer. *)
Definition Buffer_value (buf : Buffer) : Z :=
  fold_left (λ acc b, 256 * acc + b) buf 0.

(** ** libcore transaction builders *)

(** A field of Flow type [?T]: absent, [null], or a value. *)
Inductive Maybe (A : Type) : Type :=
| undefined
| null
| Just (a : A).
Arguments undefined {A}.
Arguments null {A}.
Arguments Just {A} a.

(** [BigNumber | string] *)
Inductive AmountLike :=
| Big (b : BigNumber.t)
| Str (s : string).

(** Truthiness, as tested by [!x]: a [BigNumber] is an object, hence
    truthy whatever its value; a string is truthy unless empty. *)
Definition truthy (x : Maybe AmountLike) : bool :=
  match x with
  | undefined | null => false
  | Just (Big _) => true
  | Just (Str s) => truthy_string s
  end.

Module Transaction.
Record t := mk {
  recipient : string;
  amount : Maybe AmountLike;
  useAllAmount : option bool;
  feePerByte : Maybe AmountLike;
  gasPrice : Maybe AmountLike;
  gasLimit : Maybe AmountLike
}.
End Transaction.

Module TokenAccount.
Record t := mk {
  balance : BigNumber.t;
  (** [token.contractAddress] *)
  token_contractAddress : string
}.
End TokenAccount.

(** The collaborators of the builders that are not part of this module:
    [isValidRecipient] answers [None] for [null] (a valid recipient), and
    [BigNumber_ofString] is the [BigNumber(s)] constructor on strings. *)
Record BuilderEnv := {
  isValidRecipient : Currency.t → string → option JsError.t;
  BigNumber_ofString : string → BigNumber.t
}.

(** [BigNumber(x)] *)
Definition BigNumber_of (env : BuilderEnv) (x : Maybe AmountLike) : BigNumber.t :=
  match x with
  | Just (Big b) => b
  | Just (Str s) => BigNumber_ofString env s
  | undefined | null => BigNumber.NaN
  end.

(** The calls made on the libcore account and transaction builder, in the
    order they are awaited.  An amount passed to libcore is the
    [BigNumber] given to [bigNumberToLibcoreAmount]. *)
Inductive LibcoreCall :=
| asBitcoinLikeAccount
| asEthereumLikeAccount
| buildTransaction_ (isPartial : option bool)
| wipeToAddress (recipient : string)
| sendToAddress (amount : BigNumber.t) (recipient : string)
| pickInputs (strategy sequence : Z)
| setFeesPerByte (fees : BigNumber.t)
| setInputData (data : string)
| setGasLimit (gasLimit : BigNumber.t)
| setGasPrice (gasPrice : BigNumber.t)
| build.

(** What [transactionBuilder.build()] resolves to. *)
Inductive CoreTransaction := builded.

Module Opts.
Record t := mk {
  account : Account.t;
  tokenAccount : option TokenAccount.t;
  transaction : Transaction.t;
  isPartial : bool;
  (** the [n]-th call of [isCancelled()] answers [isCancelled n] *)
  isCancelled : nat → bool
}.
End Opts.

Definition option_truthy (b : option bool) : bool := default false b.

Definition bitcoin (env : BuilderEnv) (o : Opts.t) : Async LibcoreCall CoreTransaction :=
  let account := Opts.account o in
  let transaction := Opts.transaction o in
  let isCancelled := Opts.isCancelled o in
  tell asBitcoinLikeAccount;;
  let isValid := isValidRecipient env (Account.currency account) (Transaction.recipient transaction) in
  if bool_decide (isValid ≠ None) then
    throw (InvalidAddress "")
  else
  let feePerByte := Transaction.feePerByte transaction in
  if negb (truthy feePerByte) then throw FeeNotLoaded else
  let fees := BigNumber_of env feePerByte in
  checkpoint isCancelled;;
  tell (buildTransaction_ (Some (Opts.isPartial o)));;
  checkpoint isCancelled;;
  (if option_truthy (Transaction.useAllAmount transaction) then
     tell (wipeToAddress (Transaction.recipient transaction));;
     checkpoint isCancelled
   else
     if negb (truthy (Transaction.amount transaction)) then
       throw (Error_ "amount is missing")
     else
     let amount := BigNumber_of env (Transaction.amount transaction) in
     checkpoint isCancelled;;
     tell (sendToAddress amount (Transaction.recipient transaction));;
     checkpoint isCancelled);;
  tell (pickInputs 0 0xffffff);;
  checkpoint isCancelled;;
  tell (setFeesPerByte fees);;
  checkpoint isCancelled;;
  tell build;;
  checkpoint isCancelled;;
  mret builded.

(** [Buffer.from("a9059cbb", "hex")] *)
Definition ethereumTransferMethodID : Buffer := Buffer_from_hex "a9059cbb".

(** The payload of a token transfer: the block of [ethereum] that computes
    [data] from the draft's recipient and the amount to transfer. *)
Definition tokenTransferData (recipient : string) (amount : BigNumber.t) : Result Buffer :=
  let to256 := Buffer_alloc 12 ++ Buffer_from_hex (replace "0x" "" recipient) in
  if negb (bool_decide (length to256 = 32%nat)) then
    Throws (InvariantViolation "recipient is invalid")
  else
  let amountHex := BigNumber_toString16 amount in
  let amountBuf :=
    Buffer_from_hex
      (if Nat.even (String.length amountHex) then amountHex else "0" +:+ amountHex) in
  (* [Buffer.alloc] refuses a negative size *)
  if 32 - Z.of_nat (length amountBuf) <? 0 then
    Throws (RangeError "invalid size")
  else
  let amount256 := Buffer_alloc (32 - Z.of_nat (length amountBuf)) ++ amountBuf in
  Ok (ethereumTransferMethodID ++ to256 ++ amount256).

Definition ethereum (env : BuilderEnv) (o : Opts.t) : Async LibcoreCall CoreTransaction :=
  let account := Opts.account o in
  let transaction := Opts.transaction o in
  let isCancelled := Opts.isCancelled o in
  tell asEthereumLikeAccount;;
  let isValid := isValidRecipient env (Account.currency account) (Transaction.recipient transaction) in
  if bool_decide (isValid ≠ None) then
    throw (InvalidAddress "")
  else
  let gasPrice := Transaction.gasPrice transaction in
  let gasLimit := Transaction.gasLimit transaction in
  if negb (truthy gasPrice) || negb (truthy gasLimit) then throw FeeNotLoaded else
  let gasPriceAmount := BigNumber_of env gasPrice in
  let gasLimitAmount := BigNumber_of env gasLimit in
  checkpoint isCancelled;;
  tell (buildTransaction_ None);;
  checkpoint isCancelled;;
  match Opts.tokenAccount o with
  | Some tokenAccount =>
      let amount :=
        if option_truthy (Transaction.useAllAmount transaction)
        then TokenAccount.balance tokenAccount
        else BigNumber_of env (Transaction.amount transaction) in
      data ← await (tokenTransferData (Transaction.recipient transaction) amount);
      tell (setInputData (Buffer_toString_hex data));;
      let zeroAmount := BigNumber.Fin 0 in
      tell (sendToAddress zeroAmount (TokenAccount.token_contractAddress tokenAccount))
  | None =>
      if option_truthy (Transaction.useAllAmount transaction) then
        tell (wipeToAddress (Transaction.recipient transaction));;
        checkpoint isCancelled
      else
        if negb (truthy (Transaction.amount transaction)) then
          throw (Error_ "amount is missing")
        else
        let amount := BigNumber_of env (Transaction.amount transaction) in
        checkpoint isCancelled;;
        tell (sendToAddress amount (Transaction.recipient transaction));;
        checkpoint isCancelled
  end;;
  tell (setGasLimit gasLimitAmount);;
  checkpoint isCancelled;;
  tell (setGasPrice gasPriceAmount);;
  checkpoint isCancelled;;
  tell build;;
  checkpoint isCancelled;;
  mret builded.

(** [const byFamily = { bitcoin, ethereum }] *)
Definition byFamily (env : BuilderEnv)
  : gmap string (Opts.t → Async LibcoreCall CoreTransaction) :=
  {[ "bitcoin" := bitcoin env; "ethereum" := ethereum env ]}.

(** The functions every object literal inherits from [Object.prototype]:
    [byFamily[key]] finds them when [key] is not an own property. *)
Definition ObjectPrototype_methods : list string :=
  ["constructor"; "hasOwnProperty"; "isPrototypeOf"; "propertyIsEnumerable";
   "toLocaleString"; "toString"; "valueOf"; "__defineGetter__";
   "__defineSetter__"; "__lookupGetter__"; "__lookupSetter__"].

(** What the default export [opts => byFamily[family](opts)] does. *)
Inductive Dispatch :=
| Builds (run : Async LibcoreCall CoreTransaction)
| CallsInherited (key : string)
| ThrowsSync (e : JsError.t).

Definition buildTransaction (env : BuilderEnv) (opts : Opts.t) : Dispatch :=
  let family := Currency.family (Account.currency (Opts.account opts)) in
  match byFamily env !! family with
  | Some f => Builds (f opts)
  | None =>
      if bool_decide (family ∈ ObjectPrototype_methods) then CallsInherited family
      else ThrowsSync (TypeError "byFamily[opts.account.currency.family] is not a function")
  end.

(** ** Ripple bridge: the chain API and its helpers *)

(** An amount as the Ripple API writes it. *)
Module ApiAmount.
Record t := mk { currency : string; value : string }.
End ApiAmount.

(** A remote transaction (type [Tx]); only the fields read by
    [txToOperation] are kept, named after their path in the object. *)
Module Tx.
Record t := mk {
  id : string;
  sequence : Z;
  outcome_fee : string;
  outcome_deliveredAmount : option ApiAmount.t;
  outcome_ledgerVersion : Z;
  outcome_timestamp : string;
  specification_source_address : string;
  specification_destination_address : string;
  specification_destination_tag : option string
}.
End Tx.

(** [serverInfo]: [completeLedgers] is kept as the two numbers obtained
    from [completeLedgers.split("-")]. *)
Module ServerInfo.
Record t := mk {
  minLedgerVersion : Z;
  maxLedgerVersion : Z;
  validatedLedger_reserveBaseXRP : string;
  validatedLedger_baseFeeXRP : string
}.
End ServerInfo.

Module AccountInfo.
Record t := mk { xrpBalance : string }.
End AccountInfo.

(** The connected client returned by [apiForEndpointConfig]. *)
Record RippleAPI := {
  connect : Result ();
  getAccountInfo : string → Result AccountInfo.t;
  (** [getTransactions(address, {minLedgerVersion, maxLedgerVersion, types})] *)
  getTransactions : string → Z → Z → Result (list Tx.t)
}.

(** The helpers imported from [api/Ripple], the module-level cached
    [getServerInfo], and the parsing of a timestamp by [new Date(s)]. *)
Record RippleEnv := {
  apiForEndpointConfig : option string → RippleAPI;
  getServerInfo : option string → Result ServerInfo.t;
  parseAPIValue : string → BigNumber.t;
  parseAPICurrencyObject : ApiAmount.t → BigNumber.t;
  formatAPICurrencyXRP : BigNumber.t → ApiAmount.t;
  Date_parse : string → Z
}.

(** ** Ripple bridge: [txToOperation] *)

Definition txToOperation (env : RippleEnv) (account : Account.t) (tx : Tx.t) : Operation.t :=
  let id := Tx.id tx in
  let type :=
    if bool_decide (Tx.specification_source_address tx = Account.freshAddress account)
    then OUT else IN in
  let value :=
    match Tx.outcome_deliveredAmount tx with
    | Some deliveredAmount => parseAPICurrencyObject env deliveredAmount
    | None => BigNumber.Fin 0
    end in
  let feeValue := parseAPIValue env (Tx.outcome_fee tx) in
  (* [Number.isNaN] is false on every BigNumber object, so the fee is
     always added to an outgoing value *)
  let value := match type with OUT => BigNumber.plus value feeValue | IN => value end in
  {| Operation.id :=
       Account.id account +:+ "-" +:+ id +:+ "-" +:+ OperationType_toString type;
     Operation.hash := id;
     Operation.accountId := Account.id account;
     Operation.type := type;
     Operation.value := value;
     Operation.fee := feeValue;
     Operation.blockHash := None;
     Operation.blockHeight := Some (Tx.outcome_ledgerVersion tx);
     Operation.senders := [Tx.specification_source_address tx];
     Operation.recipients := [Tx.specification_destination_address tx];
     Operation.date := Date_parse env (Tx.outcome_timestamp tx);
     Operation.transactionSequenceNumber := Some (Tx.sequence tx);
     Operation.extra :=
       match Tx.specification_destination_tag tx with
       | Some tag => if truthy_string tag then {[ "tag" := tag ]} else ∅
       | None => ∅
       end |}.

(** [remapError] *)
Definition remapError (error : JsError.t) : JsError.t :=
  let msg := JsError.message error in
  if includes msg "Unable to resolve host" || includes msg "Network is down"
  then NetworkDown
  else error.

(** [api.getAccountInfo] inside its [try]/[catch]: the error whose message
    is [actNotFound] leaves [info] undefined, any other is thrown again. *)
Definition getAccountInfo_orNotFound (api : RippleAPI) (address : string)
  : Result (option AccountInfo.t) :=
  match getAccountInfo api address with
  | Ok info => Ok (Some info)
  | Throws e =>
      if bool_decide (JsError.message e ≠ "actNotFound") then Throws e else Ok None
  end.

(** ** Ripple bridge: [startSync] *)

(** Truthiness of an optional number: missing and [0] are falsy. *)
Definition truthy_number (n : option Z) : bool :=
  match n with Some z => negb (z =? 0) | None => false end.

(** [x > y] on optional numbers that are both present. *)
Definition number_gt (x y : option Z) : bool :=
  match x, y with Some a, Some b => b <? a | _, _ => false end.

(** The predicate of [a.pendingOperations.filter(oo => ...)]. *)
Definition keepPending (operations : list Operation.t) (oo : Operation.t) : bool :=
  let last := head operations in
  negb (existsb (λ op, String.eqb (Operation.hash oo) (Operation.hash op)) operations)
  && match last with
     | Some last =>
         truthy_number (Operation.transactionSequenceNumber last)
         && truthy_number (Operation.transactionSequenceNumber oo)
         && number_gt (Operation.transactionSequenceNumber oo)
                      (Operation.transactionSequenceNumber last)
     | None => false
     end.

(** The update emitted when the account does not exist on the ledger:
    [a => ({ ...a, lastSyncDate: new Date() })]; [now] is the time read by
    [new Date()] when the update is applied. *)
Definition touchLastSyncDate (now : Z) (a : Account.t) : Account.t :=
  {| Account.type := Account.type a;
     Account.id := Account.id a;
     Account.seedIdentifier := Account.seedIdentifier a;
     Account.derivationMode := Account.derivationMode a;
     Account.name := Account.name a;
     Account.freshAddress := Account.freshAddress a;
     Account.freshAddressPath := Account.freshAddressPath a;
     Account.freshAddresses := Account.freshAddresses a;
     Account.balance := Account.balance a;
     Account.blockHeight := Account.blockHeight a;
     Account.index := Account.index a;
     Account.currency := Account.currency a;
     Account.operations := Account.operations a;
     Account.pendingOperations := Account.pendingOperations a;
     Account.unit := Account.unit a;
     Account.archived := Account.archived a;
     Account.lastSyncDate := now;
     Account.endpointConfig := Account.endpointConfig a |}.

(** The update emitted after the transactions were fetched. *)
Definition syncUpdate (env : RippleEnv) (transactions : list Tx.t)
    (balance : BigNumber.t) (maxLedgerVersion : Z)
    (now : Z) (a : Account.t) : Account.t :=
  let newOps := txToOperation env a <$> transactions in
  let operations := mergeOps (Account.operations a) newOps in
  let pendingOperations :=
    List.filter (keepPending operations) (Account.pendingOperations a) in
  {| Account.type := Account.type a;
     Account.id := Account.id a;
     Account.seedIdentifier := Account.seedIdentifier a;
     Account.derivationMode := Account.derivationMode a;
     Account.name := Account.name a;
     Account.freshAddress := Account.freshAddress a;
     Account.freshAddressPath := Account.freshAddressPath a;
     Account.freshAddresses := Account.freshAddresses a;
     Account.balance := balance;
     Account.blockHeight := maxLedgerVersion;
     Account.index := Account.index a;
     Account.currency := Account.currency a;
     Account.operations := operations;
     Account.pendingOperations := pendingOperations;
     Account.unit := Account.unit a;
     Account.archived := Account.archived a;
     Account.lastSyncDate := now;
     Account.endpointConfig := Account.endpointConfig a |}.

(** What the observable of [startSync] emits; an update takes the time
    read by [new Date()] when it is applied, and the account. *)
Inductive SyncEvent :=
| SyncNext (update : Z → Account.t → Account.t)
| SyncComplete
| SyncError (e : JsError.t).

(** The body of [main] inside its [try]. *)
Definition startSync_main (env : RippleEnv) (finished : nat → bool)
    (a : Account.t) : Async SyncEvent () :=
  let endpointConfig := Account.endpointConfig a in
  let freshAddress := Account.freshAddress a in
  let blockHeight := Account.blockHeight a in
  let currentOpsLength := length (Account.operations a) in
  let api := apiForEndpointConfig env endpointConfig in
  await (connect api);;
  checkpoint finished;;
  serverInfo ← await (getServerInfo env endpointConfig);
  checkpoint finished;;
  let minLedgerVersion := ServerInfo.minLedgerVersion serverInfo in
  let maxLedgerVersion := ServerInfo.maxLedgerVersion serverInfo in
  info ← await (getAccountInfo_orNotFound api freshAddress);
  checkpoint finished;;
  match info with
  | None =>
      tell (SyncNext touchLastSyncDate);;
      tell SyncComplete;;
      return_
  | Some info =>
      let balance := parseAPIValue env (AccountInfo.xrpBalance info) in
      invariant (negb (BigNumber.isNaN balance) && BigNumber.isFinite balance)
        ("Ripple: invalid balance=NaN for address " +:+ freshAddress);;
      transactions ← await
        (getTransactions api freshAddress
           (Z.max (if bool_decide (currentOpsLength = 0%nat) then 0 else blockHeight)
                  minLedgerVersion)
           maxLedgerVersion);
      checkpoint finished;;
      tell (SyncNext (syncUpdate env transactions balance maxLedgerVersion));;
      tell SyncComplete
  end.

(** [startSync]: the events received by a subscriber whose [n]-th read of
    the [finished] flag answers [finished n]; a thrown error is caught and
    emitted through [remapError]. *)
Definition startSync (env : RippleEnv) (finished : nat → bool) (a : Account.t)
  : list SyncEvent :=
  match startSync_main env finished a initialWorld with
  | Value _ w | Returned w => log w
  | Thrown e w => log w ++ [SyncError (remapError e)]
  end.

(** ** Ripple bridge: [scanAccountsOnDevice] *)

(** The derivation utilities, the device, the account naming helpers and
    the clock read by [new Date()] (indexed by the number of reads of the
    [finished] flag made so far). *)
Record ScanEnv := {
  getDerivationModesForCurrency : Currency.t → list string;
  getDerivationScheme : string → Currency.t → string;
  runDerivationScheme : string → Currency.t → nat → string;
  isIterableDerivationMode : string → bool;
  derivationModeSupportsIndex : string → nat → bool;
  open : string → Result ();
  (** [getAddress(transport, {currency, path, derivationMode})] *)
  getAddress : Currency.t → string → string → Result string;
  getAccountPlaceholderName : Currency.t → nat → string → string;
  getNewAccountPlaceholderName : Currency.t → nat → string → string;
  Date_now : nat → Z
}.

(** The external calls made by the scan and the events it emits, in order. *)
Inductive ScanStep :=
| Call_getAddress (derivationMode : string) (index : nat) (path : string)
| Call_getAccountInfo (address : string)
| Call_getTransactions (address : string)
| Next_discovered (account : Account.t)
| Scan_complete
| Scan_error (e : JsError.t).

Definition newDate (senv : ScanEnv) : Async ScanStep Z :=
  λ w, Value (Date_now senv (polls w)) w.

(** The account emitted for an address that does not exist on the ledger
    (the object literal passed to [o.next] in the [!info] branch). *)
Definition newAccountPlaceholder (senv : ScanEnv) (currency : Currency.t)
    (derivationMode : string) (index : nat)
    (accountId freshAddress freshAddressPath : string)
    (maxLedgerVersion lastSyncDate : Z) : Account.t :=
  {| Account.type := "Account";
     Account.id := accountId;
     Account.seedIdentifier := freshAddress;
     Account.derivationMode := derivationMode;
     Account.name := getNewAccountPlaceholderName senv currency index derivationMode;
     Account.freshAddress := freshAddress;
     Account.freshAddressPath := freshAddressPath;
     Account.freshAddresses := [(freshAddress, freshAddressPath)];
     Account.balance := BigNumber.Fin 0;
     Account.blockHeight := maxLedgerVersion;
     Account.index := index;
     Account.currency := currency;
     Account.operations := [];
     Account.pendingOperations := [];
     Account.unit := head (Currency.units currency);
     Account.archived := Some false;
     Account.lastSyncDate := lastSyncDate;
     Account.endpointConfig := None |}.

Inductive LoopControl := Continue | Break.

(** One iteration of the loop over [index]. *)
Definition scanIndex (env : RippleEnv) (senv : ScanEnv) (finished : nat → bool)
    (currency : Currency.t) (api : RippleAPI) (minLedgerVersion maxLedgerVersion : Z)
    (derivationMode derivationScheme : string) (index : nat)
  : Async ScanStep LoopControl :=
  if negb (derivationModeSupportsIndex senv derivationMode index) then mret Continue
  else
  let freshAddressPath := runDerivationScheme senv derivationScheme currency index in
  tell (Call_getAddress derivationMode index freshAddressPath);;
  address ← await (getAddress senv currency freshAddressPath derivationMode);
  checkpoint finished;;
  let accountId :=
    "ripplejs:2:" +:+ Currency.id currency +:+ ":" +:+ address +:+ ":" +:+ derivationMode in
  tell (Call_getAccountInfo address);;
  info ← await (getAccountInfo_orNotFound api address);
  let freshAddress := address in
  match info with
  | None =>
      (if bool_decide (derivationMode = "") then
         lastSyncDate ← newDate senv;
         tell (Next_discovered
                 (newAccountPlaceholder senv currency derivationMode index accountId
                    freshAddress freshAddressPath maxLedgerVersion lastSyncDate))
       else mret ());;
      mret Break
  | Some info =>
      checkpoint finished;;
      let balance := parseAPIValue env (AccountInfo.xrpBalance info) in
      invariant (negb (BigNumber.isNaN balance) && BigNumber.isFinite balance)
        ("Ripple: invalid balance=NaN for address " +:+ address);;
      tell (Call_getTransactions address);;
      transactions ← await (getTransactions api address minLedgerVersion maxLedgerVersion);
      checkpoint finished;;
      lastSyncDate ← newDate senv;
      let account :=
        {| Account.type := "Account";
           Account.id := accountId;
           Account.seedIdentifier := freshAddress;
           Account.derivationMode := derivationMode;
           Account.name := getAccountPlaceholderName senv currency index derivationMode;
           Account.freshAddress := freshAddress;
           Account.freshAddressPath := freshAddressPath;
           Account.freshAddresses := [(freshAddress, freshAddressPath)];
           Account.balance := balance;
           Account.blockHeight := maxLedgerVersion;
           Account.index := index;
           Account.currency := currency;
           Account.operations := [];
           Account.pendingOperations := [];
           Account.unit := head (Currency.units currency);
           Account.archived := None;
           Account.lastSyncDate := lastSyncDate;
           Account.endpointConfig := None |} in
      let operations := txToOperation env account <$> transactions in
      tell (Next_discovered
        {| Account.type := Account.type account;
           Account.id := Account.id account;
           Account.seedIdentifier := Account.seedIdentifier account;
           Account.derivationMode := Account.derivationMode account;
           Account.name := Account.name account;
           Account.freshAddress := Account.freshAddress account;
           Account.freshAddressPath := Account.freshAddressPath account;
           Account.freshAddresses := Account.freshAddresses account;
           Account.balance := Account.balance account;
           Account.blockHeight := Account.blockHeight account;
           Account.index := Account.index account;
           Account.currency := Account.currency account;
           Account.operations := operations;
           Account.pendingOperations := Account.pendingOperations account;
           Account.unit := Account.unit account;
           Account.archived := Account.archived account;
           Account.lastSyncDate := Account.lastSyncDate account;
           Account.endpointConfig := Account.endpointConfig account |});;
      mret Continue
  end.

(** [for (let index = ...; index < stopAt; index++)] with [remaining]
    iterations left ([remaining = stopAt - index]). *)
Fixpoint scanIndices (env : RippleEnv) (senv : ScanEnv) (finished : nat → bool)
    (currency : Currency.t) (api : RippleAPI) (minLedgerVersion maxLedgerVersion : Z)
    (derivationMode derivationScheme : string) (remaining index : nat)
  : Async ScanStep () :=
  match remaining with
  | O => mret ()
  | S remaining' =>
      control ← scanIndex env senv finished currency api minLedgerVersion
                  maxLedgerVersion derivationMode derivationScheme index;
      match control with
      | Break => mret ()
      | Continue =>
          scanIndices env senv finished currency api minLedgerVersion
            maxLedgerVersion derivationMode derivationScheme remaining' (S index)
      end
  end.

(** The body of the loop over the derivation modes. *)
Definition scanDerivationMode (env : RippleEnv) (senv : ScanEnv) (finished : nat → bool)
    (currency : Currency.t) (api : RippleAPI) (minLedgerVersion maxLedgerVersion : Z)
    (derivationMode : string) : Async ScanStep () :=
  let derivationScheme := getDerivationScheme senv derivationMode currency in
  let stopAt := if isIterableDerivationMode senv derivationMode then 255%nat else 1%nat in
  scanIndices env senv finished currency api minLedgerVersion maxLedgerVersion
    derivationMode derivationScheme stopAt 0.

Fixpoint scanDerivationModes (env : RippleEnv) (senv : ScanEnv) (finished : nat → bool)
    (currency : Currency.t) (api : RippleAPI) (minLedgerVersion maxLedgerVersion : Z)
    (derivationModes : list string) : Async ScanStep () :=
  match derivationModes with
  | [] => mret ()
  | derivationMode :: rest =>
      scanDerivationMode env senv finished currency api minLedgerVersion
        maxLedgerVersion derivationMode;;
      scanDerivationModes env senv finished currency api minLedgerVersion
        maxLedgerVersion rest
  end.

Definition scanAccountsOnDevice_main (env : RippleEnv) (senv : ScanEnv)
    (finished : nat → bool) (currency : Currency.t) (deviceId : string)
  : Async ScanStep () :=
  let api := apiForEndpointConfig env None in
  await (open senv deviceId);;
  await (connect api);;
  serverInfo ← await (getServerInfo env None);
  let minLedgerVersion := ServerInfo.minLedgerVersion serverInfo in
  let maxLedgerVersion := ServerInfo.maxLedgerVersion serverInfo in
  let derivationModes := getDerivationModesForCurrency senv currency in
  scanDerivationModes env senv finished currency api minLedgerVersion
    maxLedgerVersion derivationModes;;
  tell Scan_complete.

(** [scanAccountsOnDevice]: the calls made and the events emitted; a
    thrown error is caught and emitted as it is. *)
Definition scanAccountsOnDevice (env : RippleEnv) (senv : ScanEnv)
    (finished : nat → bool) (currency : Currency.t) (deviceId : string)
  : list ScanStep :=
  match scanAccountsOnDevice_main env senv finished currency deviceId initialWorld with
  | Value _ w | Returned w => log w
  | Thrown e w => log w ++ [Scan_error e]
  end.

(** What the scan of one index adds to the log when the derived address
    does not exist: the two probes, and the placeholder for the canonical
    mode only. *)
Definition notFoundSteps (senv : ScanEnv) (currency : Currency.t)
    (maxLedgerVersion : Z) (derivationMode : string) (index : nat)
    (address : string) (lastSyncDate : Z) : list ScanStep :=
  let freshAddressPath :=
    runDerivationScheme senv (getDerivationScheme senv derivationMode currency)
      currency index in
  [Call_getAddress derivationMode index freshAddressPath; Call_getAccountInfo address]
  ++ (if decide (derivationMode = "") then
        [Next_discovered
           (newAccountPlaceholder senv currency derivationMode index
              ("ripplejs:2:" +:+ Currency.id currency +:+ ":" +:+ address +:+ ":"
               +:+ derivationMode)
              address freshAddressPath maxLedgerVersion lastSyncDate)]
      else []).

(** ** Ripple bridge: [getTransactionStatus] *)

Module RippleTransaction.
Record t := mk {
  family : string;
  amount : BigNumber.t;
  recipient : string;
  fee : option BigNumber.t;
  tag : option Z
}.
End RippleTransaction.

Module TransactionStatus.
Record t := mk {
  errors : gmap string JsError.t;
  warnings : gmap string JsError.t;
  estimatedFees : BigNumber.t;
  amount : BigNumber.t;
  totalSpent : BigNumber.t
}.
End TransactionStatus.

(** [bs58check.decode] (does it accept the address?) and the cached
    [recipientIsNew] query. *)
Record StatusEnv := {
  bs58check_decode : string → bool;
  cachedRecipientIsNew : option string → string → Result bool
}.

Definition getTransactionStatus (env : RippleEnv) (stenv : StatusEnv)
    (a : Account.t) (t : RippleTransaction.t) : Result TransactionStatus.t :=
  let errors : gmap string JsError.t := ∅ in
  let warnings : gmap string JsError.t := ∅ in
  r ← getServerInfo env (Account.endpointConfig a);
  let reserveBaseXRP := parseAPIValue env (ServerInfo.validatedLedger_reserveBaseXRP r) in
  let estimatedFees := default (BigNumber.Fin 0) (RippleTransaction.fee t) in
  let totalSpent := BigNumber.plus (RippleTransaction.amount t) estimatedFees in
  let amount := RippleTransaction.amount t in
  let warnings :=
    if BigNumber.gt amount (BigNumber.Fin 0)
       && BigNumber.gt (BigNumber.times estimatedFees (BigNumber.Fin 10)) amount
    then <["feeTooHigh" := FeeTooHigh]> warnings
    else warnings in
  errors ←
    match RippleTransaction.fee t with
    | None => mret (<["fee" := FeeNotLoaded]> errors)
    | Some fee =>
        if BigNumber.eq fee (BigNumber.Fin 0) then
          mret (<["fee" := FeeRequired]> errors)
        else if BigNumber.gt totalSpent (BigNumber.minus (Account.balance a) reserveBaseXRP) then
          mret (<["amount" := NotEnoughBalance]> errors)
        else if truthy_string (RippleTransaction.recipient t) then
          isNew ← cachedRecipientIsNew stenv (Account.endpointConfig a)
                    (RippleTransaction.recipient t);
          if isNew && BigNumber.lt (RippleTransaction.amount t) reserveBaseXRP then
            mret (<["amount" := NotEnoughBalanceBecauseDestinationNotCreated ""]> errors)
          else mret errors
        else mret errors
    end;
  let errors :=
    if negb (truthy_string (RippleTransaction.recipient t)) then
      <["recipient" := RecipientRequired ""]> errors
    else if bool_decide (Account.freshAddress a = RippleTransaction.recipient t) then
      <["recipient" := InvalidAddressBecauseDestinationIsAlsoSource]> errors
    else if bs58check_decode stenv (RippleTransaction.recipient t) then errors
    else <["recipient" := InvalidAddress ""]> errors in
  mret {| TransactionStatus.errors := errors;
          TransactionStatus.warnings := warnings;
          TransactionStatus.estimatedFees := estimatedFees;
          TransactionStatus.amount := amount;
          TransactionStatus.totalSpent := totalSpent |}.

(** ** Auxiliary predicates used in the statements *)

(** A field is falsy when it is absent, [null] or the empty string. *)
Definition falsy (x : Maybe AmountLike) : Prop :=
  x = undefined ∨ x = null ∨ x = Just (Str "").

(** An asynchronous function never rejects with an error of the given
    name. *)
Definition never_throws {E A} (name : string) (m : Async E A) : Prop :=
  ∀ w e w', m w = Thrown e w' → JsError.name e ≠ name.

(** The world in which an asynchronous function ended. *)
Definition finalWorld {E A} (o : Outcome E A) : World E :=
  match o with Value _ w | Thrown _ w | Returned w => w end.

(** The number written by a string of hexadecimal digits, continuing from
    [acc]; [None] when a character is not a hexadecimal digit. *)
Fixpoint hexValue (acc : Z) (s : string) : option Z :=
  match s with
  | EmptyString => Some acc
  | String c s' =>
      match unhex c with
      | Some d => hexValue (16 * acc + d) s'
      | None => None
      end
  end.

(** Every byte of a buffer is in [0, 256). *)
Definition Buffer_wf (buf : Buffer) : Prop := Forall (λ b, 0 ≤ b < 256) buf.

(** ** Sample data used by the examples below *)

Definition sampleOp (id hash : string) (date : Z) (seq : option Z) : Operation.t :=
  {| Operation.id := id; Operation.hash := hash; Operation.accountId := "acc";
     Operation.type := IN; Operation.value := BigNumber.Fin 10;
     Operation.fee := BigNumber.Fin 1; Operation.blockHash := None;
     Operation.blockHeight := Some 7; Operation.senders := ["rSender"];
     Operation.recipients := ["rRecipient"]; Operation.date := date;
     Operation.transactionSequenceNumber := seq; Operation.extra := ∅ |}.

(** A pending outgoing operation with predicted sequence number 5. *)
Definition samplePending : Operation.t := sampleOp "acc-P-OUT" "P" 3000 (Some 5).

Definition sampleCurrency (family : string) : Currency.t :=
  {| Currency.id := "ripple"; Currency.name := "XRP"; Currency.family := family;
     Currency.units := ["XRP"; "drop"] |}.

Definition sampleAccount (family : string) (operations pendingOperations : list Operation.t)
  : Account.t :=
  {| Account.type := "Account"; Account.id := "acc"; Account.seedIdentifier := "rMine";
     Account.derivationMode := ""; Account.name := "XRP 1";
     Account.freshAddress := "rMine"; Account.freshAddressPath := "44'/144'/0'/0/0";
     Account.freshAddresses := [("rMine", "44'/144'/0'/0/0")];
     Account.balance := BigNumber.Fin 1000; Account.blockHeight := 150;
     Account.index := 0; Account.currency := sampleCurrency family;
     Account.operations := operations; Account.pendingOperations := pendingOperations;
     Account.unit := Some "XRP"; Account.archived := None;
     Account.lastSyncDate := 0; Account.endpointConfig := None |}.

(** A ledger on which only the address [rExisting] exists. *)
Definition sampleAPI : RippleAPI :=
  {| connect := Ok ();
     getAccountInfo := λ address,
       if String.eqb address "rExisting" then Ok (AccountInfo.mk "1000")
       else Throws (Error_ "actNotFound");
     getTransactions := λ _ _ _, Ok [] |}.

Definition sampleEnv : RippleEnv :=
  {| apiForEndpointConfig := λ _, sampleAPI;
     getServerInfo := λ _, Ok (ServerInfo.mk 100 200 "20" "0.00001");
     parseAPIValue := λ _, BigNumber.Fin 20;
     parseAPICurrencyObject := λ _, BigNumber.Fin 5;
     formatAPICurrencyXRP := λ _, ApiAmount.mk "XRP" "20";
     Date_parse := λ _, 1000 |}.

Definition neverFinished : nat → bool := λ _, false.

Definition sampleStatusEnv : StatusEnv :=
  {| bs58check_decode := λ recipient, String.prefix "r" recipient;
     cachedRecipientIsNew := λ _ _, Ok false |}.

Definition sampleRippleTransaction (amount : Z) (fee : option BigNumber.t)
  : RippleTransaction.t :=
  {| RippleTransaction.family := "ripple";
     RippleTransaction.amount := BigNumber.Fin amount;
     RippleTransaction.recipient := "rExisting";
     RippleTransaction.fee := fee;
     RippleTransaction.tag := None |}.

(** A device whose every derived address is [rNew], which does not exist
    on the sample ledger; the canonical mode and the mode [legacy]. *)
Definition sampleScanEnv : ScanEnv :=
  {| getDerivationModesForCurrency := λ _, [""; "legacy"];
     getDerivationScheme := λ derivationMode _, "44'/144'/<account>'/0/0";
     runDerivationScheme := λ scheme _ index,
       if bool_decide (index = 0%nat) then "44'/144'/0'/0/0" else "44'/144'/n'/0/0";
     isIterableDerivationMode := λ _, true;
     derivationModeSupportsIndex := λ _ _, true;
     open := λ _, Ok ();
     getAddress := λ _ _ _, Ok "rNew";
     getAccountPlaceholderName := λ _ _ _, "XRP 1";
     getNewAccountPlaceholderName := λ _ _ _, "New Account";
     Date_now := λ _, 5000 |}.

(** A recipient validator that rejects the empty address only, and a
    [BigNumber] constructor that reads every string as 21000. *)
Definition sampleBuilderEnv : BuilderEnv :=
  {| isValidRecipient := λ _ recipient,
       if truthy_string recipient then None else Some (InvalidAddress "");
     BigNumber_ofString := λ _, BigNumber.Fin 21000 |}.

Definition sampleOpts (family : string) (tokenAccount : option TokenAccount.t)
    (transaction : Transaction.t) : Opts.t :=
  {| Opts.account := sampleAccount family [] [];
     Opts.tokenAccount := tokenAccount;
     Opts.transaction := transaction;
     Opts.isPartial := false;
     Opts.isCancelled := neverFinished |}.

(** A draft sending 5 units, with the given fee fields. *)
Definition sampleTransaction (recipient : string) (feePerByte gasPrice gasLimit : Maybe AmountLike)
  : Transaction.t :=
  {| Transaction.recipient := recipient;
     Transaction.amount := Just (Big (BigNumber.Fin 5));
     Transaction.useAllAmount := None;
     Transaction.feePerByte := feePerByte;
     Transaction.gasPrice := gasPrice;
     Transaction.gasLimit := gasLimit |}.

(** ** Further predicates and sample data *)

(** How a run that started in world [w] read the cancellation flag: every
    read answered [false], except the last read of a run that ended with
    an early [return;], which answered [true]. *)
Definition flagsRespected {E A} (flag : nat → bool) (w : World E) (o : Outcome E A) : Prop :=
  match o with
  | Value _ w' | Thrown _ w' =>
      ∀ n, (polls w ≤ n < polls w')%nat → flag n = false
  | Returned w' =>
      (polls w < polls w')%nat
      ∧ flag (pred (polls w')) = true
      ∧ ∀ n, (polls w ≤ n < pred (polls w'))%nat → flag n = false
  end.

(** A token account holding 99 units of a token. *)
Definition sampleTokenAccount : TokenAccount.t :=
  {| TokenAccount.balance := BigNumber.Fin 99;
     TokenAccount.token_contractAddress := "0xToken" |}.

(** A 20-byte recipient. *)
Definition sampleEthereumRecipient : string :=
  "0x00112233445566778899aabbccddeeff00112233".

(** A remote payment of the sample ledger, sent by [source] with the
    sender's sequence number [sequence]. *)
Definition sampleTx (id source : string) (sequence : Z) : Tx.t :=
  {| Tx.id := id; Tx.sequence := sequence; Tx.outcome_fee := "0.00001";
     Tx.outcome_deliveredAmount := Some (ApiAmount.mk "XRP" "5");
     Tx.outcome_ledgerVersion := 180; Tx.outcome_timestamp := "2019-06-01T10:00:00.000Z";
     Tx.specification_source_address := source;
     Tx.specification_destination_address := "rExisting";
     Tx.specification_destination_tag := None |}.

(** An account whose address exists on the sample ledger. *)
Definition sampleExistingAccount (operations pendingOperations : list Operation.t)
  : Account.t :=
  {| Account.type := "Account"; Account.id := "acc"; Account.seedIdentifier := "rExisting";
     Account.derivationMode := ""; Account.name := "XRP 1";
     Account.freshAddress := "rExisting"; Account.freshAddressPath := "44'/144'/0'/0/0";
     Account.freshAddresses := [("rExisting", "44'/144'/0'/0/0")];
     Account.balance := BigNumber.Fin 1000; Account.blockHeight := 150;
     Account.index := 0; Account.currency := sampleCurrency "ripple";
     Account.operations := operations; Account.pendingOperations := pendingOperations;
     Account.unit := Some "XRP"; Account.archived := None;
     Account.lastSyncDate := 0; Account.endpointConfig := None |}.

(** The sample helpers with a balance parser that answers [NaN]. *)
Definition sampleEnvNaN : RippleEnv :=
  {| apiForEndpointConfig := λ _, sampleAPI;
     getServerInfo := λ _, Ok (ServerInfo.mk 100 200 "20" "0.00001");
     parseAPIValue := λ _, BigNumber.NaN;
     parseAPICurrencyObject := λ _, BigNumber.Fin 5;
     formatAPICurrencyXRP := λ _, ApiAmount.mk "XRP" "20";
     Date_parse := λ _, 1000 |}.

(** Every step that an asynchronous function adds to the log, whatever
    its outcome, satisfies [P]. *)
Definition extendsLog {E A} (P : E → Prop) (m : Async E A) : Prop :=
  ∀ w, ∃ ext, log (finalWorld (m w)) = log w ++ ext ∧ Forall P ext.

(** A step of the scan that is neither the completion nor an error. *)
Definition nonTerminal (s : ScanStep) : Prop :=
  match s with
  | Scan_complete | Scan_error _ => False
  | _ => True
  end.

(** The account emitted for an address that exists on the ledger (the
    object [account] of the scan, with its [operations] assigned). *)
Definition discoveredAccount (env : RippleEnv) (senv : ScanEnv) (currency : Currency.t)
    (derivationMode : string) (index : nat) (address freshAddressPath : string)
    (balance : BigNumber.t) (maxLedgerVersion lastSyncDate : Z)
    (transactions : list Tx.t) : Account.t :=
  let account :=
    {| Account.type := "Account";
       Account.id :=
         "ripplejs:2:" +:+ Currency.id currency +:+ ":" +:+ address +:+ ":"
         +:+ derivationMode;
       Account.seedIdentifier := address;
       Account.derivationMode := derivationMode;
       Account.name := getAccountPlaceholderName senv currency index derivationMode;
       Account.freshAddress := address;
       Account.freshAddressPath := freshAddressPath;
       Account.freshAddresses := [(address, freshAddressPath)];
       Account.balance := balance;
       Account.blockHeight := maxLedgerVersion;
       Account.index := index;
       Account.currency := currency;
       Account.operations := [];
       Account.pendingOperations := [];
       Account.unit := head (Currency.units currency);
       Account.archived := None;
       Account.lastSyncDate := lastSyncDate;
       Account.endpointConfig := None |} in
  {| Account.type := Account.type account;
     Account.id := Account.id account;
     Account.seedIdentifier := Account.seedIdentifier account;
     Account.derivationMode := Account.derivationMode account;
     Account.name := Account.name account;
     Account.freshAddress := Account.freshAddress account;
     Account.freshAddressPath := Account.freshAddressPath account;
     Account.freshAddresses := Account.freshAddresses account;
     Account.balance := Account.balance account;
     Account.blockHeight := Account.blockHeight account;
     Account.index := Account.index account;
     Account.currency := Account.currency account;
     Account.operations := txToOperation env account <$> transactions;
     Account.pendingOperations := Account.pendingOperations account;
     Account.unit := Account.unit account;
     Account.archived := Account.archived account;
     Account.lastSyncDate := Account.lastSyncDate account;
     Account.endpointConfig := Account.endpointConfig account |}.

(** A ledger on which every address exists, with one incoming payment. *)
Definition sampleBusyAPI : RippleAPI :=
  {| connect := Ok ();
     getAccountInfo := λ _, Ok (AccountInfo.mk "1000");
     getTransactions := λ _ _ _, Ok [sampleTx "H1" "rOther" 4] |}.

(** ** Ripple bridge: [recipientIsNew] and its cache *)

(** [isRecipientValid]: does [bs58check.decode] accept the address? *)
Definition isRecipientValid (stenv : StatusEnv) (recipient : string) : bool :=
  bs58check_decode stenv recipient.

(** [recipientIsNew]: an address that is not valid is not new, and the
    ledger is not asked; otherwise the address is new exactly when the
    ledger answers [actNotFound]. *)
Definition recipientIsNew (env : RippleEnv) (stenv : StatusEnv)
    (endpointConfig : option string) (recipient : string) : Result bool :=
  if negb (isRecipientValid stenv recipient) then Ok false
  else
  let api := apiForEndpointConfig env endpointConfig in
  connect api;;
  match getAccountInfo api recipient with
  | Ok _ => Ok false
  | Throws e =>
      if bool_decide (JsError.message e ≠ "actNotFound") then Throws e else Ok true
  end.

(** The keys every object literal inherits: [key in cacheRecipientsNew]
    is true for them even when the cache is empty. *)
Definition ObjectPrototype_keys : list string :=
  ObjectPrototype_methods ++ ["__proto__"].

(** What [cachedRecipientIsNew] returns: the promise stored for the
    recipient (given by its outcome), or a member inherited from
    [Object.prototype]. *)
Inductive CacheAnswer :=
| Promise (outcome : Result bool)
| Inherited (key : string).

(** [cachedRecipientIsNew], with the module-level object
    [cacheRecipientsNew] passed in and out: the own properties of the
    object are the map from recipients to the outcome of their promise. *)
Definition cachedRecipientIsNew' (env : RippleEnv) (stenv : StatusEnv)
    (cacheRecipientsNew : gmap string (Result bool))
    (endpointConfig : option string) (recipient : string)
  : CacheAnswer * gmap string (Result bool) :=
  match cacheRecipientsNew !! recipient with
  | Some outcome => (Promise outcome, cacheRecipientsNew)
  | None =>
      if bool_decide (recipient ∈ ObjectPrototype_keys) then
        (Inherited recipient, cacheRecipientsNew)
      else
        let outcome := recipientIsNew env stenv endpointConfig recipient in
        (Promise outcome, <[recipient := outcome]> cacheRecipientsNew)
  end.

(** [delete cacheRecipientsNew[recipient]], the first statement of
    [signAndBroadcast]. *)
Definition forgetRecipient (cacheRecipientsNew : gmap string (Result bool))
    (recipient : string) : gmap string (Result bool) :=
  delete recipient cacheRecipientsNew.

(** A ledger that cannot be reached. *)
Definition sampleDownAPI : RippleAPI :=
  {| connect := Throws (Error_ "Network is down");
     getAccountInfo := λ _, Throws (Error_ "Network is down");
     getTransactions := λ _ _ _, Throws (Error_ "Network is down") |}.

Definition sampleDownEnv : RippleEnv :=
  {| apiForEndpointConfig := λ _, sampleDownAPI;
     getServerInfo := λ _, Throws (Error_ "Network is down");
     parseAPIValue := λ _, BigNumber.Fin 20;
     parseAPICurrencyObject := λ _, BigNumber.Fin 5;
     formatAPICurrencyXRP := λ _, ApiAmount.mk "XRP" "20";
     Date_parse := λ _, 1000 |}.

(** ** Ripple bridge: preparing, signing and broadcasting a payment *)

(** [try { m } finally { fin }]: [fin] runs whatever the outcome of [m],
    which is kept unless [fin] itself throws or returns. *)
Definition try_finally {E A} (m : Async E A) (fin : Async E ()) : Async E A :=
  λ w, match m w with
       | Value a w' =>
           match fin w' with
           | Value _ w'' => Value a w''
           | Thrown e w'' => Thrown e w''
           | Returned w'' => Returned w''
           end
       | Thrown e w' =>
           match fin w' with
           | Value _ w'' => Thrown e w''
           | Thrown e' w'' => Thrown e' w''
           | Returned w'' => Returned w''
           end
       | Returned w' =>
           match fin w' with
           | Value _ w'' => Returned w''
           | Thrown e w'' => Thrown e w''
           | Returned w'' => Returned w''
           end
       end.

(** [try { m } catch (e) { handler }] *)
Definition try_catch {E A} (m : Async E A) (handler : JsError.t → Async E A)
  : Async E A :=
  λ w, match m w with
       | Thrown e w' => handler e w'
       | o => o
       end.

(** One read of a flag whose [n]-th read answers [flag n]. *)
Definition poll {E} (flag : nat → bool) : Async E bool :=
  λ w, Value (flag (polls w)) (mkWorld (S (polls w)) (log w)).

(** [networkInfo] of a Ripple transaction. *)
Module NetworkInfo.
Record t := mk {
  family : string;
  serverFee : BigNumber.t;
  baseReserve : BigNumber.t
}.
End NetworkInfo.

(** The whole transaction of the bridge: the fields read by
    [getTransactionStatus] and [doSignAndBroadcast], then [networkInfo] and
    [feeCustomUnit]. *)
Module BridgeTransaction.
Record t := mk {
  fields : RippleTransaction.t;
  networkInfo : option NetworkInfo.t;
  feeCustomUnit : option string
}.
End BridgeTransaction.

(** [createTransaction] *)
Definition createTransaction : BridgeTransaction.t :=
  {| BridgeTransaction.fields :=
       {| RippleTransaction.family := "ripple";
          RippleTransaction.amount := BigNumber.Fin 0;
          RippleTransaction.recipient := "";
          RippleTransaction.fee := None;
          RippleTransaction.tag := None |};
     BridgeTransaction.networkInfo := None;
     BridgeTransaction.feeCustomUnit := None |}.

(** A patch: for each field, [None] when the patch has no such key, else
    the value written under it. *)
Module Patch.
Record t := mk {
  family : option string;
  amount : option BigNumber.t;
  recipient : option string;
  fee : option (option BigNumber.t);
  tag : option (option Z);
  networkInfo : option (option NetworkInfo.t);
  feeCustomUnit : option (option string)
}.
End Patch.

(** [updateTransaction]: [{ ...t, ...patch }] *)
Definition updateTransaction (t : BridgeTransaction.t) (patch : Patch.t)
  : BridgeTransaction.t :=
  let f := BridgeTransaction.fields t in
  {| BridgeTransaction.fields :=
       {| RippleTransaction.family := default (RippleTransaction.family f) (Patch.family patch);
          RippleTransaction.amount := default (RippleTransaction.amount f) (Patch.amount patch);
          RippleTransaction.recipient :=
            default (RippleTransaction.recipient f) (Patch.recipient patch);
          RippleTransaction.fee := default (RippleTransaction.fee f) (Patch.fee patch);
          RippleTransaction.tag := default (RippleTransaction.tag f) (Patch.tag patch) |};
     BridgeTransaction.networkInfo :=
       default (BridgeTransaction.networkInfo t) (Patch.networkInfo patch);
     BridgeTransaction.feeCustomUnit :=
       default (BridgeTransaction.feeCustomUnit t) (Patch.feeCustomUnit patch) |}.

(** The payment and the instruction handed to [api.preparePayment]. *)
Module Payment.
Record t := mk {
  source_address : string;
  source_amount : ApiAmount.t;
  destination_address : string;
  destination_minAmount : ApiAmount.t;
  destination_tag : option Z
}.
End Payment.

Module Instruction.
Record t := mk {
  fee : string;
  maxLedgerVersionOffset : Z
}.
End Instruction.

(** The answer of [api.submit]. *)
Module Submitted.
Record t := mk {
  resultCode : string;
  resultMessage : string
}.
End Submitted.

(** The other methods of the client returned by [apiForEndpointConfig]
    (by endpoint), the device ([open], [signTransaction]; the transport is
    closed by [transport.close()]), [JSON.parse] (the parsed object is
    written as a string), [computeBinaryTransactionHash], the member
    [data] of a caught error ([None] when it has none, else its
    [resultMessage] if any) and the time read by [new Date()]. *)
Record PaymentEnv := {
  api_getServerInfo : option string → Result ServerInfo.t;
  api_preparePayment : option string → string → Payment.t → Instruction.t → Result string;
  api_submit : option string → string → Result Submitted.t;
  hw_open : string → Result ();
  JSON_parse : string → Result string;
  signTransaction : Currency.t → string → string → Result string;
  computeBinaryTransactionHash : string → Result string;
  error_data : JsError.t → option (option string);
  Date_new : Z
}.

(** The external calls made for a payment and the events emitted, in
    order.  The operation of [Next_broadcasted] is given with the numeric
    tag written to its [extra], if any. *)
Inductive PaymentStep :=
| Api_connect
| Api_getServerInfo
| Api_preparePayment (address : string) (payment : Payment.t) (instruction : Instruction.t)
| Hw_open (deviceId : string)
| Hw_signTransaction (currency : Currency.t) (path : string) (tx : string)
| Hw_close
| Next_signed
| Api_submit (transaction : string)
| Next_broadcasted (operation : Operation.t) (extra_tag : option Z)
| Api_disconnect
| Payment_complete
| Payment_error (e : JsError.t).

(** What [prepareTransaction] resolves to: the transaction it was given
    (the same object), or a new one. *)
Inductive Prepared :=
| SameObject
| NewObject (t' : BridgeTransaction.t).

Definition Prepared_value (t : BridgeTransaction.t) (r : Prepared) : BridgeTransaction.t :=
  match r with SameObject => t | NewObject t' => t' end.

(** [prepareTransaction].  A fee is a BigNumber object or [null], and
    [networkInfo] an object or [null]: [t.networkInfo !== networkInfo]
    holds exactly when the network information was loaded here, and
    [t.fee !== fee] exactly when the transaction had no fee. *)
Definition prepareTransaction (env : RippleEnv) (penv : PaymentEnv)
    (a : Account.t) (t : BridgeTransaction.t) : Async PaymentStep Prepared :=
  let f := BridgeTransaction.fields t in
  networkInfo ←
    match BridgeTransaction.networkInfo t with
    | Some networkInfo => mret networkInfo
    | None =>
        let api := apiForEndpointConfig env (Account.endpointConfig a) in
        try_finally
          (try_catch
             (tell Api_connect;;
              await (connect api);;
              tell Api_getServerInfo;;
              info ← await (api_getServerInfo penv (Account.endpointConfig a));
              let serverFee := parseAPIValue env (ServerInfo.validatedLedger_baseFeeXRP info) in
              mret {| NetworkInfo.family := "ripple";
                      NetworkInfo.serverFee := serverFee;
                      NetworkInfo.baseReserve := BigNumber.Fin 0 |})
             (λ e, throw (remapError e)))
          (tell Api_disconnect)
    end;
  let fee := default (NetworkInfo.serverFee networkInfo) (RippleTransaction.fee f) in
  if bool_decide (BridgeTransaction.networkInfo t = None)
     || bool_decide (RippleTransaction.fee f = None)
  then
    mret (NewObject
            {| BridgeTransaction.fields :=
                 {| RippleTransaction.family := RippleTransaction.family f;
                    RippleTransaction.amount := RippleTransaction.amount f;
                    RippleTransaction.recipient := RippleTransaction.recipient f;
                    RippleTransaction.fee := Some fee;
                    RippleTransaction.tag := RippleTransaction.tag f |};
               BridgeTransaction.networkInfo := Some networkInfo;
               BridgeTransaction.feeCustomUnit := BridgeTransaction.feeCustomUnit t |})
  else mret SameObject.

(** [fillUpExtraFieldToApplyTransactionNetworkInfo]: a patch of the fee
    alone. *)
Definition fillUpExtraFieldToApplyTransactionNetworkInfo (a : Account.t)
    (t : BridgeTransaction.t) (networkInfo : NetworkInfo.t) : Patch.t :=
  {| Patch.family := None;
     Patch.amount := None;
     Patch.recipient := None;
     Patch.fee :=
       Some (Some (default (NetworkInfo.serverFee networkInfo)
                           (RippleTransaction.fee (BridgeTransaction.fields t))));
     Patch.tag := None;
     Patch.networkInfo := None;
     Patch.feeCustomUnit := None |}.

(** The patch [{ networkInfo }]. *)
Definition networkInfoPatch (networkInfo : NetworkInfo.t) : Patch.t :=
  {| Patch.family := None;
     Patch.amount := None;
     Patch.recipient := None;
     Patch.fee := None;
     Patch.tag := None;
     Patch.networkInfo := Some (Some networkInfo);
     Patch.feeCustomUnit := None |}.

(** The [catch] of [doSignAndBroadcast]. *)
Definition rethrowRippled {A} (penv : PaymentEnv) (e : JsError.t)
  : Async PaymentStep A :=
  if String.eqb (JsError.name e) "RippledError" then
    match error_data penv e with
    | None => throw (TypeError "Cannot read property 'resultMessage' of undefined")
    | Some (Some resultMessage) =>
        if truthy_string resultMessage then throw (Error_ resultMessage) else throw e
    | Some None => throw e
    end
  else throw e.

(** The sequence number predicted for the operation just broadcast; the
    sum with a missing number is [NaN], written [None] (falsy and never
    greater than a number, as [NaN] is). *)
Definition predictedSequenceNumber (a : Account.t) : option Z :=
  match Account.operations a with
  | [] => Some (0 + Z.of_nat (length (Account.pendingOperations a)))
  | op :: _ =>
      n ← Operation.transactionSequenceNumber op;
      Some (n + Z.of_nat (length (Account.pendingOperations a)))
  end.

(** The operation handed to [onOperationBroadcasted], before its tag is
    written. *)
Definition broadcastedOperation (penv : PaymentEnv) (a : Account.t)
    (t : RippleTransaction.t) (fee : BigNumber.t) (hash : string) : Operation.t :=
  {| Operation.id := Account.id a +:+ "-" +:+ hash +:+ "-OUT";
     Operation.hash := hash;
     Operation.accountId := Account.id a;
     Operation.type := OUT;
     Operation.value := RippleTransaction.amount t;
     Operation.fee := fee;
     Operation.blockHash := None;
     Operation.blockHeight := None;
     Operation.senders := [Account.freshAddress a];
     Operation.recipients := [RippleTransaction.recipient t];
     Operation.date := Date_new penv;
     Operation.transactionSequenceNumber := predictedSequenceNumber a;
     Operation.extra := ∅ |}.

(** [doSignAndBroadcast]; [onSigned] and [onOperationBroadcasted] are the
    callbacks of [signAndBroadcast], which emit the two events. *)
Definition doSignAndBroadcast (env : RippleEnv) (penv : PaymentEnv)
    (isCancelled : nat → bool) (a : Account.t) (t : RippleTransaction.t)
    (deviceId : string) : Async PaymentStep () :=
  let endpointConfig := Account.endpointConfig a in
  let api := apiForEndpointConfig env endpointConfig in
  match RippleTransaction.fee t with
  | None => throw FeeNotLoaded
  | Some fee =>
      try_finally
        (try_catch
           (tell Api_connect;;
            await (connect api);;
            let amount := formatAPICurrencyXRP env (RippleTransaction.amount t) in
            let payment :=
              {| Payment.source_address := Account.freshAddress a;
                 Payment.source_amount := amount;
                 Payment.destination_address := RippleTransaction.recipient t;
                 Payment.destination_minAmount := amount;
                 Payment.destination_tag :=
                   if truthy_number (RippleTransaction.tag t)
                   then RippleTransaction.tag t else None |} in
            let instruction :=
              {| Instruction.fee := ApiAmount.value (formatAPICurrencyXRP env fee);
                 Instruction.maxLedgerVersionOffset := 12 |} in
            tell (Api_preparePayment (Account.freshAddress a) payment instruction);;
            txJSON ← await (api_preparePayment penv endpointConfig
                              (Account.freshAddress a) payment instruction);
            tell (Hw_open deviceId);;
            await (hw_open penv deviceId);;
            transaction ←
              try_finally
                (tx ← await (JSON_parse penv txJSON);
                 tell (Hw_signTransaction (Account.currency a)
                         (Account.freshAddressPath a) tx);;
                 await (signTransaction penv (Account.currency a)
                          (Account.freshAddressPath a) tx))
                (tell Hw_close);
            cancelled ← poll isCancelled;
            if (cancelled : bool) then mret ()
            else
              tell Next_signed;;
              tell (Api_submit transaction);;
              submittedPayment ← await (api_submit penv endpointConfig transaction);
              if negb (String.eqb (Submitted.resultCode submittedPayment) "tesSUCCESS")
              then throw (Error_ (Submitted.resultMessage submittedPayment))
              else
                hash ← await (computeBinaryTransactionHash penv transaction);
                tell (Next_broadcasted (broadcastedOperation penv a t fee hash)
                        (if truthy_number (RippleTransaction.tag t)
                         then RippleTransaction.tag t else None)))
           (rethrowRippled penv))
        (tell Api_disconnect)
  end.

(** [signAndBroadcast]: what a subscriber whose [n]-th read of the
    [cancelled] flag answers [cancelled n] brings about, and the cache of
    [cachedRecipientIsNew] once the recipient is forgotten. *)
Definition signAndBroadcast (env : RippleEnv) (penv : PaymentEnv)
    (cacheRecipientsNew : gmap string (Result bool)) (cancelled : nat → bool)
    (a : Account.t) (t : RippleTransaction.t) (deviceId : string)
  : list PaymentStep * gmap string (Result bool) :=
  (match doSignAndBroadcast env penv cancelled a t deviceId initialWorld with
   | Value _ w | Returned w => log w ++ [Payment_complete]
   | Thrown e w => log w ++ [Payment_error e]
   end,
   forgetRecipient cacheRecipientsNew (RippleTransaction.recipient t)).

(** The place of a step in a payment that goes through. *)
Definition stepRank (s : PaymentStep) : nat :=
  match s with
  | Api_connect => 0
  | Api_getServerInfo => 1
  | Api_preparePayment _ _ _ => 2
  | Hw_open _ => 3
  | Hw_signTransaction _ _ _ => 4
  | Hw_close => 5
  | Next_signed => 6
  | Api_submit _ => 7
  | Next_broadcasted _ _ => 8
  | Api_disconnect => 9
  | Payment_complete => 10
  | Payment_error _ => 10
  end.

(** A device and a ledger that accept every payment. *)
Definition samplePaymentEnv : PaymentEnv :=
  {| api_getServerInfo := λ _, Ok (ServerInfo.mk 100 200 "20" "0.00001");
     api_preparePayment := λ _ _ _ _, Ok "{}";
     api_submit := λ _ _, Ok (Submitted.mk "tesSUCCESS" "ok");
     hw_open := λ _, Ok ();
     JSON_parse := λ s, Ok s;
     signTransaction := λ _ _ _, Ok "1200";
     computeBinaryTransactionHash := λ _, Ok "HASH";
     error_data := λ _, None;
     Date_new := 2000 |}.

(** A transaction with the network information and the fee loaded. *)
Definition samplePreparedTransaction : BridgeTransaction.t :=
  {| BridgeTransaction.fields := sampleRippleTransaction 100 (Some (BigNumber.Fin 10));
     BridgeTransaction.networkInfo :=
       Some (NetworkInfo.mk "ripple" (BigNumber.Fin 10) (BigNumber.Fin 0));
     BridgeTransaction.feeCustomUnit := None |}.

(** A ledger that refuses every submission with a [RippledError] that
    carries the given result message. *)
Definition sampleRefusingPaymentEnv (resultMessage : option string) : PaymentEnv :=
  {| api_getServerInfo := λ _, Ok (ServerInfo.mk 100 200 "20" "0.00001");
     api_preparePayment := λ _ _ _ _, Ok "{}";
     api_submit := λ _ _, Throws (JsError.mk "RippledError" "refused");
     hw_open := λ _, Ok ();
     JSON_parse := λ s, Ok s;
     signTransaction := λ _ _ _, Ok "1200";
     computeBinaryTransactionHash := λ _, Ok "HASH";
     error_data := λ _, Some resultMessage;
     Date_new := 2000 |}.

(* ===================================================================== *)
(** * Part II. Properties                                                  *)
(* ===================================================================== *)

(** ** The stable sort *)

Section ArraySortFacts.
Context {A : Type} (compareFn : A → A → Z).
Hypothesis compareFn_antisym : ∀ x y, 0 < compareFn x y → compareFn y x ≤ 0.

Let before (a b : A) : Prop := compareFn a b ≤ 0.

Lemma sort_insert_HdRel x l :
  HdRel before x l → sort_insert compareFn x l = x :: l.
Proof.
  destruct 1 as [|y l' Hxy]; simpl; [done|].
  unfold before in Hxy. destruct (Z.ltb_spec 0 (compareFn x y)); [lia|done].
Qed.

Lemma Array_sort_of_Sorted l :
  Sorted before l → Array_sort compareFn l = l.
Proof.
  induction 1 as [|x l Hl IH Hhd]; simpl; [done|].
  fold (Array_sort compareFn l). rewrite IH. by apply sort_insert_HdRel.
Qed.

Lemma sort_insert_Permutation x l : sort_insert compareFn x l ≡ₚ x :: l.
Proof.
  induction l as [|y l IH]; simpl; [done|].
  destruct (0 <? compareFn x y); [|done].
  rewrite IH. apply Permutation_swap.
Qed.

Lemma Array_sort_Permutation l : Array_sort compareFn l ≡ₚ l.
Proof.
  induction l as [|x l IH]; simpl; [done|].
  fold (Array_sort compareFn l).
  by rewrite sort_insert_Permutation, IH.
Qed.

Lemma sort_insert_Sorted x l :
  Sorted before l → Sorted before (sort_insert compareFn x l).
Proof.
  induction 1 as [|y l Hl IH Hhd]; simpl.
  - by repeat constructor.
  - destruct (Z.ltb_spec 0 (compareFn x y)) as [Hlt|Hge].
    + constructor; [done|].
      destruct Hhd as [|z l' Hyz]; simpl.
      * constructor. by apply compareFn_antisym.
      * destruct (0 <? compareFn x z); constructor;
          [done | by apply compareFn_antisym].
    + repeat constructor; done.
Qed.

Lemma Array_sort_Sorted l : Sorted before (Array_sort compareFn l).
Proof.
  induction l as [|x l IH]; simpl; [constructor|].
  by apply sort_insert_Sorted.
Qed.

End ArraySortFacts.

(** ** Lists *)

Lemma Sorted_weaken {A} (R1 R2 : A → A → Prop) (l : list A) :
  (∀ a b, R1 a b → R2 a b) → Sorted R1 l → Sorted R2 l.
Proof.
  intros HR. induction 1 as [|x l Hl IH Hhd]; constructor; [done|].
  destruct Hhd; constructor; auto.
Qed.

Lemma filter_none {A} (P : A → Prop) `{!∀ x, Decision (P x)} (l : list A) :
  (∀ x, x ∈ l → ¬ P x) → filter P l = [].
Proof.
  induction l as [|x l IH]; intros HP; [done|].
  rewrite filter_cons_False by (apply HP; left).
  apply IH. intros y Hy. apply HP. by right.
Qed.

Lemma filter_all {A} (P : A → Prop) `{!∀ x, Decision (P x)} (l : list A) :
  (∀ x, x ∈ l → P x) → filter P l = l.
Proof.
  induction l as [|x l IH]; intros HP; [done|].
  rewrite filter_cons_True by (apply HP; left).
  f_equal. apply IH. intros y Hy. apply HP. by right.
Qed.

(** ** [mergeOps] *)

Lemma byDateDesc_antisym x y : 0 < byDateDesc x y → byDateDesc y x ≤ 0.
Proof. unfold byDateDesc. lia. Qed.

Lemma mergeOps_Permutation existing newFetched :
  mergeOps existing newFetched
  ≡ₚ existing ++ filter (λ o, Operation.id o ∉ Operation.id <$> existing) newFetched.
Proof. apply Array_sort_Permutation. Qed.

Lemma mergeOps_descending existing newFetched :
  descendingByDate (mergeOps existing newFetched).
Proof.
  unfold descendingByDate, mergeOps.
  eapply Sorted_weaken; [|apply (Array_sort_Sorted byDateDesc byDateDesc_antisym)].
  unfold byDateDesc. intros a b; simpl. lia.
Qed.

Lemma mergeOps_covers_fetched existing newFetched o :
  o ∈ newFetched →
  Operation.id o ∈ Operation.id <$> mergeOps existing newFetched.
Proof.
  intros Ho. rewrite mergeOps_Permutation, fmap_app, elem_of_app.
  destruct (decide (Operation.id o ∈ Operation.id <$> existing)) as [|Hn];
    [by left|right].
  apply list_elem_of_fmap. exists o. split; [done|].
  by apply list_elem_of_filter.
Qed.

(** C1. The sync merge is idempotent: merging the fetched list a second
    time into the result of the first merge gives back that result; and the
    existing entries take precedence on id collision: the merged operations
    whose id is the id of an existing operation are exactly the existing
    operations. *)
Theorem mergeOps_idempotent (existing fetched : list Operation.t) :
  mergeOps (mergeOps existing fetched) fetched = mergeOps existing fetched
  ∧ filter (λ o, Operation.id o ∈ Operation.id <$> existing)
           (mergeOps existing fetched) ≡ₚ existing.
Proof.
  split.
  - unfold mergeOps at 1.
    rewrite (filter_none _ fetched).
    + rewrite app_nil_r. apply Array_sort_of_Sorted.
      eapply Sorted_weaken; [|apply mergeOps_descending].
      unfold byDateDesc. intros a b; simpl. lia.
    + intros o Ho Hn. apply Hn. by apply mergeOps_covers_fetched.
  - rewrite mergeOps_Permutation, filter_app.
    rewrite (filter_none _ (filter _ fetched)).
    + rewrite app_nil_r, filter_all; [done|].
      intros o Ho. apply list_elem_of_fmap. by exists o.
    + intros o [Ho _]%list_elem_of_filter. done.
Qed.

Lemma Sorted_lt_NoDup (l : list Z) : Sorted (λ a b, b < a) l → NoDup l.
Proof.
  intros Hs. apply Sorted_StronglySorted in Hs; [|intros x y z; lia].
  induction Hs as [|x l _ IH Hx]; constructor; [|done].
  intros Hin. rewrite Forall_forall in Hx. specialize (Hx x Hin). lia.
Qed.

Lemma Sorted_fmap {A B} (f : A → B) (R : B → B → Prop) (l : list A) :
  Sorted (λ a b, R (f a) (f b)) l ↔ Sorted R (f <$> l).
Proof.
  induction l as [|x l IH]; simpl; [split; constructor|].
  split; inversion_clear 1; constructor; try (by apply IH);
    destruct l; simpl in *; constructor;
    match goal with H : HdRel _ _ _ |- _ => by inversion_clear H end.
Qed.

Lemma Sorted_le_NoDup_lt (l : list Z) :
  Sorted (λ a b, b ≤ a) l → NoDup l → Sorted (λ a b, b < a) l.
Proof.
  induction 1 as [|x l Hl IH Hhd]; intros Hnd; [constructor|].
  apply NoDup_cons in Hnd as [Hx Hnd].
  constructor; [by apply IH|].
  destruct Hhd as [|y l' Hyx]; constructor.
  assert (x ≠ y) by (intros ->; apply Hx; left). lia.
Qed.

(** C2 (as the code has it). For every pair of input lists the result of
    [mergeOps] is descending by date, not strictly: it is strictly
    descending exactly when no two retained operations share a date.  It
    contains no two operations with the same id whenever neither the
    existing list nor the fetched list does on its own (the merge only
    removes fetched operations whose id is the id of an existing one). *)
Theorem mergeOps_sorted_unique (existing fetched : list Operation.t) :
  descendingByDate (mergeOps existing fetched)
  ∧ (strictlyDescendingByDate (mergeOps existing fetched)
     ↔ NoDup (Operation.date <$> mergeOps existing fetched))
  ∧ (uniqueIds existing → uniqueIds fetched →
     uniqueIds (mergeOps existing fetched)).
Proof.
  split; [apply mergeOps_descending|split].
  - unfold strictlyDescendingByDate. rewrite (Sorted_fmap Operation.date (λ a b, b < a)).
    split; [apply Sorted_lt_NoDup|].
    apply Sorted_le_NoDup_lt.
    apply (Sorted_fmap Operation.date (λ a b, b ≤ a)), mergeOps_descending.
  - unfold uniqueIds. intros He Hf.
    rewrite mergeOps_Permutation, fmap_app. apply NoDup_app. split; [done|split].
    + intros i Hi [o [-> [Ho _]%list_elem_of_filter]]%list_elem_of_fmap. done.
    + apply (sublist_NoDup _ (Operation.id <$> fetched)); [exact Hf|].
      apply fmap_sublist, sublist_filter.
Qed.

(** The theorem at a concrete input: one existing operation, fetched again
    together with a newer one. *)
Lemma mergeOps_sorted_unique_witness :
  uniqueIds [sampleOp "acc-A-IN" "A" 1000 (Some 1)]
  ∧ uniqueIds [sampleOp "acc-B-IN" "B" 2000 (Some 2); sampleOp "acc-A-IN" "A" 1000 (Some 1)]
  ∧ uniqueIds (mergeOps [sampleOp "acc-A-IN" "A" 1000 (Some 1)]
       [sampleOp "acc-B-IN" "B" 2000 (Some 2); sampleOp "acc-A-IN" "A" 1000 (Some 1)]).
Proof.
  assert (H1 : uniqueIds [sampleOp "acc-A-IN" "A" 1000 (Some 1)])
    by (unfold uniqueIds; apply (bool_decide_unpack _); vm_compute; exact I).
  assert (H2 : uniqueIds [sampleOp "acc-B-IN" "B" 2000 (Some 2);
                          sampleOp "acc-A-IN" "A" 1000 (Some 1)])
    by (unfold uniqueIds; apply (bool_decide_unpack _); vm_compute; exact I).
  split; [exact H1|split; [exact H2|]].
  exact (proj2 (proj2 (mergeOps_sorted_unique _ _)) H1 H2).
Defined.

(** C2 as stated fails: two fetched operations with distinct ids and the
    same date are both kept, so the result is not strictly descending; an
    operation fetched twice in one batch is kept twice, so the result has a
    duplicate id. *)
Lemma mergeOps_sorted_unique_counterexample :
  ¬ strictlyDescendingByDate
      (mergeOps [] [sampleOp "acc-A-IN" "A" 1000 (Some 1);
                    sampleOp "acc-B-IN" "B" 1000 (Some 2)])
  ∧ ¬ uniqueIds
      (mergeOps [] [sampleOp "acc-A-IN" "A" 1000 (Some 1);
                    sampleOp "acc-A-IN" "A" 1000 (Some 1)]).
Proof.
  split.
  - intros Hs. apply (Sorted_fmap Operation.date (λ a b, b < a)) in Hs.
    change (Sorted (λ a b, b < a) [1000; 1000]) in Hs.
    inversion_clear Hs as [|? ? _ Hhd]. inversion_clear Hhd. lia.
  - unfold uniqueIds.
    change (¬ NoDup ["acc-A-IN"; "acc-A-IN"]).
    intros [Hx _]%NoDup_cons. apply Hx. left.
Qed.

(** ** [startSync] *)

Lemma existsb_hash_spec (operations : list Operation.t) (oo : Operation.t) :
  existsb (λ op, String.eqb (Operation.hash oo) (Operation.hash op)) operations = true
  ↔ ∃ op, op ∈ operations ∧ Operation.hash op = Operation.hash oo.
Proof.
  rewrite existsb_exists. split.
  - intros (op & Hin & Heq). exists op. rewrite <- list_elem_of_In in Hin.
    apply String.eqb_eq in Heq. done.
  - intros (op & Hin & Heq). exists op. rewrite <- list_elem_of_In.
    split; [done|]. apply String.eqb_eq. done.
Qed.

Lemma truthy_number_spec (n : option Z) :
  truthy_number n = true ↔ ∃ z, n = Some z ∧ z ≠ 0.
Proof.
  destruct n as [z|]; simpl.
  - rewrite negb_true_iff, Z.eqb_neq. split.
    + intros Hz. by exists z.
    + intros (z' & [= <-] & Hz). done.
  - split; [done|]. intros (z & [=] & _).
Qed.

Lemma truthy_number_false (n : option Z) :
  truthy_number n = false ↔ n = None ∨ n = Some 0.
Proof.
  destruct n as [z|]; simpl.
  - rewrite negb_false_iff, Z.eqb_eq. split.
    + intros ->. by right.
    + intros [[=]|[= ->]]. done.
  - split; [by left|done].
Qed.

Lemma syncUpdate_pending env transactions balance maxLedgerVersion now a p :
  p ∈ Account.pendingOperations (syncUpdate env transactions balance maxLedgerVersion now a)
  ↔ p ∈ Account.pendingOperations a
    ∧ keepPending (Account.operations
                     (syncUpdate env transactions balance maxLedgerVersion now a)) p = true.
Proof. simpl. rewrite list_elem_of_In, filter_In, <- list_elem_of_In. done. Qed.

(** C8. When the account is not found on the ledger, [startSync] emits one
    update followed by completion, and the update changes the
    [lastSyncDate] of the account it is applied to and no other field. *)
Theorem startSync_not_found_frame (env : RippleEnv) (finished : nat → bool)
    (a : Account.t) (serverInfo : ServerInfo.t) (e : JsError.t) :
  let api := apiForEndpointConfig env (Account.endpointConfig a) in
  connect api = Ok () →
  getServerInfo env (Account.endpointConfig a) = Ok serverInfo →
  getAccountInfo api (Account.freshAddress a) = Throws e →
  JsError.message e = "actNotFound" →
  finished 0%nat = false → finished 1%nat = false → finished 2%nat = false →
  ∃ update,
    startSync env finished a = [SyncNext update; SyncComplete]
    ∧ ∀ (now : Z) (acc : Account.t),
        Account.lastSyncDate (update now acc) = now
        ∧ Account.type (update now acc) = Account.type acc
        ∧ Account.id (update now acc) = Account.id acc
        ∧ Account.seedIdentifier (update now acc) = Account.seedIdentifier acc
        ∧ Account.derivationMode (update now acc) = Account.derivationMode acc
        ∧ Account.name (update now acc) = Account.name acc
        ∧ Account.freshAddress (update now acc) = Account.freshAddress acc
        ∧ Account.freshAddressPath (update now acc) = Account.freshAddressPath acc
        ∧ Account.freshAddresses (update now acc) = Account.freshAddresses acc
        ∧ Account.balance (update now acc) = Account.balance acc
        ∧ Account.blockHeight (update now acc) = Account.blockHeight acc
        ∧ Account.index (update now acc) = Account.index acc
        ∧ Account.currency (update now acc) = Account.currency acc
        ∧ Account.operations (update now acc) = Account.operations acc
        ∧ Account.pendingOperations (update now acc) = Account.pendingOperations acc
        ∧ Account.unit (update now acc) = Account.unit acc
        ∧ Account.archived (update now acc) = Account.archived acc
        ∧ Account.endpointConfig (update now acc) = Account.endpointConfig acc.
Proof.
  intros api Hconnect Hinfo Hacc Hmsg H0 H1 H2.
  exists touchLastSyncDate. split.
  - unfold startSync, startSync_main, initialWorld. fold api.
    unfold mbind, Async_bind, bind, await, checkpoint, getAccountInfo_orNotFound.
    rewrite Hconnect. simpl. rewrite H0, Hinfo. simpl. rewrite H1, Hacc, Hmsg.
    simpl. rewrite H2. reflexivity.
  - intros now acc. repeat split.
Qed.

Lemma startSync_not_found_frame_witness :
  ∃ update,
    startSync sampleEnv neverFinished (sampleAccount "ripple" [] [])
    = [SyncNext update; SyncComplete]
    ∧ ∀ (now : Z) (acc : Account.t),
        Account.lastSyncDate (update now acc) = now
        ∧ Account.type (update now acc) = Account.type acc
        ∧ Account.id (update now acc) = Account.id acc
        ∧ Account.seedIdentifier (update now acc) = Account.seedIdentifier acc
        ∧ Account.derivationMode (update now acc) = Account.derivationMode acc
        ∧ Account.name (update now acc) = Account.name acc
        ∧ Account.freshAddress (update now acc) = Account.freshAddress acc
        ∧ Account.freshAddressPath (update now acc) = Account.freshAddressPath acc
        ∧ Account.freshAddresses (update now acc) = Account.freshAddresses acc
        ∧ Account.balance (update now acc) = Account.balance acc
        ∧ Account.blockHeight (update now acc) = Account.blockHeight acc
        ∧ Account.index (update now acc) = Account.index acc
        ∧ Account.currency (update now acc) = Account.currency acc
        ∧ Account.operations (update now acc) = Account.operations acc
        ∧ Account.pendingOperations (update now acc) = Account.pendingOperations acc
        ∧ Account.unit (update now acc) = Account.unit acc
        ∧ Account.archived (update now acc) = Account.archived acc
        ∧ Account.endpointConfig (update now acc) = Account.endpointConfig acc.
Proof.
  apply (startSync_not_found_frame sampleEnv neverFinished
           (sampleAccount "ripple" [] []) (ServerInfo.mk 100 200 "20" "0.00001")
           (Error_ "actNotFound")); reflexivity.
Defined.

Lemma number_gt_false (x y : option Z) :
  number_gt x y = false
  ↔ x = None ∨ y = None ∨ ∃ a b, x = Some a ∧ y = Some b ∧ a ≤ b.
Proof.
  destruct x as [a|], y as [b|]; simpl; try (split; [auto|done]).
  rewrite Z.ltb_ge. split.
  - intros Hle. right; right. by exists a, b.
  - intros [?|[?|(a' & b' & ? & ? & ?)]]; simplify_eq. done.
Qed.

Lemma keepPending_false (operations : list Operation.t) (p : Operation.t) :
  keepPending operations p = false
  ↔ (∃ op, op ∈ operations ∧ Operation.hash op = Operation.hash p)
    ∨ operations = []
    ∨ ∃ last rest, operations = last :: rest
        ∧ (Operation.transactionSequenceNumber last = None
           ∨ Operation.transactionSequenceNumber last = Some 0
           ∨ Operation.transactionSequenceNumber p = None
           ∨ Operation.transactionSequenceNumber p = Some 0
           ∨ ∃ s sl, Operation.transactionSequenceNumber p = Some s
               ∧ Operation.transactionSequenceNumber last = Some sl
               ∧ s ≤ sl).
Proof.
  unfold keepPending.
  rewrite andb_false_iff, negb_false_iff, existsb_hash_spec.
  apply or_iff_compat_l.
  destruct operations as [|last rest]; simpl.
  - split; [by left|done].
  - rewrite !andb_false_iff, !truthy_number_false, number_gt_false. split.
    + intros H. right. exists last, rest. split; [done|].
      destruct H as [[[?|?]|[?|?]]|[?|[?|?]]]; auto 10.
    + intros [?|(l & r & Heq & H)]; [done|]. simplify_eq.
      destruct H as [?|[?|[?|[?|?]]]]; auto 10.
Qed.

(** C3 (as the code has it). After the sync merge a pending operation is
    dropped if and only if its hash appears among the merged confirmed
    operations, or the merged list is empty, or the sequence number of the
    newest confirmed operation or its own is missing or zero, or its
    sequence number is not strictly greater than that of the newest
    confirmed operation.  In particular a pending operation with sequence
    number 5 is dropped once the newest confirmed operation has sequence
    number 5 or greater, and a pending operation whose hash matches a
    confirmed operation is dropped whatever its sequence number. *)
Theorem syncUpdate_pending_dropped_iff (env : RippleEnv) (transactions : list Tx.t)
    (balance : BigNumber.t) (maxLedgerVersion now : Z) (a : Account.t)
    (p : Operation.t) :
  let a' := syncUpdate env transactions balance maxLedgerVersion now a in
  let operations := Account.operations a' in
  p ∈ Account.pendingOperations a →
  operations = mergeOps (Account.operations a) (txToOperation env a <$> transactions)
  ∧ (p ∉ Account.pendingOperations a'
     ↔ (∃ op, op ∈ operations ∧ Operation.hash op = Operation.hash p)
       ∨ operations = []
       ∨ ∃ last rest, operations = last :: rest
           ∧ (Operation.transactionSequenceNumber last = None
              ∨ Operation.transactionSequenceNumber last = Some 0
              ∨ Operation.transactionSequenceNumber p = None
              ∨ Operation.transactionSequenceNumber p = Some 0
              ∨ ∃ s sl, Operation.transactionSequenceNumber p = Some s
                  ∧ Operation.transactionSequenceNumber last = Some sl
                  ∧ s ≤ sl))
  ∧ (∀ last rest n,
       operations = last :: rest →
       Operation.transactionSequenceNumber p = Some 5 →
       Operation.transactionSequenceNumber last = Some n → 5 ≤ n →
       p ∉ Account.pendingOperations a')
  ∧ ((∃ op, op ∈ operations ∧ Operation.hash op = Operation.hash p) →
     p ∉ Account.pendingOperations a').
Proof.
  intros a' operations Hp.
  assert (Hiff : p ∉ Account.pendingOperations a'
                 ↔ keepPending operations p = false).
  { unfold operations, a'. rewrite syncUpdate_pending. split.
    - intros Hn. apply not_true_is_false. intros Hk. apply Hn. by split.
    - intros Hk [_ Hk']. rewrite Hk in Hk'. discriminate. }
  split; [reflexivity|]. split; [|split].
  - rewrite Hiff. apply keepPending_false.
  - intros last rest n Hops Hs Hl Hn. apply Hiff, keepPending_false.
    right; right. exists last, rest. split; [done|]. do 4 right. by exists 5, n.
  - intros Hhash. apply Hiff, keepPending_false. by left.
Qed.

Lemma syncUpdate_pending_dropped_iff_witness :
  sampleOp "acc-P-OUT" "P" 3000 (Some 5)
  ∉ Account.pendingOperations
      (syncUpdate sampleEnv [] (BigNumber.Fin 1000) 200 4000
         (sampleAccount "ripple" [sampleOp "acc-A-OUT" "A" 2000 (Some 5)]
            [sampleOp "acc-P-OUT" "P" 3000 (Some 5)])).
Proof.
  refine (proj1 (proj2 (proj2 (syncUpdate_pending_dropped_iff sampleEnv []
            (BigNumber.Fin 1000) 200 4000
            (sampleAccount "ripple" [sampleOp "acc-A-OUT" "A" 2000 (Some 5)]
               [sampleOp "acc-P-OUT" "P" 3000 (Some 5)])
            (sampleOp "acc-P-OUT" "P" 3000 (Some 5)) _)))
          (sampleOp "acc-A-OUT" "A" 2000 (Some 5)) [] 5 _ _ _ _).
  - simpl. left.
  - reflexivity.
  - reflexivity.
  - reflexivity.
  - lia.
Defined.

(** C3 as stated fails in both directions.  A pending operation with
    sequence number 5 is dropped although its hash is not among the merged
    confirmed operations and 5 is strictly greater than the sequence number
    0 of the newest confirmed operation.  And a pending operation with
    sequence number 5 is kept although a confirmed operation with sequence
    number 7 exists, because that operation is not the newest one. *)
Lemma syncUpdate_pending_dropped_iff_counterexample :
  (samplePending
     ∈ Account.pendingOperations
         (sampleAccount "ripple" [sampleOp "acc-A-OUT" "A" 2000 (Some 0)] [samplePending])
   ∧ (samplePending
      ∉ Account.pendingOperations
          (syncUpdate sampleEnv [] (BigNumber.Fin 1000) 200 4000
             (sampleAccount "ripple" [sampleOp "acc-A-OUT" "A" 2000 (Some 0)]
                [samplePending])))
   ∧ Account.operations
       (syncUpdate sampleEnv [] (BigNumber.Fin 1000) 200 4000
          (sampleAccount "ripple" [sampleOp "acc-A-OUT" "A" 2000 (Some 0)]
             [samplePending]))
     = [sampleOp "acc-A-OUT" "A" 2000 (Some 0)]
   ∧ Operation.hash (sampleOp "acc-A-OUT" "A" 2000 (Some 0))
     ≠ Operation.hash samplePending
   ∧ Operation.transactionSequenceNumber samplePending = Some 5
   ∧ 0 < 5)
  ∧ (samplePending
       ∈ Account.pendingOperations
           (syncUpdate sampleEnv [] (BigNumber.Fin 1000) 200 4000
              (sampleAccount "ripple"
                 [sampleOp "acc-B-IN" "B" 2000 (Some 3);
                  sampleOp "acc-A-OUT" "A" 1000 (Some 7)]
                 [samplePending]))
     ∧ sampleOp "acc-A-OUT" "A" 1000 (Some 7)
       ∈ Account.operations
           (syncUpdate sampleEnv [] (BigNumber.Fin 1000) 200 4000
              (sampleAccount "ripple"
                 [sampleOp "acc-B-IN" "B" 2000 (Some 3);
                  sampleOp "acc-A-OUT" "A" 1000 (Some 7)]
                 [samplePending]))
     ∧ 5 ≤ 7).
Proof.
  split.
  - split; [simpl; left|]. split.
    + rewrite syncUpdate_pending. intros [_ H]. vm_compute in H. discriminate.
    + split; [reflexivity|]. split; [simpl; discriminate|]. split; [reflexivity|lia].
  - split.
    + rewrite syncUpdate_pending. split; [simpl; left|]. vm_compute. reflexivity.
    + split; [|lia].
      change (sampleOp "acc-A-OUT" "A" 1000 (Some 7)
              ∈ [sampleOp "acc-B-IN" "B" 2000 (Some 3);
                 sampleOp "acc-A-OUT" "A" 1000 (Some 7)]).
      right; left.
Qed.

(** C10. After the sync merge every retained pending operation has a
    newest confirmed operation whose sequence number is present and not
    zero, and a sequence number of its own that is present and not zero;
    that is, a pending operation is dropped when the merged list is empty,
    or its newest operation has a missing or zero sequence number, or the
    pending operation itself has a missing or zero sequence number. *)
Theorem syncUpdate_pending_needs_sequence_numbers (env : RippleEnv)
    (transactions : list Tx.t) (balance : BigNumber.t) (maxLedgerVersion now : Z)
    (a : Account.t) (p : Operation.t) :
  let a' := syncUpdate env transactions balance maxLedgerVersion now a in
  (p ∈ Account.pendingOperations a' →
   ∃ last rest n m,
     Account.operations a' = last :: rest
     ∧ Operation.transactionSequenceNumber last = Some n ∧ n ≠ 0
     ∧ Operation.transactionSequenceNumber p = Some m ∧ m ≠ 0)
  ∧ (Account.operations a' = []
     ∨ (∃ last rest, Account.operations a' = last :: rest
          ∧ (Operation.transactionSequenceNumber last = None
             ∨ Operation.transactionSequenceNumber last = Some 0))
     ∨ Operation.transactionSequenceNumber p = None
     ∨ Operation.transactionSequenceNumber p = Some 0 →
     p ∉ Account.pendingOperations a').
Proof.
  intros a'.
  assert (Hkeep : p ∈ Account.pendingOperations a' →
            ∃ last rest n m,
              Account.operations a' = last :: rest
              ∧ Operation.transactionSequenceNumber last = Some n ∧ n ≠ 0
              ∧ Operation.transactionSequenceNumber p = Some m ∧ m ≠ 0).
  { unfold a'. rewrite syncUpdate_pending. intros [_ Hk].
    unfold keepPending in Hk. apply andb_true_iff in Hk as [_ Hk].
    destruct (Account.operations _) as [|last rest]; [done|]. simpl in Hk.
    apply andb_true_iff in Hk as [Hk _]. apply andb_true_iff in Hk as [Hl Hp].
    apply truthy_number_spec in Hl as (n & Hl & Hn).
    apply truthy_number_spec in Hp as (m & Hp & Hm).
    by exists last, rest, n, m. }
  split; [exact Hkeep|].
  intros Hdrop Hin. destruct (Hkeep Hin) as (last & rest & n & m & Hops & Hl & Hn & Hp & Hm).
  destruct Hdrop as [He|[(l & r & Hlr & [Hnone|Hzero])|[Hnone|Hzero]]];
    rewrite ?Hops in *; simplify_eq; congruence.
Qed.

Lemma syncUpdate_pending_needs_sequence_numbers_witness :
  ∃ last rest n m,
    Account.operations
      (syncUpdate sampleEnv [] (BigNumber.Fin 1000) 200 4000
         (sampleAccount "ripple" [sampleOp "acc-A-OUT" "A" 2000 (Some 4)]
            [sampleOp "acc-P-OUT" "P" 3000 (Some 5)])) = last :: rest
    ∧ Operation.transactionSequenceNumber last = Some n ∧ n ≠ 0
    ∧ Operation.transactionSequenceNumber (sampleOp "acc-P-OUT" "P" 3000 (Some 5)) = Some m
    ∧ m ≠ 0.
Proof.
  apply (proj1 (syncUpdate_pending_needs_sequence_numbers sampleEnv []
                  (BigNumber.Fin 1000) 200 4000
                  (sampleAccount "ripple" [sampleOp "acc-A-OUT" "A" 2000 (Some 4)]
                     [sampleOp "acc-P-OUT" "P" 3000 (Some 5)])
                  (sampleOp "acc-P-OUT" "P" 3000 (Some 5)))).
  apply syncUpdate_pending. split; [simpl; left|]. vm_compute. reflexivity.
Defined.

(** ** [getTransactionStatus] *)

(** The recipient checks, which come last, never touch the [fee] and
    [amount] entries. *)
Ltac recipient_cases :=
  repeat match goal with
         | |- context [if ?b then _ else _] => destruct b
         end;
  rewrite ?lookup_insert_ne by done;
  rewrite ?lookup_insert_eq, ?lookup_empty.

(** C5. [getTransactionStatus] assigns the fee-related errors in this
    order, the first applicable one winning: a missing fee gives
    [FeeNotLoaded]; a fee that is present and zero gives [FeeRequired];
    otherwise, when amount plus fee exceeds the balance minus the reserve,
    [NotEnoughBalance] is set (on the [amount] entry).  Independently the
    warning [FeeTooHigh] is set exactly when the amount is positive and ten
    times the fee exceeds it; fee 11 on amount 100 sets it. *)
Theorem getTransactionStatus_fee_checks (env : RippleEnv) (stenv : StatusEnv)
    (a : Account.t) (t : RippleTransaction.t) (serverInfo : ServerInfo.t)
    (amount balance reserve : Z) :
  getServerInfo env (Account.endpointConfig a) = Ok serverInfo →
  parseAPIValue env (ServerInfo.validatedLedger_reserveBaseXRP serverInfo)
    = BigNumber.Fin reserve →
  RippleTransaction.amount t = BigNumber.Fin amount →
  Account.balance a = BigNumber.Fin balance →
  (RippleTransaction.fee t = None →
   ∃ st, getTransactionStatus env stenv a t = Ok st
     ∧ TransactionStatus.errors st !! "fee" = Some FeeNotLoaded
     ∧ TransactionStatus.errors st !! "amount" = None)
  ∧ (RippleTransaction.fee t = Some (BigNumber.Fin 0) →
     ∃ st, getTransactionStatus env stenv a t = Ok st
       ∧ TransactionStatus.errors st !! "fee" = Some FeeRequired
       ∧ TransactionStatus.errors st !! "amount" = None)
  ∧ (∀ fee, RippleTransaction.fee t = Some (BigNumber.Fin fee) → fee ≠ 0 →
     balance - reserve < amount + fee →
     ∃ st, getTransactionStatus env stenv a t = Ok st
       ∧ TransactionStatus.errors st !! "fee" = None
       ∧ TransactionStatus.errors st !! "amount" = Some NotEnoughBalance)
  ∧ (∀ fee st,
       default (BigNumber.Fin 0) (RippleTransaction.fee t) = BigNumber.Fin fee →
       getTransactionStatus env stenv a t = Ok st →
       (TransactionStatus.warnings st !! "feeTooHigh" = Some FeeTooHigh
        ↔ 0 < amount ∧ amount < fee * 10)
       ∧ (TransactionStatus.warnings st !! "feeTooHigh" = None
          ↔ ¬ (0 < amount ∧ amount < fee * 10)))
  ∧ (∀ st, amount = 100 → RippleTransaction.fee t = Some (BigNumber.Fin 11) →
       getTransactionStatus env stenv a t = Ok st →
       TransactionStatus.warnings st !! "feeTooHigh" = Some FeeTooHigh)
  ∧ (∀ isNew,
       cachedRecipientIsNew stenv (Account.endpointConfig a) (RippleTransaction.recipient t)
         = Ok isNew →
       ∃ st, getTransactionStatus env stenv a t = Ok st).
Proof.
  intros Hinfo Hreserve Hamount Hbalance.
  assert (Hwarn : ∀ fee st,
            default (BigNumber.Fin 0) (RippleTransaction.fee t) = BigNumber.Fin fee →
            getTransactionStatus env stenv a t = Ok st →
            TransactionStatus.warnings st !! "feeTooHigh"
            = if decide (0 < amount ∧ amount < fee * 10) then Some FeeTooHigh else None).
  { intros fee st Hfee. unfold getTransactionStatus.
    rewrite Hinfo. simpl. rewrite Hfee, Hamount. simpl.
    assert (Hw : (if (0 <? amount) && (amount <? fee * 10)
                  then <["feeTooHigh":=FeeTooHigh]> (∅ : gmap string JsError.t)
                  else ∅) !! "feeTooHigh"
                 = if decide (0 < amount ∧ amount < fee * 10) then Some FeeTooHigh else None).
    { destruct (Z.ltb_spec 0 amount), (Z.ltb_spec amount (fee * 10)); simpl;
        case_decide; try lia; by rewrite ?lookup_insert_eq, ?lookup_empty. }
    destruct (match RippleTransaction.fee t with None => _ | Some _ => _ end)
      as [errors|]; simpl; [|discriminate].
    intros [= <-]. simpl. exact Hw. }
  split; [|split; [|split; [|split; [|split]]]].
  - intros Hfee. unfold getTransactionStatus. rewrite Hinfo. simpl. rewrite Hfee. simpl.
    eexists. split; [reflexivity|]. simpl. split; recipient_cases; done.
  - intros Hfee. unfold getTransactionStatus. rewrite Hinfo. simpl. rewrite Hfee. simpl.
    eexists. split; [reflexivity|]. simpl. split; recipient_cases; done.
  - intros fee Hfee Hnz Hgt. unfold getTransactionStatus.
    rewrite Hinfo. simpl. rewrite Hfee, Hreserve, Hamount, Hbalance. simpl.
    destruct (Z.eqb_spec fee 0) as [|_]; [done|].
    destruct (Z.ltb_spec (balance - reserve) (amount + fee)) as [_|]; [|lia]. simpl.
    eexists. split; [reflexivity|]. simpl. split; recipient_cases; done.
  - intros fee st Hfee Hst. rewrite (Hwarn fee st) by done.
    clear Hwarn. destruct (decide (0 < amount ∧ amount < fee * 10));
      (split; split; intros; first [done | discriminate | lia]).
  - intros st -> Hfee Hst. rewrite (Hwarn 11 st); [|by rewrite Hfee|done].
    clear Hwarn. destruct (decide (0 < 100 ∧ 100 < 11 * 10)); [done|lia].
  - intros isNew HisNew. unfold getTransactionStatus. rewrite Hinfo. simpl.
    destruct (RippleTransaction.fee t) as [fee|]; simpl; [|by eexists].
    repeat match goal with
           | |- context [if ?b then _ else _] =>
               match b with
               | context [if _ then _ else _] => fail 1
               | _ => destruct b
               end
           end; simpl; rewrite ?HisNew; simpl;
      repeat match goal with
             | |- context [if ?b then _ else _] => destruct b
             end; simpl; by eexists.
Qed.

Lemma getTransactionStatus_fee_checks_witness :
  ∃ st,
    getTransactionStatus sampleEnv sampleStatusEnv (sampleAccount "ripple" [] [])
      (sampleRippleTransaction 100 (Some (BigNumber.Fin 11))) = Ok st
    ∧ TransactionStatus.warnings st !! "feeTooHigh" = Some FeeTooHigh.
Proof.
  pose proof (getTransactionStatus_fee_checks sampleEnv sampleStatusEnv
                (sampleAccount "ripple" [] [])
                (sampleRippleTransaction 100 (Some (BigNumber.Fin 11)))
                (ServerInfo.mk 100 200 "20" "0.00001") 100 1000 20
                eq_refl eq_refl eq_refl eq_refl)
    as (_ & _ & _ & _ & Hexample & Hreturns).
  destruct (Hreturns false eq_refl) as [st Hst].
  exists st. split; [exact Hst|]. apply Hexample; [reflexivity|reflexivity|exact Hst].
Defined.

(** ** [scanAccountsOnDevice] *)

Lemma scanIndex_not_found env senv finished currency api minLedgerVersion
    maxLedgerVersion derivationMode index w address e :
  let derivationScheme := getDerivationScheme senv derivationMode currency in
  derivationModeSupportsIndex senv derivationMode index = true →
  getAddress senv currency (runDerivationScheme senv derivationScheme currency index)
    derivationMode = Ok address →
  finished (polls w) = false →
  getAccountInfo api address = Throws e →
  JsError.message e = "actNotFound" →
  scanIndex env senv finished currency api minLedgerVersion maxLedgerVersion
    derivationMode derivationScheme index w
  = Value Break
      (mkWorld (S (polls w))
         (log w ++ notFoundSteps senv currency maxLedgerVersion derivationMode index
                     address (Date_now senv (S (polls w))))).
Proof.
  intros derivationScheme Hsupports Haddress Hfinished Hinfo Hmsg.
  unfold scanIndex, notFoundSteps. fold derivationScheme.
  rewrite Hsupports. simpl.
  unfold mbind, Async_bind, bind, tell, await, checkpoint, getAccountInfo_orNotFound.
  simpl. rewrite Haddress. simpl. rewrite Hfinished, Hinfo, Hmsg. simpl.
  destruct (decide (derivationMode = "")) as [->|Hne].
  - simpl. unfold newDate. simpl. by rewrite <- !app_assoc.
  - rewrite bool_decide_eq_false_2 by done. simpl. by rewrite <- !app_assoc.
Qed.

(** C6. When a derived address has no on-chain footprint, the scan of that
    derivation mode ends there: the log grows by the two probes of that
    index, followed by one placeholder account with zero balance if the
    mode is the canonical one (the empty string) and by nothing otherwise,
    whatever number of indices was left to scan.  In particular, when index
    0 of a mode is empty, the scan of that mode probes index 0 only and
    emits exactly one placeholder for the canonical mode, none for another
    mode. *)
Theorem scan_stops_at_missing_account (env : RippleEnv) (senv : ScanEnv)
    (finished : nat → bool) (currency : Currency.t) (api : RippleAPI)
    (minLedgerVersion maxLedgerVersion : Z) (derivationMode : string)
    (w : World ScanStep) (address : string) (e : JsError.t) :
  let derivationScheme := getDerivationScheme senv derivationMode currency in
  finished (polls w) = false →
  getAccountInfo api address = Throws e →
  JsError.message e = "actNotFound" →
  (∀ remaining index,
     derivationModeSupportsIndex senv derivationMode index = true →
     getAddress senv currency (runDerivationScheme senv derivationScheme currency index)
       derivationMode = Ok address →
     scanIndices env senv finished currency api minLedgerVersion maxLedgerVersion
       derivationMode derivationScheme (S remaining) index w
     = Value ()
         (mkWorld (S (polls w))
            (log w ++ notFoundSteps senv currency maxLedgerVersion derivationMode index
                        address (Date_now senv (S (polls w))))))
  ∧ (derivationModeSupportsIndex senv derivationMode 0 = true →
     getAddress senv currency (runDerivationScheme senv derivationScheme currency 0)
       derivationMode = Ok address →
     scanDerivationMode env senv finished currency api minLedgerVersion maxLedgerVersion
       derivationMode w
     = Value ()
         (mkWorld (S (polls w))
            (log w ++ notFoundSteps senv currency maxLedgerVersion derivationMode 0
                        address (Date_now senv (S (polls w))))))
  ∧ (∀ index lastSyncDate,
       ∃ placeholder,
         notFoundSteps senv currency maxLedgerVersion "" index address lastSyncDate
         = [Call_getAddress "" index
              (runDerivationScheme senv (getDerivationScheme senv "" currency) currency index);
            Call_getAccountInfo address;
            Next_discovered placeholder]
         ∧ Account.balance placeholder = BigNumber.Fin 0
         ∧ Account.operations placeholder = []
         ∧ Account.index placeholder = index
         ∧ Account.derivationMode placeholder = "")
  ∧ (∀ index lastSyncDate,
       derivationMode ≠ "" →
       notFoundSteps senv currency maxLedgerVersion derivationMode index address lastSyncDate
       = [Call_getAddress derivationMode index
            (runDerivationScheme senv derivationScheme currency index);
          Call_getAccountInfo address]).
Proof.
  intros derivationScheme Hfinished Hinfo Hmsg.
  assert (Hloop : ∀ remaining index,
     derivationModeSupportsIndex senv derivationMode index = true →
     getAddress senv currency (runDerivationScheme senv derivationScheme currency index)
       derivationMode = Ok address →
     scanIndices env senv finished currency api minLedgerVersion maxLedgerVersion
       derivationMode derivationScheme (S remaining) index w
     = Value ()
         (mkWorld (S (polls w))
            (log w ++ notFoundSteps senv currency maxLedgerVersion derivationMode index
                        address (Date_now senv (S (polls w)))))).
  { intros remaining index Hsupports Haddress. simpl.
    unfold mbind at 1. unfold Async_bind, bind.
    unfold derivationScheme.
    rewrite (scanIndex_not_found env senv finished currency api minLedgerVersion
               maxLedgerVersion derivationMode index w address e); done. }
  split; [exact Hloop|]. split; [|split].
  - intros Hsupports Haddress. unfold scanDerivationMode. fold derivationScheme.
    destruct (isIterableDerivationMode senv derivationMode); by apply Hloop.
  - intros index lastSyncDate. eexists. unfold notFoundSteps.
    rewrite decide_True by done. split; [reflexivity|]. done.
  - intros index lastSyncDate Hne. unfold notFoundSteps.
    rewrite decide_False by done. done.
Qed.

Lemma scan_stops_at_missing_account_witness :
  scanDerivationMode sampleEnv sampleScanEnv neverFinished (sampleCurrency "ripple")
    sampleAPI 100 200 "" initialWorld
  = Value ()
      (mkWorld 1
         (notFoundSteps sampleScanEnv (sampleCurrency "ripple") 200 "" 0 "rNew" 5000)).
Proof.
  exact (proj1 (proj2 (scan_stops_at_missing_account sampleEnv sampleScanEnv neverFinished
           (sampleCurrency "ripple") sampleAPI 100 200 "" initialWorld "rNew"
           (Error_ "actNotFound") eq_refl eq_refl eq_refl)) eq_refl eq_refl).
Defined.

(** ** The transaction builders *)

Lemma truthy_false_iff (x : Maybe AmountLike) : truthy x = false ↔ falsy x.
Proof.
  unfold falsy. destruct x as [| |[b|str]]; simpl.
  - split; [by left|done].
  - split; [by right; left|done].
  - split; [done|]. intros [?|[?|?]]; done.
  - unfold truthy_string. rewrite negb_false_iff, String.eqb_eq. split.
    + intros ->. by right; right.
    + intros [?|[?|?]]; by simplify_eq.
Qed.

Section NeverThrows.
Context {E : Type} (name : string).

Lemma never_throws_ret {A} (a : A) : never_throws name (mret a : Async E A).
Proof. intros w e w' H. discriminate. Qed.

Lemma never_throws_tell (x : E) : never_throws name (tell x).
Proof. intros w e w' H. discriminate. Qed.

Lemma never_throws_checkpoint (flag : nat → bool) :
  never_throws name (checkpoint flag : Async E ()).
Proof. intros w e w' H. unfold checkpoint in H. destruct (flag _); discriminate. Qed.

Lemma never_throws_throw {A} (e : JsError.t) :
  JsError.name e ≠ name → never_throws name (throw e : Async E A).
Proof. intros Hne w e' w' [= <- _]. done. Qed.

Lemma never_throws_bind {A B} (m : Async E A) (k : A → Async E B) :
  never_throws name m → (∀ a, never_throws name (k a)) →
  never_throws name (m ≫= k).
Proof.
  intros Hm Hk w e w' H. unfold mbind, Async_bind, bind in H.
  destruct (m w) as [a w1|e1 w1|w1] eqn:Hmw; [|injection H as <- <-|discriminate].
  - by eapply Hk.
  - by eapply Hm.
Qed.

Lemma never_throws_await {A} (r : Result A) :
  (∀ e, r = Throws e → JsError.name e ≠ name) →
  never_throws name (await r : Async E A).
Proof.
  intros Hr w e w' H. destruct r as [a|e']; simpl in H; [discriminate|].
  injection H as <- _. by apply Hr.
Qed.
End NeverThrows.

Lemma never_throws_FeeNotLoaded {E A} (m : Async E A) (w w' : World E) :
  never_throws "FeeNotLoaded" m → m w = Thrown FeeNotLoaded w' → False.
Proof. intros Hm Hw. by apply Hm in Hw. Qed.

Lemma tokenTransferData_error recipient amount e :
  tokenTransferData recipient amount = Throws e →
  e = InvariantViolation "recipient is invalid" ∨ e = RangeError "invalid size".
Proof.
  unfold tokenTransferData.
  repeat match goal with |- context [if ?b then _ else _] => destruct b end;
    intros [=]; subst; auto.
Qed.

Ltac never_throws_step :=
  first
    [ apply never_throws_ret
    | apply never_throws_tell
    | apply never_throws_checkpoint
    | apply never_throws_throw; discriminate
    | apply never_throws_bind; [|intros ?]
    | apply never_throws_await;
      intros ? [->| ->]%tokenTransferData_error; discriminate
    | match goal with
      | |- never_throws _ (if ?b then _ else _) => destruct b
      | |- never_throws _ (match ?x with _ => _ end) => destruct x
      end ].

(** C9 (as the code has it). Presence of a fee field is tested by
    truthiness, after the recipient has been validated: for a valid
    recipient the Bitcoin builder throws [FeeNotLoaded] exactly when
    [feePerByte] is absent, [null] or the empty string, and the Ethereum
    builder exactly when [gasPrice] or [gasLimit] is.  A fee equal to zero
    is a [BigNumber] object or the string ["0"], both truthy: it is not
    treated as absent. *)
Theorem builders_FeeNotLoaded_iff (env : BuilderEnv) (o : Opts.t) (w : World LibcoreCall) :
  isValidRecipient env (Account.currency (Opts.account o))
    (Transaction.recipient (Opts.transaction o)) = None →
  ((∃ w', bitcoin env o w = Thrown FeeNotLoaded w')
   ↔ falsy (Transaction.feePerByte (Opts.transaction o)))
  ∧ ((∃ w', ethereum env o w = Thrown FeeNotLoaded w')
     ↔ falsy (Transaction.gasPrice (Opts.transaction o))
       ∨ falsy (Transaction.gasLimit (Opts.transaction o)))
  ∧ ¬ falsy (Just (Big (BigNumber.Fin 0)))
  ∧ ¬ falsy (Just (Str "0")).
Proof.
  intros Hvalid. split; [|split; [|split]].
  - rewrite <- truthy_false_iff.
    unfold bitcoin. cbv zeta. rewrite Hvalid.
    rewrite bool_decide_eq_false_2 by (intros H; by apply H).
    destruct (truthy (Transaction.feePerByte (Opts.transaction o))) eqn:Htruthy; simpl negb; cbv iota.
    + split; [|done]. intros [w' Hw']. exfalso. revert Hw'.
      apply never_throws_FeeNotLoaded. repeat never_throws_step.
    + split; [done|]. intros _. eexists. reflexivity.
  - rewrite <- !truthy_false_iff.
    unfold ethereum. cbv zeta. rewrite Hvalid.
    rewrite bool_decide_eq_false_2 by (intros H; by apply H).
    destruct (truthy (Transaction.gasPrice (Opts.transaction o))) eqn:Hprice,
             (truthy (Transaction.gasLimit (Opts.transaction o))) eqn:Hlimit;
      simpl negb; simpl orb; cbv iota.
    2-4: split; [auto|]; intros _; eexists; reflexivity.
    split; [|intros [?|?]; done]. intros [w' Hw']. exfalso. revert Hw'.
    apply never_throws_FeeNotLoaded. repeat never_throws_step.
  - intros [?|[?|?]]; done.
  - intros [?|[?|?]]; done.
Qed.

Lemma builders_FeeNotLoaded_iff_witness :
  ∃ w',
    bitcoin sampleBuilderEnv
      (sampleOpts "bitcoin" None (sampleTransaction "1Recipient" undefined undefined undefined))
      initialWorld
    = Thrown FeeNotLoaded w'.
Proof.
  apply (proj2 (proj1 (builders_FeeNotLoaded_iff sampleBuilderEnv
                         (sampleOpts "bitcoin" None
                            (sampleTransaction "1Recipient" undefined undefined undefined))
                         initialWorld eq_refl))).
  left. reflexivity.
Defined.

(** C9 as stated fails: with a fee per byte equal to zero the Bitcoin
    builder goes through and builds the transaction, and so does the
    Ethereum builder with a gas price and a gas limit equal to zero. *)
Lemma builders_FeeNotLoaded_iff_counterexample :
  bitcoin sampleBuilderEnv
    (sampleOpts "bitcoin" None
       (sampleTransaction "1Recipient" (Just (Big (BigNumber.Fin 0))) undefined undefined))
    initialWorld
  = Value builded
      (mkWorld 7
         [asBitcoinLikeAccount; buildTransaction_ (Some false);
          sendToAddress (BigNumber.Fin 5) "1Recipient"; pickInputs 0 16777215;
          setFeesPerByte (BigNumber.Fin 0); build])
  ∧ ethereum sampleBuilderEnv
      (sampleOpts "ethereum" None
         (sampleTransaction "0xRecipient" undefined (Just (Big (BigNumber.Fin 0)))
            (Just (Big (BigNumber.Fin 0)))))
      initialWorld
    = Value builded
        (mkWorld 7
           [asEthereumLikeAccount; buildTransaction_ None;
            sendToAddress (BigNumber.Fin 5) "0xRecipient";
            setGasLimit (BigNumber.Fin 0); setGasPrice (BigNumber.Fin 0); build]).
Proof. split; vm_compute; reflexivity. Qed.

Lemma byFamily_lookup (env : BuilderEnv) (family : string) :
  byFamily env !! family
  = if decide (family = "bitcoin") then Some (bitcoin env)
    else if decide (family = "ethereum") then Some (ethereum env)
    else None.
Proof.
  unfold byFamily.
  destruct (decide (family = "bitcoin")) as [->|Hb]; [by rewrite lookup_insert_eq|].
  rewrite lookup_insert_ne by done.
  destruct (decide (family = "ethereum")) as [->|He]; [by rewrite lookup_singleton_eq|].
  by rewrite lookup_singleton_ne.
Qed.

(** C7 (as the code has it). The build is dispatched on the family of the
    account's currency: [bitcoin] selects the Bitcoin builder and
    [ethereum] the Ethereum builder.  There is no [UnsupportedFamily]
    error: for any other family that is not the name of a method inherited
    from [Object.prototype], [byFamily[family]] is undefined and calling it
    throws a [TypeError]; every error thrown by the dispatch itself is a
    [TypeError]. *)
Theorem buildTransaction_dispatch (env : BuilderEnv) (opts : Opts.t) :
  let family := Currency.family (Account.currency (Opts.account opts)) in
  (family = "bitcoin" → buildTransaction env opts = Builds (bitcoin env opts))
  ∧ (family = "ethereum" → buildTransaction env opts = Builds (ethereum env opts))
  ∧ (family ≠ "bitcoin" → family ≠ "ethereum" → family ∉ ObjectPrototype_methods →
     buildTransaction env opts
     = ThrowsSync (TypeError "byFamily[opts.account.currency.family] is not a function"))
  ∧ (∀ e, buildTransaction env opts = ThrowsSync e → JsError.name e = "TypeError").
Proof.
  intros family. unfold buildTransaction. fold family. rewrite byFamily_lookup.
  split; [|split; [|split]].
  - intros ->. reflexivity.
  - intros ->. reflexivity.
  - intros Hb He Hproto. rewrite !decide_False by done.
    by rewrite bool_decide_eq_false_2.
  - intros e. repeat case_decide; try discriminate.
    case_bool_decide; [discriminate|]. by intros [= <-].
Qed.

Lemma buildTransaction_dispatch_witness :
  buildTransaction sampleBuilderEnv
    (sampleOpts "ripple" None (sampleTransaction "rExisting" undefined undefined undefined))
  = ThrowsSync (TypeError "byFamily[opts.account.currency.family] is not a function").
Proof.
  apply (proj1 (proj2 (proj2 (buildTransaction_dispatch sampleBuilderEnv
           (sampleOpts "ripple" None
              (sampleTransaction "rExisting" undefined undefined undefined)))))).
  - discriminate.
  - discriminate.
  - apply (bool_decide_unpack _). vm_compute. exact I.
Defined.

(** C7 as stated fails: for the unregistered family [ripple] the build
    fails with a [TypeError], not with an error named
    [UnsupportedFamily]. *)
Lemma buildTransaction_dispatch_counterexample :
  ∃ e,
    buildTransaction sampleBuilderEnv
      (sampleOpts "ripple" None (sampleTransaction "rExisting" undefined undefined undefined))
    = ThrowsSync e
    ∧ JsError.name e = "TypeError"
    ∧ JsError.name e ≠ "UnsupportedFamily".
Proof.
  eexists. split; [vm_compute; reflexivity|]. split; [reflexivity|discriminate].
Qed.

(** ** Hexadecimal encoding *)

Lemma unhex_hexDigit (d : Z) : 0 ≤ d < 16 → unhex (hexDigit d) = Some d.
Proof.
  intros Hd.
  assert (Hcases : d = 0 ∨ d = 1 ∨ d = 2 ∨ d = 3 ∨ d = 4 ∨ d = 5 ∨ d = 6 ∨ d = 7
                   ∨ d = 8 ∨ d = 9 ∨ d = 10 ∨ d = 11 ∨ d = 12 ∨ d = 13 ∨ d = 14
                   ∨ d = 15) by lia.
  repeat (destruct Hcases as [->|Hcases]; [reflexivity|]). by subst.
Qed.

Lemma unhex_range (c : Ascii.ascii) (d : Z) : unhex c = Some d → 0 ≤ d < 16.
Proof.
  unfold unhex. set (n := Z.of_N (Ascii.N_of_ascii c)).
  repeat match goal with
         | |- context [(?a <=? ?b) && (?c <=? ?d)] =>
             destruct (Z.leb_spec a b), (Z.leb_spec c d); simpl
         end; intros [= <-]; lia.
Qed.

Lemma hexDigitsOf_S (fuel : nat) (n : Z) (acc : string) :
  hexDigitsOf (S fuel) n acc
  = if n / 16 =? 0 then String (hexDigit (n mod 16)) acc
    else hexDigitsOf fuel (n / 16) (String (hexDigit (n mod 16)) acc).
Proof. reflexivity. Qed.

Lemma hexDigitsOf_spec (fuel : nat) :
  ∀ (n : Z) (acc : string),
    0 ≤ n < 16 ^ Z.of_nat (S fuel) →
    ∃ k : nat,
      (1 ≤ k)%nat
      ∧ String.length (hexDigitsOf (S fuel) n acc) = (k + String.length acc)%nat
      ∧ (∀ a0, hexValue a0 (hexDigitsOf (S fuel) n acc)
               = hexValue (a0 * 16 ^ Z.of_nat k + n) acc)
      ∧ (k = 1%nat ∨ 16 ^ (Z.of_nat k - 1) ≤ n).
Proof.
  induction fuel as [|fuel IH]; intros n acc Hn.
  - exists 1%nat. change (16 ^ Z.of_nat 1) with 16 in *.
    assert (Hdiv : n / 16 = 0) by (apply Z.div_small; lia).
    assert (Hmod : n mod 16 = n) by (apply Z.mod_small; lia).
    simpl. rewrite Hdiv, Hmod. simpl.
    split; [lia|]. split; [done|]. split; [|by left].
    intros a0. rewrite unhex_hexDigit by lia. f_equal. lia.
  - rewrite (hexDigitsOf_S (S fuel)). destruct (Z.eqb_spec (n / 16) 0) as [Hdiv|Hdiv].
    + exists 1%nat. change (16 ^ Z.of_nat 1) with 16.
      assert (Hsmall : 0 ≤ n < 16).
      { pose proof (Z.div_mod n 16 ltac:(lia)). pose proof (Z.mod_pos_bound n 16 ltac:(lia)). lia. }
      assert (Hmod : n mod 16 = n) by (apply Z.mod_small; lia).
      rewrite Hmod. simpl. split; [lia|]. split; [done|]. split; [|by left].
      intros a0. rewrite unhex_hexDigit by lia. f_equal. lia.
    + assert (Hpow : 16 ^ Z.of_nat (S (S fuel)) = 16 * 16 ^ Z.of_nat (S fuel)).
      { rewrite (Nat2Z.inj_succ (S fuel)), Z.pow_succ_r by lia. done. }
      pose proof (Z.div_mod n 16 ltac:(lia)) as Hdm.
      pose proof (Z.mod_pos_bound n 16 ltac:(lia)) as Hmb.
      assert (Hq : 0 ≤ n / 16 < 16 ^ Z.of_nat (S fuel)).
      { split; [apply Z.div_pos; lia|]. apply Z.div_lt_upper_bound; lia. }
      destruct (IH (n / 16) (String (hexDigit (n mod 16)) acc) Hq)
        as (k & Hk1 & Hlen & Hval & Hlead).
      exists (S k). split; [lia|]. split; [|split].
      * rewrite Hlen. simpl. lia.
      * intros a0. rewrite Hval. simpl. rewrite unhex_hexDigit by lia. f_equal.
        rewrite (Nat2Z.inj_succ k), Z.pow_succ_r by lia. lia.
      * right. replace (Z.of_nat (S k) - 1) with (Z.of_nat k) by lia.
        assert (Hq1 : 1 ≤ n / 16) by lia.
        destruct Hlead as [->|Hlead].
        -- change (16 ^ Z.of_nat 1) with 16. lia.
        -- replace (Z.of_nat k) with (Z.succ (Z.of_nat k - 1)) by lia.
           rewrite Z.pow_succ_r by lia. lia.
Qed.

Lemma Z_toString16_spec (n : Z) :
  0 ≤ n →
  ∃ k : nat,
    (1 ≤ k)%nat
    ∧ String.length (Z_toString16 n) = k
    ∧ hexValue 0 (Z_toString16 n) = Some n
    ∧ (k = 1%nat ∨ 16 ^ (Z.of_nat k - 1) ≤ n).
Proof.
  intros Hn. unfold Z_toString16.
  assert (Hbound : 0 ≤ n < 16 ^ Z.of_nat (S (Z.to_nat (Z.log2 n)))).
  { split; [done|].
    pose proof (Z.log2_nonneg n) as Hlog.
    rewrite Nat2Z.inj_succ, Z2Nat.id by done.
    apply Z.lt_le_trans with (2 ^ Z.succ (Z.log2 n)).
    - destruct (Z.eq_dec n 0) as [->|Hnz]; [by vm_compute|].
      apply Z.log2_spec. lia.
    - apply Z.pow_le_mono_l. lia. }
  destruct (hexDigitsOf_spec _ n EmptyString Hbound) as (k & Hk1 & Hlen & Hval & Hlead).
  exists k. split; [done|]. split; [by rewrite Hlen; simpl; lia|]. split; [|done].
  rewrite Hval. simpl. done.
Qed.

Lemma Buffer_from_hex_spec (m : nat) :
  ∀ (s : string) (a0 v : Z),
    String.length s = (2 * m)%nat →
    hexValue a0 s = Some v →
    length (Buffer_from_hex s) = m
    ∧ fold_left (λ acc b, 256 * acc + b) (Buffer_from_hex s) a0 = v
    ∧ Buffer_wf (Buffer_from_hex s).
Proof.
  induction m as [|m IH]; intros s a0 v Hlen Hval.
  - destruct s; [|done]. simpl in *. split; [done|]. split; [congruence|constructor].
  - destruct s as [|a [|b s]]; [done|simpl in Hlen; lia|].
    simpl in Hval. simpl.
    destruct (unhex a) as [x|] eqn:Hx; [|done].
    destruct (unhex b) as [y|] eqn:Hy; [|done].
    apply unhex_range in Hx, Hy.
    destruct (IH s (16 * (16 * a0 + x) + y) v) as (Hl & Hv & Hwf);
      [simpl in Hlen; lia|done|].
    simpl. split; [by rewrite Hl|]. split.
    + rewrite <- Hv. f_equal. lia.
    + constructor; [lia|done].
Qed.

Lemma Nat_even_half (k : nat) : Nat.even k = true → ∃ m, k = (2 * m)%nat.
Proof. intros [m ->]%Nat.even_spec. by exists m. Qed.

(** The amount field: the hexadecimal writing of an amount below [2^256],
    padded to an even number of digits, decodes to at most 32 bytes whose
    big-endian value is the amount. *)
Lemma amount_buffer_spec (n : Z) :
  0 ≤ n < 2 ^ 256 →
  let amountHex := Z_toString16 n in
  let amountBuf :=
    Buffer_from_hex
      (if Nat.even (String.length amountHex) then amountHex else "0" +:+ amountHex) in
  (length amountBuf ≤ 32)%nat
  ∧ fold_left (λ acc b, 256 * acc + b) amountBuf 0 = n
  ∧ Buffer_wf amountBuf.
Proof.
  intros Hn amountHex amountBuf.
  destruct (Z_toString16_spec n (proj1 Hn)) as (k & Hk1 & Hlen & Hval & Hlead).
  fold amountHex in Hlen, Hval.
  assert (Hk : (k ≤ 64)%nat).
  { destruct Hlead as [->|Hlead]; [lia|].
    assert (16 ^ (Z.of_nat k - 1) < 16 ^ 64).
    { change (16 ^ 64) with (2 ^ 256). lia. }
    apply Z.pow_lt_mono_r_iff in H; lia. }
  subst amountBuf. rewrite Hlen.
  destruct (Nat.even k) eqn:Heven.
  - destruct (Nat_even_half k Heven) as [m Hm].
    destruct (Buffer_from_hex_spec m amountHex 0 n) as (Hl & Hv & Hwf);
      [congruence|done|].
    split; [lia|done].
  - assert (Heven' : Nat.even (S k) = true).
    { rewrite Nat.even_succ, <- Nat.negb_even, Heven. done. }
    destruct (Nat_even_half (S k) Heven') as [m Hm].
    destruct (Buffer_from_hex_spec m ("0" +:+ amountHex) 0 n) as (Hl & Hv & Hwf).
    + change (String.length ("0" +:+ amountHex)) with (S (String.length amountHex)).
      rewrite Hlen. exact Hm.
    + simpl. exact Hval.
    + split; [lia|done].
Qed.

Lemma fold_left_zeros (k : nat) :
  fold_left (λ acc b, 256 * acc + b) (replicate k 0) 0 = 0.
Proof. induction k as [|k IH]; simpl; [done|]. exact IH. Qed.

(** [ethereum] computes the payload of a token transfer with
    [tokenTransferData]: once past the fee checks and the first two
    cancellation checkpoints, a failure of the encoding is the failure of
    the build, and otherwise the payload is handed, in hexadecimal, to
    [setInputData], followed by a transfer of zero to the token contract. *)
Lemma ethereum_token_payload (env : BuilderEnv) (o : Opts.t) (w : World LibcoreCall)
    (tokenAccount : TokenAccount.t) :
  let transaction := Opts.transaction o in
  let amount :=
    if option_truthy (Transaction.useAllAmount transaction)
    then TokenAccount.balance tokenAccount
    else BigNumber_of env (Transaction.amount transaction) in
  Opts.tokenAccount o = Some tokenAccount →
  isValidRecipient env (Account.currency (Opts.account o))
    (Transaction.recipient transaction) = None →
  truthy (Transaction.gasPrice transaction) = true →
  truthy (Transaction.gasLimit transaction) = true →
  Opts.isCancelled o (polls w) = false →
  Opts.isCancelled o (S (polls w)) = false →
  match tokenTransferData (Transaction.recipient transaction) amount with
  | Throws e =>
      ethereum env o w
      = Thrown e (mkWorld (S (S (polls w)))
                    (log w ++ [asEthereumLikeAccount; buildTransaction_ None]))
  | Ok data =>
      ∃ rest,
        log (finalWorld (ethereum env o w))
        = log w
          ++ [asEthereumLikeAccount; buildTransaction_ None;
              setInputData (Buffer_toString_hex data);
              sendToAddress (BigNumber.Fin 0) (TokenAccount.token_contractAddress tokenAccount)]
          ++ rest
  end.
Proof.
  intros transaction amount Htoken Hvalid Hprice Hlimit Hc0 Hc1.
  unfold ethereum. cbv zeta. fold transaction.
  rewrite Hvalid, Htoken, Hprice, Hlimit.
  rewrite bool_decide_eq_false_2 by (intros H; by apply H).
  simpl negb. simpl orb. cbv iota. fold amount.
  unfold mbind, Async_bind, bind, tell, checkpoint. simpl.
  rewrite Hc0. simpl. rewrite Hc1. simpl.
  destruct (tokenTransferData (Transaction.recipient transaction) amount) as [data|e];
    simpl.
  - rewrite <- !app_assoc. simpl.
    repeat match goal with
           | |- context [if ?b then _ else _] => destruct b; simpl
           end;
      eexists; rewrite <- ?app_assoc; simpl; reflexivity.
  - by rewrite <- !app_assoc.
Qed.

(** C4 (as the code has it). For a token transfer the payload is the
    4-byte selector [a9059cbb], then the recipient as a 32-byte field
    (twelve zero bytes followed by the 20 bytes of the address), then the
    amount as a 32-byte big-endian field: the hexadecimal writing of the
    amount, with a leading zero digit when its length is odd, decoded and
    left-padded with zero bytes; this holds for every amount in
    [0, 2^256).  When the recipient does not decode to 20 bytes the build
    fails with the invariant violation [recipient is invalid] (there is no
    [EncodingError]).  Amount 255 is encoded as 31 zero bytes followed by
    [0xFF]. *)
Theorem tokenTransferData_layout (recipient : string) :
  let address := Buffer_from_hex (replace "0x" "" recipient) in
  (length address = 20%nat →
   ∀ amount, 0 ≤ amount < 2 ^ 256 →
     let amountHex := Z_toString16 amount in
     let amountBuf :=
       Buffer_from_hex
         (if Nat.even (String.length amountHex) then amountHex else "0" +:+ amountHex) in
     let amount256 := replicate (32 - length amountBuf) 0 ++ amountBuf in
     tokenTransferData recipient (BigNumber.Fin amount)
     = Ok ([0xa9; 0x05; 0x9c; 0xbb] ++ replicate 12 0 ++ address ++ amount256)
     ∧ length amount256 = 32%nat
     ∧ Buffer_value amount256 = amount
     ∧ Buffer_wf amount256)
  ∧ (length address ≠ 20%nat →
     ∀ amount,
       tokenTransferData recipient amount
       = Throws (InvariantViolation "recipient is invalid"))
  ∧ (length address = 20%nat →
     tokenTransferData recipient (BigNumber.Fin 255)
     = Ok ([0xa9; 0x05; 0x9c; 0xbb] ++ replicate 12 0 ++ address
           ++ replicate 31 0 ++ [0xFF])).
Proof.
  intros address.
  split; [|split].
  - intros Haddr amount Hamount amountHex amountBuf amount256.
    destruct (amount_buffer_spec amount Hamount) as (Hlen & Hval & Hwf).
    fold amountHex in Hlen, Hval, Hwf. fold amountBuf in Hlen, Hval, Hwf.
    split; [|split; [|split]].
    + unfold tokenTransferData. fold address.
      rewrite bool_decide_eq_true_2 by (rewrite length_app, Haddr; reflexivity).
      simpl negb. cbv iota.
      unfold BigNumber_toString16.
      destruct (Z.ltb_spec amount 0) as [|_]; [lia|].
      fold amountHex. fold amountBuf.
      destruct (Z.ltb_spec (32 - Z.of_nat (length amountBuf)) 0) as [|_]; [lia|].
      unfold Buffer_alloc.
      replace (Z.to_nat (32 - Z.of_nat (length amountBuf)))
        with (32 - length amountBuf)%nat by lia.
      reflexivity.
    + unfold amount256. rewrite length_app, length_replicate. lia.
    + unfold amount256, Buffer_value. rewrite fold_left_app, fold_left_zeros. exact Hval.
    + unfold amount256, Buffer_wf. apply Forall_app. split; [|exact Hwf].
      apply Forall_replicate. lia.
  - intros Haddr amount. unfold tokenTransferData. fold address.
    rewrite bool_decide_eq_false_2; [done|].
    rewrite length_app. unfold Buffer_alloc. rewrite length_replicate.
    change (Z.to_nat 12) with 12%nat. lia.
  - intros Haddr. unfold tokenTransferData. fold address.
    rewrite bool_decide_eq_true_2 by (rewrite length_app, Haddr; reflexivity).
    reflexivity.
Qed.

Lemma tokenTransferData_layout_witness :
  ∃ amount256,
    tokenTransferData "0x00112233445566778899aabbccddeeff00112233" (BigNumber.Fin 1000)
    = Ok ([0xa9; 0x05; 0x9c; 0xbb] ++ replicate 12 0
          ++ Buffer_from_hex (replace "0x" "" "0x00112233445566778899aabbccddeeff00112233")
          ++ amount256)
    ∧ length amount256 = 32%nat
    ∧ Buffer_value amount256 = 1000.
Proof.
  pose proof (proj1 (tokenTransferData_layout
                       "0x00112233445566778899aabbccddeeff00112233")
                eq_refl 1000 ltac:(lia))
    as (Hdata & Hlength & Hvalue & _).
  eexists. split; [exact Hdata|]. split; [exact Hlength|exact Hvalue].
Defined.

(** C4 as stated fails: a recipient that decodes to 2 bytes makes the
    build fail with an error named [Invariant Violation], not
    [EncodingError]. *)
Lemma tokenTransferData_layout_counterexample :
  (∃ e,
     tokenTransferData "0x0011" (BigNumber.Fin 255) = Throws e
     ∧ JsError.name e = "Invariant Violation"
     ∧ JsError.name e ≠ "EncodingError")
  ∧ ethereum sampleBuilderEnv
      (sampleOpts "ethereum" (Some (TokenAccount.mk (BigNumber.Fin 99) "0xToken"))
         (sampleTransaction "0x0011" undefined (Just (Big (BigNumber.Fin 1)))
            (Just (Big (BigNumber.Fin 21000)))))
      initialWorld
    = Thrown (InvariantViolation "recipient is invalid")
        (mkWorld 2 [asEthereumLikeAccount; buildTransaction_ None]).
Proof.
  split; [|vm_compute; reflexivity].
  eexists. split; [vm_compute; reflexivity|]. split; [reflexivity|discriminate].
Qed.

(** ** Worked examples *)

(** An operation fetched again is not added; the newer one comes first. *)
Example mergeOps_example :
  mergeOps [sampleOp "acc-A-IN" "A" 1000 (Some 1)]
           [sampleOp "acc-A-IN" "A" 1000 (Some 1); sampleOp "acc-B-IN" "B" 2000 (Some 2)]
  = [sampleOp "acc-B-IN" "B" 2000 (Some 2); sampleOp "acc-A-IN" "A" 1000 (Some 1)].
Proof. vm_compute. reflexivity. Qed.

(** A confirmed operation with sequence number 4: the pending operation
    with sequence number 5 is kept. *)
Example syncUpdate_keeps_newer_pending :
  Account.pendingOperations
    (syncUpdate sampleEnv [] (BigNumber.Fin 1000) 200 4000
       (sampleAccount "ripple" [sampleOp "acc-A-OUT" "A" 2000 (Some 4)] [samplePending]))
  = [samplePending].
Proof. vm_compute. reflexivity. Qed.

(** The account of the sample has no on-chain footprint: one update, then
    completion; a subscriber that unsubscribed at once receives nothing. *)
Example startSync_example :
  startSync sampleEnv neverFinished (sampleAccount "ripple" [] [])
  = [SyncNext touchLastSyncDate; SyncComplete]
  ∧ startSync sampleEnv (λ _, true) (sampleAccount "ripple" [] []) = [].
Proof. split; reflexivity. Qed.

(** The whole scan on the sample device: index 0 of each mode is probed,
    the canonical mode yields a placeholder, the other mode yields
    nothing, and the scan completes. *)
Example scanAccountsOnDevice_example :
  scanAccountsOnDevice sampleEnv sampleScanEnv neverFinished (sampleCurrency "ripple") "device"
  = [Call_getAddress "" 0 "44'/144'/0'/0/0";
     Call_getAccountInfo "rNew";
     Next_discovered
       (newAccountPlaceholder sampleScanEnv (sampleCurrency "ripple") "" 0
          "ripplejs:2:ripple:rNew:" "rNew" "44'/144'/0'/0/0" 200 5000);
     Call_getAddress "legacy" 0 "44'/144'/0'/0/0";
     Call_getAccountInfo "rNew";
     Scan_complete].
Proof. vm_compute. reflexivity. Qed.

(** Fee 0 on amount 100 is reported as [FeeRequired]. *)
Example getTransactionStatus_example :
  TransactionStatus.errors
    <$> getTransactionStatus sampleEnv sampleStatusEnv (sampleAccount "ripple" [] [])
          (sampleRippleTransaction 100 (Some (BigNumber.Fin 0)))
  = Ok (<["fee" := FeeRequired]> ∅).
Proof. reflexivity. Qed.

(** A build cancelled after the amount was set returns nothing and throws
    nothing. *)
Example bitcoin_cancelled_example :
  bitcoin sampleBuilderEnv
    {| Opts.account := sampleAccount "bitcoin" [] [];
       Opts.tokenAccount := None;
       Opts.transaction :=
         sampleTransaction "1Recipient" (Just (Str "12")) undefined undefined;
       Opts.isPartial := true;
       Opts.isCancelled := λ n, bool_decide (n = 3%nat) |}
    initialWorld
  = Returned
      (mkWorld 4
         [asBitcoinLikeAccount; buildTransaction_ (Some true);
          sendToAddress (BigNumber.Fin 5) "1Recipient"]).
Proof. vm_compute. reflexivity. Qed.

(* ===================================================================== *)
(** * Part III. Further properties of the code                             *)
(* ===================================================================== *)

(** ** The transaction builders: errors, cancellation, call sequence *)

Ltac run_async :=
  unfold mbind, Async_bind, bind, mret, Async_ret, ret, throw, tell, checkpoint,
    await, invariant;
  simpl.

(** X1. A recipient rejected by [isValidRecipient] makes both builders throw
    [InvalidAddress] before any fee field is looked at and before any
    transaction builder is created. *)
Theorem builders_reject_invalid_recipient (env : BuilderEnv) (o : Opts.t)
    (w : World LibcoreCall) (err : JsError.t) :
  isValidRecipient env (Account.currency (Opts.account o))
    (Transaction.recipient (Opts.transaction o)) = Some err →
  bitcoin env o w
  = Thrown (InvalidAddress "") (mkWorld (polls w) (log w ++ [asBitcoinLikeAccount]))
  ∧ ethereum env o w
    = Thrown (InvalidAddress "") (mkWorld (polls w) (log w ++ [asEthereumLikeAccount])).
Proof.
  intros Hinvalid. unfold bitcoin, ethereum. cbv zeta. rewrite Hinvalid.
  rewrite bool_decide_eq_true_2 by done. split; reflexivity.
Qed.

Lemma builders_reject_invalid_recipient_witness :
  bitcoin sampleBuilderEnv
    (sampleOpts "bitcoin" None (sampleTransaction "" undefined undefined undefined))
    initialWorld
  = Thrown (InvalidAddress "") (mkWorld 0 ([] ++ [asBitcoinLikeAccount])).
Proof.
  exact (proj1 (builders_reject_invalid_recipient sampleBuilderEnv
           (sampleOpts "bitcoin" None (sampleTransaction "" undefined undefined undefined))
           initialWorld (InvalidAddress "") eq_refl)).
Defined.

(** X2. A Bitcoin build that is not cancelled tells libcore, in this order:
    create the builder with [isPartial], wipe to the recipient (when
    [useAllAmount] is set) or send the amount to it, pick the inputs with
    [(0, 0xffffff)], set the fee per byte, build.  The flag is read 6 times
    on the first path and 7 times on the second. *)
Theorem bitcoin_uncancelled_sequence (env : BuilderEnv) (o : Opts.t)
    (w : World LibcoreCall) :
  let transaction := Opts.transaction o in
  let recipient := Transaction.recipient transaction in
  isValidRecipient env (Account.currency (Opts.account o)) recipient = None →
  truthy (Transaction.feePerByte transaction) = true →
  (∀ n, (polls w ≤ n < polls w + 7)%nat → Opts.isCancelled o n = false) →
  (option_truthy (Transaction.useAllAmount transaction) = true →
   bitcoin env o w
   = Value builded
       (mkWorld (6 + polls w)
          (log w ++ [asBitcoinLikeAccount;
                     buildTransaction_ (Some (Opts.isPartial o));
                     wipeToAddress recipient;
                     pickInputs 0 0xffffff;
                     setFeesPerByte (BigNumber_of env (Transaction.feePerByte transaction));
                     build])))
  ∧ (option_truthy (Transaction.useAllAmount transaction) = false →
     truthy (Transaction.amount transaction) = true →
     bitcoin env o w
     = Value builded
         (mkWorld (7 + polls w)
            (log w ++ [asBitcoinLikeAccount;
                       buildTransaction_ (Some (Opts.isPartial o));
                       sendToAddress (BigNumber_of env (Transaction.amount transaction))
                         recipient;
                       pickInputs 0 0xffffff;
                       setFeesPerByte (BigNumber_of env (Transaction.feePerByte transaction));
                       build]))).
Proof.
  intros transaction recipient Hvalid Hfee Hflag.
  split.
  - intros Hall. unfold bitcoin. cbv zeta. fold transaction. fold recipient.
    rewrite Hvalid, Hfee, Hall.
    rewrite bool_decide_eq_false_2 by (intros H; by apply H).
    run_async. repeat (rewrite Hflag by (simpl; lia); simpl).
    by rewrite <- !app_assoc.
  - intros Hall Hamount. unfold bitcoin. cbv zeta. fold transaction. fold recipient.
    rewrite Hvalid, Hfee, Hall, Hamount.
    rewrite bool_decide_eq_false_2 by (intros H; by apply H).
    run_async. repeat (rewrite Hflag by (simpl; lia); simpl).
    by rewrite <- !app_assoc.
Qed.

Lemma bitcoin_uncancelled_sequence_witness :
  bitcoin sampleBuilderEnv
    (sampleOpts "bitcoin" None
       (sampleTransaction "1Recipient" (Just (Str "12")) undefined undefined))
    initialWorld
  = Value builded
      (mkWorld 7
         ([] ++ [asBitcoinLikeAccount; buildTransaction_ (Some false);
                 sendToAddress (BigNumber.Fin 5) "1Recipient";
                 pickInputs 0 0xffffff; setFeesPerByte (BigNumber.Fin 21000); build])).
Proof.
  exact (proj2 (bitcoin_uncancelled_sequence sampleBuilderEnv
           (sampleOpts "bitcoin" None
              (sampleTransaction "1Recipient" (Just (Str "12")) undefined undefined))
           initialWorld eq_refl eq_refl (λ _ _, eq_refl)) eq_refl eq_refl).
Defined.

(** X3. An Ethereum build of a native transfer that is not cancelled tells
    libcore, in this order: create the builder (without [isPartial]), wipe
    to the recipient or send the amount to it, set the gas limit, set the
    gas price, build. *)
Theorem ethereum_uncancelled_sequence (env : BuilderEnv) (o : Opts.t)
    (w : World LibcoreCall) :
  let transaction := Opts.transaction o in
  let recipient := Transaction.recipient transaction in
  Opts.tokenAccount o = None →
  isValidRecipient env (Account.currency (Opts.account o)) recipient = None →
  truthy (Transaction.gasPrice transaction) = true →
  truthy (Transaction.gasLimit transaction) = true →
  (∀ n, (polls w ≤ n < polls w + 7)%nat → Opts.isCancelled o n = false) →
  (option_truthy (Transaction.useAllAmount transaction) = true →
   ethereum env o w
   = Value builded
       (mkWorld (6 + polls w)
          (log w ++ [asEthereumLikeAccount;
                     buildTransaction_ None;
                     wipeToAddress recipient;
                     setGasLimit (BigNumber_of env (Transaction.gasLimit transaction));
                     setGasPrice (BigNumber_of env (Transaction.gasPrice transaction));
                     build])))
  ∧ (option_truthy (Transaction.useAllAmount transaction) = false →
     truthy (Transaction.amount transaction) = true →
     ethereum env o w
     = Value builded
         (mkWorld (7 + polls w)
            (log w ++ [asEthereumLikeAccount;
                       buildTransaction_ None;
                       sendToAddress (BigNumber_of env (Transaction.amount transaction))
                         recipient;
                       setGasLimit (BigNumber_of env (Transaction.gasLimit transaction));
                       setGasPrice (BigNumber_of env (Transaction.gasPrice transaction));
                       build]))).
Proof.
  intros transaction recipient Hnative Hvalid Hprice Hlimit Hflag.
  split.
  - intros Hall. unfold ethereum. cbv zeta. fold transaction. fold recipient.
    rewrite Hnative, Hvalid, Hprice, Hlimit, Hall.
    rewrite bool_decide_eq_false_2 by (intros H; by apply H).
    run_async. repeat (rewrite Hflag by (simpl; lia); simpl).
    by rewrite <- !app_assoc.
  - intros Hall Hamount. unfold ethereum. cbv zeta. fold transaction. fold recipient.
    rewrite Hnative, Hvalid, Hprice, Hlimit, Hall, Hamount.
    rewrite bool_decide_eq_false_2 by (intros H; by apply H).
    run_async. repeat (rewrite Hflag by (simpl; lia); simpl).
    by rewrite <- !app_assoc.
Qed.

Lemma ethereum_uncancelled_sequence_witness :
  ethereum sampleBuilderEnv
    (sampleOpts "ethereum" None
       (sampleTransaction "0xRecipient" undefined (Just (Big (BigNumber.Fin 3)))
          (Just (Str "21000"))))
    initialWorld
  = Value builded
      (mkWorld 7
         ([] ++ [asEthereumLikeAccount; buildTransaction_ None;
                 sendToAddress (BigNumber.Fin 5) "0xRecipient";
                 setGasLimit (BigNumber.Fin 21000); setGasPrice (BigNumber.Fin 3);
                 build])).
Proof.
  exact (proj2 (ethereum_uncancelled_sequence sampleBuilderEnv
           (sampleOpts "ethereum" None
              (sampleTransaction "0xRecipient" undefined (Just (Big (BigNumber.Fin 3)))
                 (Just (Str "21000"))))
           initialWorld eq_refl eq_refl eq_refl eq_refl (λ _ _, eq_refl))
           eq_refl eq_refl).
Defined.

(** Solves [flag n = false] for [n] in a range, from the answers of the
    flag collected along one path of a run. *)
Ltac flags_in_range :=
  let n := fresh "n" in
  let Hn := fresh "Hn" in
  intros n Hn; simpl in Hn;
  repeat match goal with
         | H : ?flag ?m = false |- ?flag n = false =>
             destruct (decide (n = m)) as [->|?]; [exact H|clear H]
         end;
  lia.

(** Explores every path of a run, one answer of the flag at a time. *)
Ltac explore_flags :=
  repeat match goal with
         | |- context [if ?flag ?n then _ else _] =>
             lazymatch n with
             | context [polls ?w] =>
                 lazymatch w with
                 | mkWorld _ _ => fail
                 | _ => destruct (flag n) eqn:?; simpl
                 end
             end
         end.

(** X4. Cancellation discipline.  Whatever the draft and whatever the answers
    of [isCancelled], a builder that resolves to a transaction or throws
    has only read [false]; and a builder that returns nothing has read
    [true] at its last read and [false] before: it stops at the first
    checkpoint that finds the build cancelled, and cancellation is never
    turned into an error. *)
Theorem builders_cancellation_discipline (env : BuilderEnv) (o : Opts.t)
    (w : World LibcoreCall) :
  flagsRespected (Opts.isCancelled o) w (bitcoin env o w)
  ∧ flagsRespected (Opts.isCancelled o) w (ethereum env o w).
Proof.
  split.
  - unfold bitcoin. cbv zeta.
    destruct (bool_decide _); [simpl; flags_in_range|].
    destruct (truthy (Transaction.feePerByte _)); simpl negb; cbv iota;
      [|simpl; flags_in_range].
    destruct (option_truthy _);
      [|destruct (truthy (Transaction.amount _)); simpl negb; cbv iota];
      run_async; explore_flags;
      first [flags_in_range | split; [lia|split; [assumption|flags_in_range]]].
  - unfold ethereum. cbv zeta.
    destruct (bool_decide _); [simpl; flags_in_range|].
    destruct (truthy (Transaction.gasPrice _)), (truthy (Transaction.gasLimit _));
      simpl negb; simpl orb; cbv iota; try (simpl; flags_in_range).
    destruct (Opts.tokenAccount o) as [tokenAccount|].
    + run_async. explore_flags;
        try (destruct (tokenTransferData _ _); simpl; explore_flags);
        first [flags_in_range | split; [simpl; lia|split; [assumption|flags_in_range]]].
    + destruct (option_truthy _);
        [|destruct (truthy (Transaction.amount _)); simpl negb; cbv iota];
        run_async; explore_flags;
        first [flags_in_range | split; [simpl; lia|split; [assumption|flags_in_range]]].
Qed.

(** A draft without amount and without [useAllAmount] is refused with the
    error [amount is missing] by the Bitcoin builder and by the Ethereum
    builder of a native transfer, but only after the libcore transaction
    builder has been created: the check comes after the first two
    cancellation checkpoints. *)
Theorem builders_amount_is_missing (env : BuilderEnv) (o : Opts.t)
    (w : World LibcoreCall) :
  let transaction := Opts.transaction o in
  isValidRecipient env (Account.currency (Opts.account o))
    (Transaction.recipient transaction) = None →
  option_truthy (Transaction.useAllAmount transaction) = false →
  truthy (Transaction.amount transaction) = false →
  Opts.isCancelled o (polls w) = false →
  Opts.isCancelled o (S (polls w)) = false →
  (truthy (Transaction.feePerByte transaction) = true →
   bitcoin env o w
   = Thrown (Error_ "amount is missing")
       (mkWorld (2 + polls w)
          (log w ++ [asBitcoinLikeAccount; buildTransaction_ (Some (Opts.isPartial o))])))
  ∧ (truthy (Transaction.gasPrice transaction) = true →
     truthy (Transaction.gasLimit transaction) = true →
     Opts.tokenAccount o = None →
     ethereum env o w
     = Thrown (Error_ "amount is missing")
         (mkWorld (2 + polls w)
            (log w ++ [asEthereumLikeAccount; buildTransaction_ None]))).
Proof.
  intros transaction Hvalid Hall Hamount Hc0 Hc1. split.
  - intros Hfee. unfold bitcoin. cbv zeta. fold transaction.
    rewrite Hvalid, Hfee, Hall, Hamount.
    rewrite bool_decide_eq_false_2 by (intros H; by apply H).
    run_async. rewrite Hc0. simpl. rewrite Hc1. simpl. by rewrite <- !app_assoc.
  - intros Hprice Hlimit Hnative. unfold ethereum. cbv zeta. fold transaction.
    rewrite Hvalid, Hprice, Hlimit, Hnative, Hall, Hamount.
    rewrite bool_decide_eq_false_2 by (intros H; by apply H).
    run_async. rewrite Hc0. simpl. rewrite Hc1. simpl. by rewrite <- !app_assoc.
Qed.

Lemma builders_amount_is_missing_witness :
  bitcoin sampleBuilderEnv
    (sampleOpts "bitcoin" None
       {| Transaction.recipient := "1Recipient"; Transaction.amount := undefined;
          Transaction.useAllAmount := None; Transaction.feePerByte := Just (Str "12");
          Transaction.gasPrice := undefined; Transaction.gasLimit := undefined |})
    initialWorld
  = Thrown (Error_ "amount is missing")
      (mkWorld 2 ([] ++ [asBitcoinLikeAccount; buildTransaction_ (Some false)])).
Proof.
  exact (proj1 (builders_amount_is_missing sampleBuilderEnv
           (sampleOpts "bitcoin" None
              {| Transaction.recipient := "1Recipient"; Transaction.amount := undefined;
                 Transaction.useAllAmount := None;
                 Transaction.feePerByte := Just (Str "12");
                 Transaction.gasPrice := undefined; Transaction.gasLimit := undefined |})
           initialWorld eq_refl eq_refl eq_refl eq_refl eq_refl) eq_refl).
Defined.

(** ** The payload of a token transfer *)

Lemma Buffer_from_hex_wf_fuel (n : nat) :
  ∀ s, (String.length s ≤ n)%nat → Buffer_wf (Buffer_from_hex s).
Proof.
  induction n as [|n IH]; intros s Hlen.
  - destruct s; [constructor|simpl in Hlen; lia].
  - destruct s as [|a [|b s]]; simpl; try constructor.
    destruct (unhex a) as [x|] eqn:Hx; [|constructor].
    destruct (unhex b) as [y|] eqn:Hy; [|constructor].
    apply unhex_range in Hx, Hy. constructor; [lia|].
    apply IH. simpl in Hlen. lia.
Qed.

Lemma Buffer_from_hex_wf (s : string) : Buffer_wf (Buffer_from_hex s).
Proof. by apply (Buffer_from_hex_wf_fuel (String.length s)). Qed.

Lemma Buffer_alloc_wf (n : Z) : Buffer_wf (Buffer_alloc n).
Proof. apply Forall_replicate. lia. Qed.

(** Whatever the recipient and the amount, a payload that is produced is
    exactly 68 bytes long: the 4 bytes [a9 05 9c bb], twelve zero bytes,
    and 52 further bytes, each byte in [0, 256). *)
Theorem tokenTransferData_shape (recipient : string) (amount : BigNumber.t)
    (data : Buffer) :
  tokenTransferData recipient amount = Ok data →
  length data = 68%nat
  ∧ take 4 data = [0xa9; 0x05; 0x9c; 0xbb]
  ∧ take 12 (drop 4 data) = replicate 12 0
  ∧ drop 16 (take 36 data) = Buffer_from_hex (replace "0x" "" recipient)
  ∧ Buffer_wf data.
Proof.
  unfold tokenTransferData.
  set (address := Buffer_from_hex (replace "0x" "" recipient)).
  set (amountBuf := Buffer_from_hex _).
  case_bool_decide as Hlen; simpl negb; cbv iota; [|discriminate].
  destruct (Z.ltb_spec (32 - Z.of_nat (length amountBuf)) 0) as [|Hfits];
    [discriminate|].
  intros Hdata.
  rewrite length_app in Hlen. change (length (Buffer_alloc 12)) with 12%nat in Hlen.
  assert (Haddress : length address = 20%nat) by lia.
  change ethereumTransferMethodID with [0xa9; 0x05; 0x9c; 0xbb] in Hdata.
  change (Buffer_alloc 12) with (replicate 12 0) in Hdata.
  replace data
    with ([0xa9; 0x05; 0x9c; 0xbb] ++ (replicate 12 0 ++ address)
          ++ Buffer_alloc (32 - Z.of_nat (length amountBuf)) ++ amountBuf)
    by congruence.
  clear Hdata. rewrite <- (app_assoc (replicate 12 0)).
  split; [|split; [|split; [|split]]].
  - rewrite !length_app, Haddress. unfold Buffer_alloc.
    rewrite !length_replicate. cbn [length]. lia.
  - reflexivity.
  - reflexivity.
  - simpl. rewrite take_app_length'; [done|]. by rewrite Haddress.
  - unfold Buffer_wf. rewrite !Forall_app. split; [|split; [|split; [|split]]].
    + repeat constructor; lia.
    + apply Forall_replicate. lia.
    + apply Buffer_from_hex_wf.
    + apply Buffer_alloc_wf.
    + apply Buffer_from_hex_wf.
Qed.

Lemma tokenTransferData_shape_witness :
  length
    ([0xa9; 0x05; 0x9c; 0xbb] ++ replicate 12 0
     ++ Buffer_from_hex (replace "0x" "" sampleEthereumRecipient)
     ++ replicate 31 0 ++ [0xFF]) = 68%nat.
Proof.
  exact (proj1 (tokenTransferData_shape sampleEthereumRecipient (BigNumber.Fin 255) _
                  eq_refl)).
Defined.

Lemma tokenTransferData_zero_field (recipient : string) (amount : BigNumber.t) :
  length (Buffer_from_hex (replace "0x" "" recipient)) = 20%nat →
  amount = BigNumber.NaN ∨ (∃ z, amount = BigNumber.Fin z ∧ z < 0) →
  tokenTransferData recipient amount
  = Ok ([0xa9; 0x05; 0x9c; 0xbb] ++ replicate 12 0
        ++ Buffer_from_hex (replace "0x" "" recipient) ++ replicate 32 0).
Proof.
  intros Haddress Hamount. unfold tokenTransferData.
  rewrite bool_decide_eq_true_2 by (rewrite length_app, Haddress; reflexivity).
  simpl negb. cbv iota.
  assert (Hbuf : Buffer_from_hex
                   (if Nat.even (String.length (BigNumber_toString16 amount))
                    then BigNumber_toString16 amount
                    else "0" +:+ BigNumber_toString16 amount) = []).
  { destruct Hamount as [->|(z & -> & Hz)]; [reflexivity|].
    unfold BigNumber_toString16. destruct (Z.ltb_spec z 0) as [_|]; [|lia].
    generalize (Z_toString16 (- z)). intros digits. cbn [String.append].
    destruct (Nat.even _).
    - destruct digits; reflexivity.
    - reflexivity. }
  rewrite Hbuf. change (32 - Z.of_nat (length (@nil Z)) <? 0) with false. cbv iota.
  change (Buffer_alloc (32 - Z.of_nat (length (@nil Z)))) with (replicate 32 0).
  change (Buffer_alloc 12) with (replicate 12 0).
  change ethereumTransferMethodID with [0xa9; 0x05; 0x9c; 0xbb].
  by rewrite app_nil_r, <- (app_assoc (replicate 12 0)).
Qed.

(** X5. An amount that is [NaN] or negative is not refused: its hexadecimal
    writing starts with a character that is not a digit, the decoding
    stops at once, and the amount field of the payload is 32 zero bytes. *)
Theorem tokenTransferData_not_a_natural (recipient : string) (amount : BigNumber.t) :
  length (Buffer_from_hex (replace "0x" "" recipient)) = 20%nat →
  amount = BigNumber.NaN ∨ (∃ z, amount = BigNumber.Fin z ∧ z < 0) →
  tokenTransferData recipient amount
  = Ok ([0xa9; 0x05; 0x9c; 0xbb] ++ replicate 12 0
        ++ Buffer_from_hex (replace "0x" "" recipient) ++ replicate 32 0).
Proof. apply tokenTransferData_zero_field. Qed.

Lemma tokenTransferData_not_a_natural_witness :
  tokenTransferData sampleEthereumRecipient (BigNumber.Fin (-255))
  = Ok ([0xa9; 0x05; 0x9c; 0xbb] ++ replicate 12 0
        ++ Buffer_from_hex (replace "0x" "" sampleEthereumRecipient) ++ replicate 32 0).
Proof.
  apply (tokenTransferData_not_a_natural sampleEthereumRecipient (BigNumber.Fin (-255))
           eq_refl).
  right. exists (-255). split; [reflexivity|lia].
Defined.

Lemma hexValue_bound (s : string) :
  ∀ a0 v, 0 ≤ a0 → hexValue a0 s = Some v →
          0 ≤ v < (a0 + 1) * 16 ^ Z.of_nat (String.length s).
Proof.
  induction s as [|c s IH]; intros a0 v Ha0 Hv; simpl in Hv.
  - injection Hv as <-. simpl. lia.
  - destruct (unhex c) as [d|] eqn:Hd; [|discriminate].
    apply unhex_range in Hd.
    apply IH in Hv; [|lia].
    change (String.length (String c s)) with (S (String.length s)).
    rewrite Nat2Z.inj_succ, Z.pow_succ_r by lia.
    split; [lia|]. nia.
Qed.

(** X6. An amount of [2^256] or more does not fit the 32-byte field: the build
    fails with a [RangeError] instead of truncating the amount. *)
Theorem tokenTransferData_overflow (recipient : string) (amount : Z) :
  length (Buffer_from_hex (replace "0x" "" recipient)) = 20%nat →
  2 ^ 256 ≤ amount →
  tokenTransferData recipient (BigNumber.Fin amount) = Throws (RangeError "invalid size").
Proof.
  intros Haddress Hamount. unfold tokenTransferData.
  rewrite bool_decide_eq_true_2 by (rewrite length_app, Haddress; reflexivity).
  simpl negb. cbv iota. unfold BigNumber_toString16.
  assert (Hpos : 0 < 2 ^ 256) by (by vm_compute).
  destruct (Z.ltb_spec amount 0) as [|_]; [lia|].
  destruct (Z_toString16_spec amount ltac:(lia)) as (k & Hk1 & Hlen & Hval & _).
  pose proof (hexValue_bound _ 0 amount ltac:(lia) Hval) as [_ Hlt].
  rewrite Hlen in Hlt |- *. rewrite Z.add_0_l, Z.mul_1_l in Hlt.
  assert (Hk : (65 ≤ k)%nat).
  { destruct (decide (65 ≤ k)%nat) as [|Hsmall]; [done|exfalso].
    assert (16 ^ Z.of_nat k ≤ 16 ^ 64) by (apply Z.pow_le_mono_r; lia).
    change (16 ^ 64) with (2 ^ 256) in *. lia. }
  set (amountHex := Z_toString16 amount) in *.
  assert (Hbytes : (33 ≤ length
                      (Buffer_from_hex
                         (if Nat.even k then amountHex else "0" +:+ amountHex)))%nat).
  { destruct (Nat.even k) eqn:Heven.
    - destruct (Nat_even_half k Heven) as [m Hm].
      destruct (Buffer_from_hex_spec m amountHex 0 amount) as (Hl & _ & _);
        [congruence|done|]. lia.
    - assert (Heven' : Nat.even (S k) = true).
      { rewrite Nat.even_succ, <- Nat.negb_even, Heven. done. }
      destruct (Nat_even_half (S k) Heven') as [m Hm].
      destruct (Buffer_from_hex_spec m ("0" +:+ amountHex) 0 amount) as (Hl & _ & _).
      + change (String.length ("0" +:+ amountHex)) with (S (String.length amountHex)).
        rewrite Hlen. exact Hm.
      + simpl. exact Hval.
      + lia. }
  destruct (Z.ltb_spec (32 - Z.of_nat (length
              (Buffer_from_hex (if Nat.even k then amountHex else "0" +:+ amountHex)))) 0);
    [done|lia].
Qed.

Lemma tokenTransferData_overflow_witness :
  tokenTransferData sampleEthereumRecipient (BigNumber.Fin (2 ^ 256))
  = Throws (RangeError "invalid size").
Proof.
  apply (tokenTransferData_overflow sampleEthereumRecipient (2 ^ 256) eq_refl). lia.
Defined.

Lemma ethereum_token_payload_witness :
  ∃ rest,
    log (finalWorld
           (ethereum sampleBuilderEnv
              (sampleOpts "ethereum" (Some sampleTokenAccount)
                 {| Transaction.recipient := sampleEthereumRecipient;
                    Transaction.amount := undefined;
                    Transaction.useAllAmount := Some true;
                    Transaction.feePerByte := undefined;
                    Transaction.gasPrice := Just (Big (BigNumber.Fin 3));
                    Transaction.gasLimit := Just (Str "21000") |})
              initialWorld))
    = [] ++ [asEthereumLikeAccount; buildTransaction_ None;
             setInputData
               "a9059cbb00000000000000000000000000112233445566778899aabbccddeeff001122330000000000000000000000000000000000000000000000000000000000000063";
             sendToAddress (BigNumber.Fin 0) "0xToken"]
         ++ rest.
Proof.
  exact (ethereum_token_payload sampleBuilderEnv
           (sampleOpts "ethereum" (Some sampleTokenAccount)
              {| Transaction.recipient := sampleEthereumRecipient;
                 Transaction.amount := undefined;
                 Transaction.useAllAmount := Some true;
                 Transaction.feePerByte := undefined;
                 Transaction.gasPrice := Just (Big (BigNumber.Fin 3));
                 Transaction.gasLimit := Just (Str "21000") |})
           initialWorld sampleTokenAccount eq_refl eq_refl eq_refl eq_refl eq_refl eq_refl).
Defined.

(** X7. The token path of [ethereum] has no [amount is missing] check: a draft
    of a token transfer without amount and without [useAllAmount] is built
    to the end, with a payload whose amount field is zero. *)
Theorem ethereum_token_without_amount (env : BuilderEnv) (o : Opts.t)
    (w : World LibcoreCall) (tokenAccount : TokenAccount.t) :
  let transaction := Opts.transaction o in
  let address := Buffer_from_hex (replace "0x" "" (Transaction.recipient transaction)) in
  Opts.tokenAccount o = Some tokenAccount →
  isValidRecipient env (Account.currency (Opts.account o))
    (Transaction.recipient transaction) = None →
  truthy (Transaction.gasPrice transaction) = true →
  truthy (Transaction.gasLimit transaction) = true →
  option_truthy (Transaction.useAllAmount transaction) = false →
  Transaction.amount transaction = undefined ∨ Transaction.amount transaction = null →
  length address = 20%nat →
  (∀ n, (polls w ≤ n < polls w + 5)%nat → Opts.isCancelled o n = false) →
  ethereum env o w
  = Value builded
      (mkWorld (5 + polls w)
         (log w ++ [asEthereumLikeAccount;
                    buildTransaction_ None;
                    setInputData
                      (Buffer_toString_hex
                         ([0xa9; 0x05; 0x9c; 0xbb] ++ replicate 12 0 ++ address
                          ++ replicate 32 0));
                    sendToAddress (BigNumber.Fin 0)
                      (TokenAccount.token_contractAddress tokenAccount);
                    setGasLimit (BigNumber_of env (Transaction.gasLimit transaction));
                    setGasPrice (BigNumber_of env (Transaction.gasPrice transaction));
                    build])).
Proof.
  intros transaction address Htoken Hvalid Hprice Hlimit Hall Hamount Haddress Hflag.
  assert (Hnan : BigNumber_of env (Transaction.amount transaction) = BigNumber.NaN).
  { by destruct Hamount as [-> | ->]. }
  unfold ethereum. cbv zeta. fold transaction.
  rewrite Htoken, Hvalid, Hprice, Hlimit, Hall, Hnan.
  rewrite bool_decide_eq_false_2 by (intros H; by apply H).
  rewrite (tokenTransferData_zero_field _ BigNumber.NaN Haddress) by (by left).
  fold address.
  run_async. repeat (rewrite Hflag by (simpl; lia); simpl).
  by rewrite <- !app_assoc.
Qed.

Lemma ethereum_token_without_amount_witness :
  ethereum sampleBuilderEnv
    (sampleOpts "ethereum" (Some sampleTokenAccount)
       {| Transaction.recipient := sampleEthereumRecipient;
          Transaction.amount := undefined;
          Transaction.useAllAmount := None;
          Transaction.feePerByte := undefined;
          Transaction.gasPrice := Just (Big (BigNumber.Fin 3));
          Transaction.gasLimit := Just (Str "21000") |})
    initialWorld
  = Value builded
      (mkWorld 5
         ([] ++ [asEthereumLikeAccount;
                 buildTransaction_ None;
                 setInputData
                   (Buffer_toString_hex
                      ([0xa9; 0x05; 0x9c; 0xbb] ++ replicate 12 0
                       ++ Buffer_from_hex (replace "0x" "" sampleEthereumRecipient)
                       ++ replicate 32 0));
                 sendToAddress (BigNumber.Fin 0) "0xToken";
                 setGasLimit (BigNumber.Fin 21000);
                 setGasPrice (BigNumber.Fin 3);
                 build])).
Proof.
  exact (ethereum_token_without_amount sampleBuilderEnv
           (sampleOpts "ethereum" (Some sampleTokenAccount)
              {| Transaction.recipient := sampleEthereumRecipient;
                 Transaction.amount := undefined;
                 Transaction.useAllAmount := None;
                 Transaction.feePerByte := undefined;
                 Transaction.gasPrice := Just (Big (BigNumber.Fin 3));
                 Transaction.gasLimit := Just (Str "21000") |})
           initialWorld sampleTokenAccount eq_refl eq_refl eq_refl eq_refl eq_refl
           (or_introl eq_refl) eq_refl (λ _ _, eq_refl)).
Defined.

(** ** [mergeOps] and [txToOperation] *)

(** X8. The merged list holds the existing operations and the fetched
    operations whose id is not the id of an existing one, and nothing
    else; so it is never shorter than the existing list and never longer
    than the two lists together. *)
Theorem mergeOps_elem_of (existing fetched : list Operation.t) :
  (∀ o, o ∈ mergeOps existing fetched
        ↔ o ∈ existing
          ∨ (o ∈ fetched ∧ Operation.id o ∉ Operation.id <$> existing))
  ∧ (length existing ≤ length (mergeOps existing fetched)
     ≤ length existing + length fetched)%nat.
Proof.
  split.
  - intros o. rewrite mergeOps_Permutation, elem_of_app, list_elem_of_filter.
    split; intros [?|[? ?]]; auto.
  - rewrite mergeOps_Permutation, length_app.
    pose proof (length_filter (λ o, Operation.id o ∉ Operation.id <$> existing) fetched).
    lia.
Qed.

(** A sync that fetches nothing new leaves a list that is already in
    descending order untouched: when every fetched id is the id of an
    existing operation, [mergeOps] returns the existing list itself. *)
Theorem mergeOps_nothing_new (existing fetched : list Operation.t) :
  descendingByDate existing →
  (∀ o, o ∈ fetched → Operation.id o ∈ Operation.id <$> existing) →
  mergeOps existing fetched = existing.
Proof.
  intros Hsorted Hknown. unfold mergeOps.
  rewrite (filter_none _ fetched) by (intros o Ho Hn; apply Hn; by apply Hknown).
  rewrite app_nil_r. apply Array_sort_of_Sorted.
  eapply Sorted_weaken; [|exact Hsorted].
  unfold byDateDesc. intros a b; simpl. lia.
Qed.

Lemma mergeOps_nothing_new_witness :
  mergeOps [sampleOp "acc-B-IN" "B" 2000 (Some 2); sampleOp "acc-A-IN" "A" 1000 (Some 1)]
           [sampleOp "acc-A-IN" "A" 1000 (Some 1)]
  = [sampleOp "acc-B-IN" "B" 2000 (Some 2); sampleOp "acc-A-IN" "A" 1000 (Some 1)].
Proof.
  apply mergeOps_nothing_new.
  - unfold descendingByDate. repeat constructor. simpl. lia.
  - intros o Ho. apply list_elem_of_singleton in Ho. subst o. simpl. right. left.
Defined.

Lemma list_ascii_of_string_app (s1 s2 : string) :
  String.list_ascii_of_string (s1 +:+ s2)
  = String.list_ascii_of_string s1 ++ String.list_ascii_of_string s2.
Proof. induction s1 as [|c s1 IH]; simpl; [done|]. by rewrite IH. Qed.

Lemma list_ascii_of_string_inj (s1 s2 : string) :
  String.list_ascii_of_string s1 = String.list_ascii_of_string s2 → s1 = s2.
Proof.
  intros H. rewrite <- (String.string_of_list_ascii_of_string s1),
    <- (String.string_of_list_ascii_of_string s2). by rewrite H.
Qed.

(** The suffix [-IN] or [-OUT] of an operation id determines the hash
    before it. *)
Lemma operation_id_suffix_inj (h1 h2 : string) (ty1 ty2 : OperationType) :
  h1 +:+ "-" +:+ OperationType_toString ty1 = h2 +:+ "-" +:+ OperationType_toString ty2 →
  h1 = h2 ∧ ty1 = ty2.
Proof.
  intros Heq. apply (f_equal String.list_ascii_of_string) in Heq.
  rewrite !list_ascii_of_string_app in Heq.
  destruct ty1, ty2; cbn [OperationType_toString] in Heq.
  - apply app_inj_2 in Heq as [Heq _]; [|done].
    split; [by apply list_ascii_of_string_inj|done].
  - exfalso. rewrite (app_assoc (String.list_ascii_of_string h2)) in Heq.
    apply app_inj_2 in Heq as [_ Heq]; [discriminate|done].
  - exfalso. rewrite (app_assoc (String.list_ascii_of_string h1)) in Heq.
    apply app_inj_2 in Heq as [_ Heq]; [discriminate|done].
  - apply app_inj_2 in Heq as [Heq _]; [|done].
    split; [by apply list_ascii_of_string_inj|done].
Qed.

Lemma txToOperation_id_inj (env : RippleEnv) (account : Account.t) (tx1 tx2 : Tx.t) :
  Operation.id (txToOperation env account tx1)
  = Operation.id (txToOperation env account tx2) →
  Tx.id tx1 = Tx.id tx2.
Proof.
  unfold txToOperation. cbv zeta. cbn [Operation.id]. intros Heq.
  apply (inj (String.app (Account.id account))) in Heq.
  apply (inj (String.app "-")) in Heq.
  by apply operation_id_suffix_inj in Heq as [? _].
Qed.

(** X9. Operations made from remote transactions of one account have the same
    id only if the transactions have the same id: a fetched batch whose
    transaction ids are pairwise distinct gives operations with pairwise
    distinct ids. *)
Theorem txToOperation_unique_ids (env : RippleEnv) (account : Account.t)
    (transactions : list Tx.t) :
  NoDup (Tx.id <$> transactions) →
  uniqueIds (txToOperation env account <$> transactions).
Proof.
  unfold uniqueIds. induction transactions as [|tx txs IH]; simpl; [constructor|].
  intros [Hnotin Hnodup]%NoDup_cons. apply NoDup_cons. split; [|by apply IH].
  intros Hin. apply Hnotin.
  apply list_elem_of_fmap in Hin as (op & Hid & Hop).
  apply list_elem_of_fmap in Hop as (tx' & -> & Htx').
  apply txToOperation_id_inj in Hid. rewrite Hid.
  apply list_elem_of_fmap. by exists tx'.
Qed.

Lemma txToOperation_unique_ids_witness :
  uniqueIds (txToOperation sampleEnv (sampleAccount "ripple" [] [])
               <$> [sampleTx "H1" "rOther" 4; sampleTx "H2" "rMine" 9]).
Proof.
  apply txToOperation_unique_ids.
  apply (bool_decide_unpack _). vm_compute. exact I.
Defined.

(** ** The sync update *)

Lemma txToOperation_account_ext (env : RippleEnv) (a a' : Account.t) (tx : Tx.t) :
  Account.id a' = Account.id a →
  Account.freshAddress a' = Account.freshAddress a →
  txToOperation env a' tx = txToOperation env a tx.
Proof. intros Hid Haddr. unfold txToOperation. by rewrite Hid, Haddr. Qed.

Lemma mergeOps_absorbs (existing fetched : list Operation.t) :
  mergeOps (mergeOps existing fetched) fetched = mergeOps existing fetched.
Proof.
  unfold mergeOps at 1.
  rewrite (filter_none _ fetched)
    by (intros o Ho Hn; apply Hn; by apply mergeOps_covers_fetched).
  rewrite app_nil_r. apply Array_sort_of_Sorted.
  eapply Sorted_weaken; [|apply mergeOps_descending].
  unfold byDateDesc. intros a b; simpl. lia.
Qed.

Lemma List_filter_idem {A} (f : A → bool) (l : list A) :
  List.filter f (List.filter f l) = List.filter f l.
Proof.
  induction l as [|x l IH]; simpl; [done|].
  destruct (f x) eqn:Hfx; simpl; [|done]. by rewrite Hfx, IH.
Qed.

(** X10. Applying the same sync update a second time changes nothing but the
    sync date: the update of the account already updated is the update of
    the original account. *)
Theorem syncUpdate_reapplied (env : RippleEnv) (transactions : list Tx.t)
    (balance : BigNumber.t) (maxLedgerVersion now1 now2 : Z) (a : Account.t) :
  syncUpdate env transactions balance maxLedgerVersion now2
    (syncUpdate env transactions balance maxLedgerVersion now1 a)
  = syncUpdate env transactions balance maxLedgerVersion now2 a.
Proof.
  unfold syncUpdate at 1 3. cbn [Account.type Account.id Account.seedIdentifier
    Account.derivationMode Account.name Account.freshAddress Account.freshAddressPath
    Account.freshAddresses Account.index Account.currency Account.unit Account.archived
    Account.endpointConfig].
  assert (Hops : mergeOps
                   (Account.operations
                      (syncUpdate env transactions balance maxLedgerVersion now1 a))
                   (txToOperation env
                      (syncUpdate env transactions balance maxLedgerVersion now1 a)
                      <$> transactions)
                 = mergeOps (Account.operations a) (txToOperation env a <$> transactions)).
  { replace (txToOperation env
               (syncUpdate env transactions balance maxLedgerVersion now1 a)
               <$> transactions)
      with (txToOperation env a <$> transactions)
      by (apply list_fmap_ext; intros ? tx _; symmetry;
          by apply txToOperation_account_ext).
    apply mergeOps_absorbs. }
  rewrite Hops. f_equal. cbn [Account.pendingOperations syncUpdate].
  apply List_filter_idem.
Qed.

(** X11. What a sync update keeps: the merged operations are in descending
    order and contain every operation the account had; no pending
    operation is added and the pending operations kept stay in order; and
    no pending operation that is kept has the hash of a confirmed
    operation. *)
Theorem syncUpdate_invariants (env : RippleEnv) (transactions : list Tx.t)
    (balance : BigNumber.t) (maxLedgerVersion now : Z) (a : Account.t) :
  let a' := syncUpdate env transactions balance maxLedgerVersion now a in
  descendingByDate (Account.operations a')
  ∧ (∀ op, op ∈ Account.operations a → op ∈ Account.operations a')
  ∧ Account.pendingOperations a' `sublist_of` Account.pendingOperations a
  ∧ (∀ p op, p ∈ Account.pendingOperations a' → op ∈ Account.operations a' →
             Operation.hash p ≠ Operation.hash op).
Proof.
  intros a'. split; [apply mergeOps_descending|]. split; [|split].
  - intros op Hop. unfold a'. cbn [Account.operations syncUpdate].
    rewrite mergeOps_Permutation. apply elem_of_app. by left.
  - unfold a'. cbn [Account.pendingOperations syncUpdate].
    generalize (keepPending
                  (mergeOps (Account.operations a) (txToOperation env a <$> transactions))).
    intros keep. induction (Account.pendingOperations a) as [|p l IH]; simpl; [done|].
    destruct (keep p); [by apply sublist_skip|by apply sublist_cons].
  - intros p op Hp Hop Hhash. apply syncUpdate_pending in Hp as [_ Hkeep].
    fold a' in Hkeep. unfold keepPending in Hkeep.
    apply andb_true_iff in Hkeep as [Hnone _]. apply negb_true_iff in Hnone.
    apply not_true_iff_false in Hnone. apply Hnone, existsb_hash_spec.
    by exists op.
Qed.

Lemma syncUpdate_invariants_witness :
  Operation.hash samplePending ≠ Operation.hash (sampleOp "acc-A-OUT" "A" 2000 (Some 4)).
Proof.
  apply (proj2 (proj2 (proj2 (syncUpdate_invariants sampleEnv [] (BigNumber.Fin 1000) 200
           4000 (sampleAccount "ripple" [sampleOp "acc-A-OUT" "A" 2000 (Some 4)]
                   [samplePending]))))).
  - apply syncUpdate_pending. split; [simpl; left|]. vm_compute. reflexivity.
  - change (sampleOp "acc-A-OUT" "A" 2000 (Some 4)
            ∈ [sampleOp "acc-A-OUT" "A" 2000 (Some 4)]). left.
Defined.

(** X12. Confirmation removes a pending operation: when a fetched transaction
    has the hash of a pending operation, and the operation made from it is
    not already among the account's operations, the sync update drops that
    pending operation, whatever the sequence numbers. *)
Theorem syncUpdate_confirms_pending (env : RippleEnv) (transactions : list Tx.t)
    (balance : BigNumber.t) (maxLedgerVersion now : Z) (a : Account.t)
    (p : Operation.t) (tx : Tx.t) :
  tx ∈ transactions →
  Tx.id tx = Operation.hash p →
  Operation.id (txToOperation env a tx) ∉ Operation.id <$> Account.operations a →
  txToOperation env a tx
    ∈ Account.operations (syncUpdate env transactions balance maxLedgerVersion now a)
  ∧ p ∉ Account.pendingOperations
          (syncUpdate env transactions balance maxLedgerVersion now a).
Proof.
  intros Htx Hhash Hnew.
  assert (Hin : txToOperation env a tx
                ∈ Account.operations
                    (syncUpdate env transactions balance maxLedgerVersion now a)).
  { cbn [Account.operations syncUpdate]. rewrite mergeOps_Permutation.
    apply elem_of_app. right. apply list_elem_of_filter. split; [done|].
    apply list_elem_of_fmap. by exists tx. }
  split; [exact Hin|].
  intros [_ Hkeep]%syncUpdate_pending. unfold keepPending in Hkeep.
  apply andb_true_iff in Hkeep as [Hnone _]. apply negb_true_iff in Hnone.
  apply not_true_iff_false in Hnone. apply Hnone, existsb_hash_spec.
  exists (txToOperation env a tx). split; [exact Hin|]. by rewrite <- Hhash.
Qed.

Lemma syncUpdate_confirms_pending_witness :
  samplePending
  ∉ Account.pendingOperations
      (syncUpdate sampleEnv [sampleTx "P" "rMine" 9] (BigNumber.Fin 1000) 200 4000
         (sampleAccount "ripple" [sampleOp "acc-A-OUT" "A" 2000 (Some 4)] [samplePending])).
Proof.
  apply (syncUpdate_confirms_pending sampleEnv [sampleTx "P" "rMine" 9]
           (BigNumber.Fin 1000) 200 4000
           (sampleAccount "ripple" [sampleOp "acc-A-OUT" "A" 2000 (Some 4)] [samplePending])
           samplePending (sampleTx "P" "rMine" 9)).
  - left.
  - reflexivity.
  - apply (bool_decide_unpack _). vm_compute. exact I.
Defined.

(** ** [startSync] *)

(** X13. The observable of [startSync] follows a protocol: whatever the
    collaborators answer, it emits nothing at all (the subscriber left),
    or a single error, or one update followed by completion.  An update
    is never followed or preceded by an error. *)
Theorem startSync_protocol (env : RippleEnv) (finished : nat → bool) (a : Account.t) :
  startSync env finished a = []
  ∨ (∃ e, startSync env finished a = [SyncError e])
  ∨ (∃ update, startSync env finished a = [SyncNext update; SyncComplete]).
Proof.
  unfold startSync, startSync_main, initialWorld. cbv zeta.
  set (api := apiForEndpointConfig env (Account.endpointConfig a)).
  unfold getAccountInfo_orNotFound. run_async.
  destruct (connect api) as [[]|e]; simpl; [|right; left; by eexists].
  destruct (finished 0%nat); simpl; [by left|].
  destruct (getServerInfo env (Account.endpointConfig a)) as [serverInfo|e]; simpl;
    [|right; left; by eexists].
  destruct (finished 1%nat); simpl; [by left|].
  destruct (getAccountInfo api (Account.freshAddress a)) as [info|e]; simpl.
  - destruct (finished 2%nat); simpl; [by left|].
    destruct (negb (BigNumber.isNaN _) && BigNumber.isFinite _); simpl;
      [|right; left; by eexists].
    destruct (getTransactions api _ _ _) as [transactions|e]; simpl;
      [|right; left; by eexists].
    destruct (finished 3%nat); simpl; [by left|]. right; right. by eexists.
  - case_bool_decide; simpl; [right; left; by eexists|].
    destruct (finished 2%nat); simpl; [by left|]. right; right. by eexists.
Qed.

(** X14. The incremental fetch.  For an account that exists on the ledger and
    whose balance is a number, [startSync] asks for the transactions from
    the account's [blockHeight] (from 0 when the account has no operation)
    or from the oldest ledger the server has, whichever is greater, up to
    the newest ledger of the server, and emits the update built from the
    answer, followed by completion.  It never asks below the oldest ledger
    of the server. *)
Theorem startSync_fetches_increment (env : RippleEnv) (finished : nat → bool)
    (a : Account.t) (serverInfo : ServerInfo.t) (info : AccountInfo.t)
    (balance : Z) (transactions : list Tx.t) :
  let api := apiForEndpointConfig env (Account.endpointConfig a) in
  let lower :=
    Z.max (if bool_decide (Account.operations a = []) then 0 else Account.blockHeight a)
          (ServerInfo.minLedgerVersion serverInfo) in
  connect api = Ok () →
  getServerInfo env (Account.endpointConfig a) = Ok serverInfo →
  getAccountInfo api (Account.freshAddress a) = Ok info →
  parseAPIValue env (AccountInfo.xrpBalance info) = BigNumber.Fin balance →
  getTransactions api (Account.freshAddress a) lower
    (ServerInfo.maxLedgerVersion serverInfo) = Ok transactions →
  (∀ n, (n < 4)%nat → finished n = false) →
  startSync env finished a
  = [SyncNext (syncUpdate env transactions (BigNumber.Fin balance)
                 (ServerInfo.maxLedgerVersion serverInfo));
     SyncComplete]
  ∧ ServerInfo.minLedgerVersion serverInfo ≤ lower.
Proof.
  intros api lower Hconnect Hserver Hinfo Hbalance Htransactions Hfinished.
  split; [|unfold lower; lia].
  unfold startSync, startSync_main, initialWorld. cbv zeta. fold api.
  unfold getAccountInfo_orNotFound. run_async.
  rewrite Hconnect. simpl. rewrite Hfinished by lia. rewrite Hserver. simpl.
  rewrite Hfinished by lia. rewrite Hinfo. simpl. rewrite Hfinished by lia.
  rewrite Hbalance. simpl.
  replace (bool_decide (length (Account.operations a) = 0%nat))
    with (bool_decide (Account.operations a = []))
    by (apply bool_decide_ext; by rewrite length_zero_iff_nil).
  fold lower. rewrite Htransactions. simpl. rewrite Hfinished by lia. reflexivity.
Qed.

Lemma startSync_fetches_increment_witness :
  startSync sampleEnv neverFinished (sampleExistingAccount [] [])
  = [SyncNext (syncUpdate sampleEnv [] (BigNumber.Fin 20) 200); SyncComplete]
  ∧ 100 ≤ Z.max 0 100.
Proof.
  exact (startSync_fetches_increment sampleEnv neverFinished (sampleExistingAccount [] [])
           (ServerInfo.mk 100 200 "20" "0.00001") (AccountInfo.mk "1000") 20 []
           eq_refl eq_refl eq_refl eq_refl eq_refl (λ _ _, eq_refl)).
Defined.

(** X15. A balance that is not a number is fatal: no update is emitted, the
    observable fails with the invariant violation. *)
Theorem startSync_invalid_balance (env : RippleEnv) (finished : nat → bool)
    (a : Account.t) (serverInfo : ServerInfo.t) (info : AccountInfo.t) :
  let api := apiForEndpointConfig env (Account.endpointConfig a) in
  connect api = Ok () →
  getServerInfo env (Account.endpointConfig a) = Ok serverInfo →
  getAccountInfo api (Account.freshAddress a) = Ok info →
  parseAPIValue env (AccountInfo.xrpBalance info) = BigNumber.NaN →
  (∀ n, (n < 3)%nat → finished n = false) →
  startSync env finished a
  = [SyncError
       (remapError
          (InvariantViolation
             ("Ripple: invalid balance=NaN for address " +:+ Account.freshAddress a)))].
Proof.
  intros api Hconnect Hserver Hinfo Hbalance Hfinished.
  unfold startSync, startSync_main, initialWorld. cbv zeta. fold api.
  unfold getAccountInfo_orNotFound. run_async.
  rewrite Hconnect. simpl. rewrite Hfinished by lia. rewrite Hserver. simpl.
  rewrite Hfinished by lia. rewrite Hinfo. simpl. rewrite Hfinished by lia.
  rewrite Hbalance. reflexivity.
Qed.

(** Once the subscriber has left, [startSync] emits no update: it stops at
    its first checkpoint, right after connecting; only a failure of the
    connection itself is still reported. *)
Theorem startSync_unsubscribed (env : RippleEnv) (finished : nat → bool) (a : Account.t) :
  finished 0%nat = true →
  startSync env finished a
  = match connect (apiForEndpointConfig env (Account.endpointConfig a)) with
    | Ok _ => []
    | Throws e => [SyncError (remapError e)]
    end.
Proof.
  intros Hfinished. unfold startSync, startSync_main, initialWorld. cbv zeta.
  run_async. destruct (connect _) as [[]|e]; simpl; [|reflexivity].
  rewrite Hfinished. reflexivity.
Qed.

Lemma startSync_unsubscribed_witness :
  startSync sampleEnv (λ _, true) (sampleExistingAccount [] []) = [].
Proof.
  exact (startSync_unsubscribed sampleEnv (λ _, true) (sampleExistingAccount [] [])
           eq_refl).
Defined.

Lemma startSync_invalid_balance_witness :
  startSync sampleEnvNaN neverFinished (sampleExistingAccount [] [])
  = [SyncError
       (remapError
          (InvariantViolation ("Ripple: invalid balance=NaN for address " +:+ "rExisting")))].
Proof.
  exact (startSync_invalid_balance sampleEnvNaN neverFinished (sampleExistingAccount [] [])
           (ServerInfo.mk 100 200 "20" "0.00001") (AccountInfo.mk "1000")
           eq_refl eq_refl eq_refl eq_refl (λ _ _, eq_refl)).
Defined.

(** ** [scanAccountsOnDevice] *)

Section ExtendsLog.
Context {E : Type} (P : E → Prop).

Lemma extendsLog_ret {A} (a : A) : extendsLog P (mret a : Async E A).
Proof. intros w. exists []. by rewrite app_nil_r. Qed.

Lemma extendsLog_tell (x : E) : P x → extendsLog P (tell x).
Proof. intros Hx w. exists [x]. split; [done|by constructor]. Qed.

Lemma extendsLog_bind {A B} (m : Async E A) (k : A → Async E B) :
  extendsLog P m → (∀ a, extendsLog P (k a)) → extendsLog P (m ≫= k).
Proof.
  intros Hm Hk w. destruct (Hm w) as (ext1 & Hlog1 & HP1).
  unfold mbind, Async_bind, bind.
  destruct (m w) as [a w1|e w1|w1]; simpl in *; [|by eauto|by eauto].
  destruct (Hk a w1) as (ext2 & Hlog2 & HP2).
  exists (ext1 ++ ext2). rewrite Hlog2, Hlog1, app_assoc. split; [done|].
  by apply Forall_app.
Qed.
End ExtendsLog.

(** Closes a leaf of a run: the steps added to the log satisfy [P]. *)
Ltac close_extension :=
  simpl;
  first
    [ by (exists []; rewrite app_nil_r; split; [reflexivity|constructor])
    | eexists; split;
      [rewrite <- ?app_assoc; reflexivity
      |repeat (constructor; eauto)] ].

(** The steps of one iteration of the scan. *)
Lemma scanIndex_steps (P : ScanStep → Prop) env senv finished currency api
    minLedgerVersion maxLedgerVersion derivationMode derivationScheme index :
  (derivationModeSupportsIndex senv derivationMode index = true →
   P (Call_getAddress derivationMode index
        (runDerivationScheme senv derivationScheme currency index))) →
  (∀ address, P (Call_getAccountInfo address)) →
  (∀ address, P (Call_getTransactions address)) →
  (∀ account,
     BigNumber.isNaN (Account.balance account) = false →
     Account.pendingOperations account = [] →
     Account.derivationMode account = derivationMode →
     Account.index account = index →
     Account.blockHeight account = maxLedgerVersion →
     P (Next_discovered account)) →
  extendsLog P
    (scanIndex env senv finished currency api minLedgerVersion maxLedgerVersion
       derivationMode derivationScheme index).
Proof.
  intros Hprobe Hinfo Htxs Haccount w. unfold scanIndex.
  destruct (derivationModeSupportsIndex senv derivationMode index); simpl negb; cbv iota;
    [|close_extension].
  specialize (Hprobe eq_refl).
  unfold getAccountInfo_orNotFound, newDate. run_async.
  destruct (getAddress senv currency _ derivationMode) as [address|e]; simpl;
    [|close_extension].
  destruct (finished (polls w)); simpl; [close_extension|].
  destruct (getAccountInfo api address) as [info|e]; simpl.
  - destruct (finished (S (polls w))); simpl; [close_extension|].
    destruct (parseAPIValue env (AccountInfo.xrpBalance info)) as [|balance] eqn:Hbalance;
      simpl; [close_extension|].
    destruct (getTransactions api address minLedgerVersion maxLedgerVersion)
      as [transactions|e]; simpl; [|close_extension].
    destruct (finished (S (S (polls w)))); simpl; [close_extension|].
    close_extension.
  - case_bool_decide; simpl; [close_extension|].
    case_bool_decide; simpl; close_extension.
Qed.

Lemma scanIndices_steps (P : ScanStep → Prop) env senv finished currency api
    minLedgerVersion maxLedgerVersion derivationMode derivationScheme remaining :
  ∀ index,
    (∀ i, (index ≤ i < index + remaining)%nat →
          derivationModeSupportsIndex senv derivationMode i = true →
          P (Call_getAddress derivationMode i
               (runDerivationScheme senv derivationScheme currency i))) →
    (∀ address, P (Call_getAccountInfo address)) →
    (∀ address, P (Call_getTransactions address)) →
    (∀ account,
       BigNumber.isNaN (Account.balance account) = false →
       Account.pendingOperations account = [] →
       Account.derivationMode account = derivationMode →
       (index ≤ Account.index account < index + remaining)%nat →
       Account.blockHeight account = maxLedgerVersion →
       P (Next_discovered account)) →
    extendsLog P
      (scanIndices env senv finished currency api minLedgerVersion maxLedgerVersion
         derivationMode derivationScheme remaining index).
Proof.
  induction remaining as [|remaining IH]; intros index Hprobe Hinfo Htxs Haccount;
    simpl; [apply extendsLog_ret|].
  apply extendsLog_bind.
  - apply scanIndex_steps; auto.
    + intros Hsupports. apply Hprobe; [lia|done].
    + intros account ? ? ? Hindex ?. apply Haccount; auto. lia.
  - intros [|]; [|apply extendsLog_ret].
    apply IH; auto.
    + intros i Hi. apply Hprobe. lia.
    + intros account ? ? ? Hindex ?. apply Haccount; auto. lia.
Qed.

(** The steps of the scan of all the derivation modes.  [stopAt] is the
    bound of the inner loop. *)
Lemma scanDerivationModes_steps (P : ScanStep → Prop) env senv finished currency api
    minLedgerVersion maxLedgerVersion derivationModes :
  (∀ derivationMode i,
     derivationMode ∈ derivationModes →
     (i < (if isIterableDerivationMode senv derivationMode then 255 else 1))%nat →
     derivationModeSupportsIndex senv derivationMode i = true →
     P (Call_getAddress derivationMode i
          (runDerivationScheme senv (getDerivationScheme senv derivationMode currency)
             currency i))) →
  (∀ address, P (Call_getAccountInfo address)) →
  (∀ address, P (Call_getTransactions address)) →
  (∀ account,
     BigNumber.isNaN (Account.balance account) = false →
     Account.pendingOperations account = [] →
     Account.derivationMode account ∈ derivationModes →
     (Account.index account
      < (if isIterableDerivationMode senv (Account.derivationMode account)
         then 255 else 1))%nat →
     Account.blockHeight account = maxLedgerVersion →
     P (Next_discovered account)) →
  extendsLog P
    (scanDerivationModes env senv finished currency api minLedgerVersion
       maxLedgerVersion derivationModes).
Proof.
  induction derivationModes as [|derivationMode rest IH];
    intros Hprobe Hinfo Htxs Haccount; simpl; [apply extendsLog_ret|].
  apply extendsLog_bind.
  - unfold scanDerivationMode. apply scanIndices_steps; auto.
    + intros i Hi. apply Hprobe; [left|lia].
    + intros account ? ? Hmode Hindex ?. apply Haccount; auto.
      * rewrite Hmode. left.
      * rewrite Hmode. lia.
  - intros _. apply IH; auto.
    + intros mode i Hmode. apply Hprobe. by right.
    + intros account ? ? Hmode. apply Haccount; auto. by right.
Qed.

(** The steps of the whole scan before its terminal event. *)
Lemma scanAccountsOnDevice_steps (P : ScanStep → Prop) env senv finished currency deviceId :
  (∀ derivationMode i,
     derivationMode ∈ getDerivationModesForCurrency senv currency →
     (i < (if isIterableDerivationMode senv derivationMode then 255 else 1))%nat →
     derivationModeSupportsIndex senv derivationMode i = true →
     P (Call_getAddress derivationMode i
          (runDerivationScheme senv (getDerivationScheme senv derivationMode currency)
             currency i))) →
  (∀ address, P (Call_getAccountInfo address)) →
  (∀ address, P (Call_getTransactions address)) →
  (∀ account,
     BigNumber.isNaN (Account.balance account) = false →
     Account.pendingOperations account = [] →
     Account.derivationMode account ∈ getDerivationModesForCurrency senv currency →
     (Account.index account
      < (if isIterableDerivationMode senv (Account.derivationMode account)
         then 255 else 1))%nat →
     P (Next_discovered account)) →
  ∃ body,
    Forall P body
    ∧ (scanAccountsOnDevice env senv finished currency deviceId = body
       ∨ scanAccountsOnDevice env senv finished currency deviceId = body ++ [Scan_complete]
       ∨ ∃ e, scanAccountsOnDevice env senv finished currency deviceId
              = body ++ [Scan_error e]).
Proof.
  intros Hprobe Hinfo Htxs Haccount.
  unfold scanAccountsOnDevice, scanAccountsOnDevice_main, initialWorld. cbv zeta.
  run_async.
  destruct (open senv deviceId) as [[]|e]; simpl;
    [|exists []; split; [constructor|right; right; by exists e]].
  destruct (connect (apiForEndpointConfig env None)) as [[]|e]; simpl;
    [|exists []; split; [constructor|right; right; by exists e]].
  destruct (getServerInfo env None) as [serverInfo|e]; simpl;
    [|exists []; split; [constructor|right; right; by exists e]].
  destruct (scanDerivationModes_steps P env senv finished currency
              (apiForEndpointConfig env None)
              (ServerInfo.minLedgerVersion serverInfo)
              (ServerInfo.maxLedgerVersion serverInfo)
              (getDerivationModesForCurrency senv currency)
              Hprobe Hinfo Htxs ltac:(auto) (mkWorld 0 []))
    as (body & Hlog & HP).
  exists body. split; [exact HP|].
  destruct (scanDerivationModes _ _ _ _ _ _ _ _ _) as [[] w1|e w1|w1];
    simpl in Hlog |- *; rewrite Hlog.
  - right; left. reflexivity.
  - right; right. by exists e.
  - by left.
Qed.

(** X16. The scan follows a protocol: its log is a sequence of probes and
    discovered accounts, followed by nothing (the subscriber left), by
    the completion, or by exactly one error.  Nothing is emitted after the
    completion or after an error. *)
Theorem scanAccountsOnDevice_protocol (env : RippleEnv) (senv : ScanEnv)
    (finished : nat → bool) (currency : Currency.t) (deviceId : string) :
  ∃ body,
    Forall nonTerminal body
    ∧ (scanAccountsOnDevice env senv finished currency deviceId = body
       ∨ scanAccountsOnDevice env senv finished currency deviceId = body ++ [Scan_complete]
       ∨ ∃ e, scanAccountsOnDevice env senv finished currency deviceId
              = body ++ [Scan_error e]).
Proof. apply scanAccountsOnDevice_steps; done. Qed.

Lemma elem_of_scan_body (P : ScanStep → Prop) (body scan : list ScanStep) (s : ScanStep) :
  nonTerminal s →
  Forall P body →
  scan = body ∨ scan = body ++ [Scan_complete] ∨ (∃ e, scan = body ++ [Scan_error e]) →
  s ∈ scan → P s.
Proof.
  intros Hs HP Hscan Hin. rewrite Forall_forall in HP. apply HP.
  destruct Hscan as [->|[->|[e ->]]]; [done| |];
    apply elem_of_app in Hin as [?|Hin]; try done;
    apply list_elem_of_singleton in Hin; subst s; destruct Hs.
Qed.

(** X17. Bounds of the probes.  Every address requested from the device
    belongs to a derivation mode of the currency, at an index that the
    mode supports and that is below 255, and is index 0 when the mode is
    not iterable; the path requested is the derivation scheme of the mode
    run at that index. *)
Theorem scanAccountsOnDevice_probe_bounds (env : RippleEnv) (senv : ScanEnv)
    (finished : nat → bool) (currency : Currency.t) (deviceId : string)
    (derivationMode : string) (index : nat) (path : string) :
  Call_getAddress derivationMode index path
    ∈ scanAccountsOnDevice env senv finished currency deviceId →
  derivationMode ∈ getDerivationModesForCurrency senv currency
  ∧ (index < 255)%nat
  ∧ (isIterableDerivationMode senv derivationMode = false → index = 0%nat)
  ∧ derivationModeSupportsIndex senv derivationMode index = true
  ∧ path = runDerivationScheme senv (getDerivationScheme senv derivationMode currency)
             currency index.
Proof.
  intros Hin.
  set (P := λ s : ScanStep,
         ∀ m i p, s = Call_getAddress m i p →
           m ∈ getDerivationModesForCurrency senv currency
           ∧ (i < 255)%nat
           ∧ (isIterableDerivationMode senv m = false → i = 0%nat)
           ∧ derivationModeSupportsIndex senv m i = true
           ∧ p = runDerivationScheme senv (getDerivationScheme senv m currency) currency i).
  destruct (scanAccountsOnDevice_steps P env senv finished currency deviceId)
    as (body & HP & Hscan); try (by intros; intros ? ? ? [=]).
  - intros m i Hm Hi Hsupports m' i' p' [= <- <- <-].
    split; [done|]. destruct (isIterableDerivationMode senv m); repeat split; auto; lia.
  - exact (elem_of_scan_body P body _ (Call_getAddress derivationMode index path)
             I HP Hscan Hin _ _ _ eq_refl).
Qed.

(** X18. What is emitted.  Every account emitted by the scan has a balance
    that is a number, no pending operation, a derivation mode of the
    currency and an index below 255 (index 0 for a mode that is not
    iterable). *)
Theorem scanAccountsOnDevice_emitted_accounts (env : RippleEnv) (senv : ScanEnv)
    (finished : nat → bool) (currency : Currency.t) (deviceId : string)
    (account : Account.t) :
  Next_discovered account ∈ scanAccountsOnDevice env senv finished currency deviceId →
  BigNumber.isNaN (Account.balance account) = false
  ∧ Account.pendingOperations account = []
  ∧ Account.derivationMode account ∈ getDerivationModesForCurrency senv currency
  ∧ (Account.index account < 255)%nat
  ∧ (isIterableDerivationMode senv (Account.derivationMode account) = false →
     Account.index account = 0%nat).
Proof.
  intros Hin.
  set (P := λ s : ScanStep,
         ∀ acc, s = Next_discovered acc →
           BigNumber.isNaN (Account.balance acc) = false
           ∧ Account.pendingOperations acc = []
           ∧ Account.derivationMode acc ∈ getDerivationModesForCurrency senv currency
           ∧ (Account.index acc < 255)%nat
           ∧ (isIterableDerivationMode senv (Account.derivationMode acc) = false →
              Account.index acc = 0%nat)).
  destruct (scanAccountsOnDevice_steps P env senv finished currency deviceId)
    as (body & HP & Hscan); try (by intros; intros ? [=]).
  - intros acc Hnan Hpending Hmode Hindex acc' [= <-].
    destruct (isIterableDerivationMode senv (Account.derivationMode acc));
      repeat split; auto; lia.
  - exact (elem_of_scan_body P body _ (Next_discovered account)
             I HP Hscan Hin _ eq_refl).
Qed.

Lemma scanAccountsOnDevice_probe_bounds_witness :
  "" ∈ getDerivationModesForCurrency sampleScanEnv (sampleCurrency "ripple")
  ∧ (0 < 255)%nat
  ∧ (isIterableDerivationMode sampleScanEnv "" = false → 0%nat = 0%nat)
  ∧ derivationModeSupportsIndex sampleScanEnv "" 0 = true
  ∧ "44'/144'/0'/0/0"
    = runDerivationScheme sampleScanEnv
        (getDerivationScheme sampleScanEnv "" (sampleCurrency "ripple"))
        (sampleCurrency "ripple") 0.
Proof.
  apply (scanAccountsOnDevice_probe_bounds sampleEnv sampleScanEnv neverFinished
           (sampleCurrency "ripple") "device" "" 0 "44'/144'/0'/0/0").
  change (Call_getAddress "" 0 "44'/144'/0'/0/0"
          ∈ Call_getAddress "" 0 "44'/144'/0'/0/0"
            :: tail (scanAccountsOnDevice sampleEnv sampleScanEnv neverFinished
                       (sampleCurrency "ripple") "device")).
  left.
Defined.

Lemma scanAccountsOnDevice_emitted_accounts_witness :
  BigNumber.isNaN
    (Account.balance
       (newAccountPlaceholder sampleScanEnv (sampleCurrency "ripple") "" 0
          "ripplejs:2:ripple:rNew:" "rNew" "44'/144'/0'/0/0" 200 5000)) = false.
Proof.
  apply (scanAccountsOnDevice_emitted_accounts sampleEnv sampleScanEnv neverFinished
           (sampleCurrency "ripple") "device"
           (newAccountPlaceholder sampleScanEnv (sampleCurrency "ripple") "" 0
              "ripplejs:2:ripple:rNew:" "rNew" "44'/144'/0'/0/0" 200 5000)).
  change (Next_discovered
            (newAccountPlaceholder sampleScanEnv (sampleCurrency "ripple") "" 0
               "ripplejs:2:ripple:rNew:" "rNew" "44'/144'/0'/0/0" 200 5000)
          ∈ [Call_getAddress "" 0 "44'/144'/0'/0/0";
             Call_getAccountInfo "rNew";
             Next_discovered
               (newAccountPlaceholder sampleScanEnv (sampleCurrency "ripple") "" 0
                  "ripplejs:2:ripple:rNew:" "rNew" "44'/144'/0'/0/0" 200 5000);
             Call_getAddress "legacy" 0 "44'/144'/0'/0/0";
             Call_getAccountInfo "rNew";
             Scan_complete]).
  right; right; left.
Defined.

(** X19. An address that exists on the ledger, with a balance that is a
    number, is emitted as a discovered account carrying the operations
    made from its transactions (fetched over the whole range of ledgers
    the server has), and the scan goes on with the next index of the
    mode. *)
Theorem scan_existing_account_continues (env : RippleEnv) (senv : ScanEnv)
    (finished : nat → bool) (currency : Currency.t) (api : RippleAPI)
    (minLedgerVersion maxLedgerVersion : Z) (derivationMode : string)
    (remaining index : nat) (w : World ScanStep) (address : string)
    (info : AccountInfo.t) (balance : Z) (transactions : list Tx.t) :
  let derivationScheme := getDerivationScheme senv derivationMode currency in
  let path := runDerivationScheme senv derivationScheme currency index in
  derivationModeSupportsIndex senv derivationMode index = true →
  getAddress senv currency path derivationMode = Ok address →
  getAccountInfo api address = Ok info →
  parseAPIValue env (AccountInfo.xrpBalance info) = BigNumber.Fin balance →
  getTransactions api address minLedgerVersion maxLedgerVersion = Ok transactions →
  (∀ n, (polls w ≤ n < polls w + 3)%nat → finished n = false) →
  scanIndices env senv finished currency api minLedgerVersion maxLedgerVersion
    derivationMode derivationScheme (S remaining) index w
  = scanIndices env senv finished currency api minLedgerVersion maxLedgerVersion
      derivationMode derivationScheme remaining (S index)
      (mkWorld (3 + polls w)
         (log w ++ [Call_getAddress derivationMode index path;
                    Call_getAccountInfo address;
                    Call_getTransactions address;
                    Next_discovered
                      (discoveredAccount env senv currency derivationMode index address
                         path (BigNumber.Fin balance) maxLedgerVersion
                         (Date_now senv (3 + polls w)) transactions)])).
Proof.
  intros derivationScheme path Hsupports Haddress Hinfo Hbalance Htransactions Hfinished.
  cbn [scanIndices]. unfold mbind at 1. unfold Async_bind, bind.
  assert (Hstep :
    scanIndex env senv finished currency api minLedgerVersion maxLedgerVersion
      derivationMode derivationScheme index w
    = Value Continue
        (mkWorld (3 + polls w)
           (log w ++ [Call_getAddress derivationMode index path;
                      Call_getAccountInfo address;
                      Call_getTransactions address;
                      Next_discovered
                        (discoveredAccount env senv currency derivationMode index address
                           path (BigNumber.Fin balance) maxLedgerVersion
                           (Date_now senv (3 + polls w)) transactions)]))).
  { unfold scanIndex. fold path. rewrite Hsupports. simpl negb. cbv iota.
    unfold getAccountInfo_orNotFound, newDate. run_async.
    rewrite Haddress. simpl. rewrite Hfinished by lia. rewrite Hinfo. simpl.
    rewrite Hfinished by lia. rewrite Hbalance. simpl. rewrite Htransactions. simpl.
    rewrite Hfinished by lia. unfold discoveredAccount. simpl.
    by rewrite <- !app_assoc. }
  by rewrite Hstep.
Qed.

Lemma scan_existing_account_continues_witness :
  scanIndices sampleEnv sampleScanEnv neverFinished (sampleCurrency "ripple") sampleBusyAPI
    100 200 "" (getDerivationScheme sampleScanEnv "" (sampleCurrency "ripple")) 1 0
    initialWorld
  = scanIndices sampleEnv sampleScanEnv neverFinished (sampleCurrency "ripple")
      sampleBusyAPI 100 200 ""
      (getDerivationScheme sampleScanEnv "" (sampleCurrency "ripple")) 0 1
      (mkWorld 3
         ([] ++ [Call_getAddress "" 0 "44'/144'/0'/0/0";
                 Call_getAccountInfo "rNew";
                 Call_getTransactions "rNew";
                 Next_discovered
                   (discoveredAccount sampleEnv sampleScanEnv (sampleCurrency "ripple") ""
                      0 "rNew" "44'/144'/0'/0/0" (BigNumber.Fin 20) 200 5000
                      [sampleTx "H1" "rOther" 4])])).
Proof.
  exact (scan_existing_account_continues sampleEnv sampleScanEnv neverFinished
           (sampleCurrency "ripple") sampleBusyAPI 100 200 "" 0 0 initialWorld "rNew"
           (AccountInfo.mk "1000") 20 [sampleTx "H1" "rOther" 4]
           eq_refl eq_refl eq_refl eq_refl eq_refl (λ _ _, eq_refl)).
Defined.

(** A step of the scan that is not an emitted account. *)
Lemma scanIndex_unsubscribed env senv finished currency api minLedgerVersion
    maxLedgerVersion derivationMode derivationScheme index :
  (∀ n, finished n = true) →
  extendsLog (λ s, ∀ account, s ≠ Next_discovered account)
    (scanIndex env senv finished currency api minLedgerVersion maxLedgerVersion
       derivationMode derivationScheme index).
Proof.
  intros Hfinished w. unfold scanIndex.
  destruct (derivationModeSupportsIndex senv derivationMode index); simpl negb; cbv iota;
    [|close_extension].
  run_async.
  destruct (getAddress senv currency _ derivationMode) as [address|e]; simpl;
    [|close_extension].
  rewrite Hfinished. close_extension.
Qed.

(** X20. After the subscriber has left, the scan emits no account at all:
    whatever the device and the ledger answer, no [discovered] event is
    in its log. *)
Theorem scanAccountsOnDevice_unsubscribed (env : RippleEnv) (senv : ScanEnv)
    (finished : nat → bool) (currency : Currency.t) (deviceId : string)
    (account : Account.t) :
  (∀ n, finished n = true) →
  Next_discovered account ∉ scanAccountsOnDevice env senv finished currency deviceId.
Proof.
  intros Hfinished.
  set (P := λ s : ScanStep, ∀ account, s ≠ Next_discovered account).
  assert (Hindices : ∀ api minV maxV mode scheme remaining index,
            extendsLog P (scanIndices env senv finished currency api minV maxV mode
                            scheme remaining index)).
  { intros api minV maxV mode scheme remaining.
    induction remaining as [|remaining IH]; intros index; simpl;
      [apply extendsLog_ret|].
    apply extendsLog_bind; [by apply scanIndex_unsubscribed|].
    intros [|]; [apply IH|apply extendsLog_ret]. }
  assert (Hmodes : ∀ api minV maxV modes,
            extendsLog P (scanDerivationModes env senv finished currency api minV maxV
                            modes)).
  { intros api minV maxV modes. induction modes as [|mode modes IH]; simpl;
      [apply extendsLog_ret|].
    apply extendsLog_bind; [apply Hindices|intros _; apply IH]. }
  unfold scanAccountsOnDevice, scanAccountsOnDevice_main, initialWorld. cbv zeta.
  run_async.
  destruct (open senv deviceId) as [[]|e]; simpl;
    [|by intros [=]%list_elem_of_singleton].
  destruct (connect (apiForEndpointConfig env None)) as [[]|e]; simpl;
    [|by intros [=]%list_elem_of_singleton].
  destruct (getServerInfo env None) as [serverInfo|e]; simpl;
    [|by intros [=]%list_elem_of_singleton].
  destruct (Hmodes (apiForEndpointConfig env None)
              (ServerInfo.minLedgerVersion serverInfo)
              (ServerInfo.maxLedgerVersion serverInfo)
              (getDerivationModesForCurrency senv currency) (mkWorld 0 []))
    as (body & Hlog & HP).
  rewrite Forall_forall in HP.
  destruct (scanDerivationModes _ _ _ _ _ _ _ _ _) as [[] w1|e w1|w1];
    simpl in Hlog |- *; rewrite Hlog; simpl.
  - intros [Hin|[=]%list_elem_of_singleton]%elem_of_app. by apply (HP _ Hin account).
  - intros [Hin|[=]%list_elem_of_singleton]%elem_of_app. by apply (HP _ Hin account).
  - intros Hin. by apply (HP _ Hin account).
Qed.

Lemma scanAccountsOnDevice_unsubscribed_witness :
  Next_discovered (sampleAccount "ripple" [] [])
  ∉ scanAccountsOnDevice sampleEnv sampleScanEnv (λ _, true) (sampleCurrency "ripple")
      "device".
Proof.
  exact (scanAccountsOnDevice_unsubscribed sampleEnv sampleScanEnv (λ _, true)
           (sampleCurrency "ripple") "device" (sampleAccount "ripple" [] [])
           (λ _, eq_refl)).
Defined.

(** ** [getTransactionStatus]: recipient and new-destination rules *)

Lemma truthy_string_spec (s : string) : truthy_string s = true ↔ s ≠ "".
Proof.
  unfold truthy_string. rewrite negb_true_iff. split.
  - intros Hneq ->. discriminate.
  - intros Hneq. by apply String.eqb_neq.
Qed.

(** The recipient entry of the status, as a function of the draft. *)
Lemma getTransactionStatus_recipient_entry (env : RippleEnv) (stenv : StatusEnv)
    (a : Account.t) (t : RippleTransaction.t) (st : TransactionStatus.t) :
  getTransactionStatus env stenv a t = Ok st →
  TransactionStatus.errors st !! "recipient"
  = if negb (truthy_string (RippleTransaction.recipient t)) then
      Some (RecipientRequired "")
    else if bool_decide (Account.freshAddress a = RippleTransaction.recipient t) then
      Some InvalidAddressBecauseDestinationIsAlsoSource
    else if bs58check_decode stenv (RippleTransaction.recipient t) then None
    else Some (InvalidAddress "").
Proof.
  unfold getTransactionStatus.
  destruct (getServerInfo env (Account.endpointConfig a)) as [r|e]; simpl; [|discriminate].
  match goal with
  | |- (?errs ≫= _) = _ → _ =>
      assert (Herrs : ∀ errors, errs = Ok errors → errors !! "recipient" = None);
      [|destruct errs as [errors|e] eqn:Heq; [|discriminate];
        specialize (Herrs errors eq_refl)]
  end.
  { intros errors.
    destruct (RippleTransaction.fee t) as [fee|]; simpl;
      repeat match goal with
             | |- context [if ?b then _ else _] => destruct b; simpl
             end;
      try (destruct (cachedRecipientIsNew _ _ _) as [[|]|]; simpl;
           repeat match goal with
                  | |- context [if ?b then _ else _] => destruct b; simpl
                  end);
      intros [= <-]; by rewrite ?lookup_insert_ne, ?lookup_empty by done. }
  intros [= <-]. simpl.
  repeat match goal with
         | |- context [if ?b then _ else _] => destruct b; simpl
         end; by rewrite ?lookup_insert_eq.
Qed.

(** X21. The recipient of a draft is checked independently of its fee and
    amount: a missing recipient gives [RecipientRequired], the account's
    own address gives [InvalidAddressBecauseDestinationIsAlsoSource], an
    address that [bs58check] cannot decode gives [InvalidAddress], and any
    other recipient leaves the entry unset. *)
Theorem getTransactionStatus_recipient_checks (env : RippleEnv) (stenv : StatusEnv)
    (a : Account.t) (t : RippleTransaction.t) (st : TransactionStatus.t) :
  getTransactionStatus env stenv a t = Ok st →
  let recipient := RippleTransaction.recipient t in
  (recipient = "" → TransactionStatus.errors st !! "recipient" = Some (RecipientRequired ""))
  ∧ (recipient ≠ "" → Account.freshAddress a = recipient →
     TransactionStatus.errors st !! "recipient"
     = Some InvalidAddressBecauseDestinationIsAlsoSource)
  ∧ (recipient ≠ "" → Account.freshAddress a ≠ recipient →
     bs58check_decode stenv recipient = false →
     TransactionStatus.errors st !! "recipient" = Some (InvalidAddress ""))
  ∧ (recipient ≠ "" → Account.freshAddress a ≠ recipient →
     bs58check_decode stenv recipient = true →
     TransactionStatus.errors st !! "recipient" = None).
Proof.
  intros Hst recipient.
  rewrite (getTransactionStatus_recipient_entry env stenv a t st Hst). fold recipient.
  split; [|split; [|split]].
  - intros ->. reflexivity.
  - intros Hne Hown. apply truthy_string_spec in Hne. rewrite Hne. simpl.
    by rewrite bool_decide_eq_true_2.
  - intros Hne Hother Hbad. apply truthy_string_spec in Hne. rewrite Hne. simpl.
    by rewrite bool_decide_eq_false_2, Hbad.
  - intros Hne Hother Hgood. apply truthy_string_spec in Hne. rewrite Hne. simpl.
    by rewrite bool_decide_eq_false_2, Hgood.
Qed.

Lemma getTransactionStatus_recipient_checks_witness :
  TransactionStatus.errors
    {| TransactionStatus.errors := <["recipient" := RecipientRequired ""]> ∅;
       TransactionStatus.warnings := ∅;
       TransactionStatus.estimatedFees := BigNumber.Fin 10;
       TransactionStatus.amount := BigNumber.Fin 100;
       TransactionStatus.totalSpent := BigNumber.Fin 110 |} !! "recipient"
  = Some (RecipientRequired "").
Proof.
  apply (proj1 (getTransactionStatus_recipient_checks sampleEnv sampleStatusEnv
                  (sampleAccount "ripple" [] [])
                  {| RippleTransaction.family := "ripple";
                     RippleTransaction.amount := BigNumber.Fin 100;
                     RippleTransaction.recipient := "";
                     RippleTransaction.fee := Some (BigNumber.Fin 10);
                     RippleTransaction.tag := None |}
                  _ eq_refl)).
  reflexivity.
Defined.

(** X22. When is a draft sendable.  For a draft with a fee, and amounts that
    are numbers, the status has no error at all exactly when: the fee is
    not zero; amount plus fee does not exceed the balance minus the
    reserve; the recipient is present, is not the account's own address
    and is decoded by [bs58check]; and, if the recipient does not exist
    yet on the ledger, the amount is at least the reserve (otherwise the
    error [NotEnoughBalanceBecauseDestinationNotCreated] is set on the
    amount). *)
Theorem getTransactionStatus_sendable (env : RippleEnv) (stenv : StatusEnv)
    (a : Account.t) (t : RippleTransaction.t) (serverInfo : ServerInfo.t)
    (amount fee balance reserve : Z) (isNew : bool) :
  let recipient := RippleTransaction.recipient t in
  getServerInfo env (Account.endpointConfig a) = Ok serverInfo →
  parseAPIValue env (ServerInfo.validatedLedger_reserveBaseXRP serverInfo)
    = BigNumber.Fin reserve →
  RippleTransaction.amount t = BigNumber.Fin amount →
  RippleTransaction.fee t = Some (BigNumber.Fin fee) →
  Account.balance a = BigNumber.Fin balance →
  cachedRecipientIsNew stenv (Account.endpointConfig a) recipient = Ok isNew →
  ∃ st,
    getTransactionStatus env stenv a t = Ok st
    ∧ (TransactionStatus.errors st = ∅
       ↔ fee ≠ 0
         ∧ amount + fee ≤ balance - reserve
         ∧ recipient ≠ ""
         ∧ Account.freshAddress a ≠ recipient
         ∧ bs58check_decode stenv recipient = true
         ∧ ¬ (isNew = true ∧ amount < reserve))
    ∧ (fee ≠ 0 → amount + fee ≤ balance - reserve → recipient ≠ "" →
       isNew = true → amount < reserve →
       TransactionStatus.errors st !! "amount"
       = Some (NotEnoughBalanceBecauseDestinationNotCreated "")).
Proof.
  intros recipient Hserver Hreserve Hamount Hfee Hbalance HisNew.
  unfold getTransactionStatus. rewrite Hserver. simpl.
  rewrite Hfee, Hreserve, Hamount, Hbalance. simpl. fold recipient.
  destruct (Z.eqb_spec fee 0) as [Hzero|Hnonzero]; simpl.
  { eexists. split; [reflexivity|]. simpl. split; [|done]. split; [|by intros [? _]].
    intros Hempty. exfalso.
    repeat match goal with
           | H : context [if ?b then _ else _] |- _ => destruct b
           end;
      by apply insert_non_empty in Hempty. }
  destruct (Z.ltb_spec (balance - reserve) (amount + fee)) as [Hover|Hfits]; simpl.
  { eexists. split; [reflexivity|]. simpl. split; [|intros; lia].
    split; [|intros (_ & ? & _); lia].
    intros Hempty. exfalso.
    repeat match goal with
           | H : context [if ?b then _ else _] |- _ => destruct b
           end;
      by apply insert_non_empty in Hempty. }
  destruct (truthy_string recipient) eqn:Hrecipient; simpl.
  - apply truthy_string_spec in Hrecipient. rewrite HisNew. simpl.
    destruct isNew; simpl; [destruct (Z.ltb_spec amount reserve) as [Hlow|Hhigh]; simpl|].
    + eexists. split; [reflexivity|]. simpl. split.
      * split; [|intros (_ & _ & _ & _ & _ & Hn); exfalso; apply Hn; by split].
        intros Hempty. exfalso.
        repeat match goal with
               | H : context [if ?b then _ else _] |- _ => destruct b
               end;
          by apply insert_non_empty in Hempty.
      * intros _ _ _ _ _.
        repeat match goal with
               | |- context [if ?b then _ else _] => destruct b
               end;
          by rewrite ?lookup_insert_ne, ?lookup_insert_eq by done.
    + eexists. split; [reflexivity|]. simpl. split; [|intros; lia].
      case_bool_decide as Hown; [|destruct (bs58check_decode stenv recipient) eqn:Hdecode].
      * split; [|intros (_ & _ & _ & ? & _); done].
        intros Hempty. by apply insert_non_empty in Hempty.
      * split; [intros _; repeat split; auto; lia|done].
      * split; [|intros (_ & _ & _ & _ & ? & _); done].
        intros Hempty. by apply insert_non_empty in Hempty.
    + eexists. split; [reflexivity|]. simpl. split; [|intros; done].
      case_bool_decide as Hown; [|destruct (bs58check_decode stenv recipient) eqn:Hdecode].
      * split; [|intros (_ & _ & _ & ? & _); done].
        intros Hempty. by apply insert_non_empty in Hempty.
      * split; [intros _; repeat split; auto; intros [? _]; done|done].
      * split; [|intros (_ & _ & _ & _ & ? & _); done].
        intros Hempty. by apply insert_non_empty in Hempty.
  - assert (Hempty : recipient = "").
    { destruct (decide (recipient = "")) as [|Hne]; [done|].
      apply truthy_string_spec in Hne. congruence. }
    eexists. split; [reflexivity|]. simpl. split; [|intros _ _ ?; done].
    split; [|intros (_ & _ & ? & _); done].
    intros Hnone. by apply insert_non_empty in Hnone.
Qed.

Lemma getTransactionStatus_sendable_witness :
  ∃ st,
    getTransactionStatus sampleEnv sampleStatusEnv (sampleAccount "ripple" [] [])
      (sampleRippleTransaction 100 (Some (BigNumber.Fin 10))) = Ok st
    ∧ TransactionStatus.errors st = ∅.
Proof.
  destruct (getTransactionStatus_sendable sampleEnv sampleStatusEnv
              (sampleAccount "ripple" [] [])
              (sampleRippleTransaction 100 (Some (BigNumber.Fin 10)))
              (ServerInfo.mk 100 200 "20" "0.00001") 100 10 1000 20 false
              eq_refl eq_refl eq_refl eq_refl eq_refl eq_refl)
    as (st & Hst & Hiff & _).
  exists st. split; [exact Hst|]. apply Hiff.
  repeat split; try discriminate; try lia.
Defined.

(** ** [recipientIsNew] and its cache *)



(** X24. The cache of [cachedRecipientIsNew].  For a recipient that is not the
    name of a member of [Object.prototype]: the first query stores its
    outcome, be it a failure; a later query returns the stored outcome
    and does not ask the ledger again, whatever the ledger would now
    answer; after [signAndBroadcast] has deleted the entry, the next
    query asks the ledger again.  Queries about a recipient never change
    the entry of another recipient. *)
Theorem cachedRecipientIsNew_cache (env1 env2 : RippleEnv) (stenv : StatusEnv)
    (cache : gmap string (Result bool)) (config : option string) (recipient : string) :
  recipient ∉ ObjectPrototype_keys →
  let first := cachedRecipientIsNew' env1 stenv cache config recipient in
  (cache !! recipient = None →
   first = (Promise (recipientIsNew env1 stenv config recipient),
            <[recipient := recipientIsNew env1 stenv config recipient]> cache))
  ∧ cachedRecipientIsNew' env2 stenv first.2 config recipient = (first.1, first.2)
  ∧ cachedRecipientIsNew' env2 stenv (forgetRecipient first.2 recipient) config recipient
    = (Promise (recipientIsNew env2 stenv config recipient),
       <[recipient := recipientIsNew env2 stenv config recipient]> first.2)
  ∧ (∀ other, other ≠ recipient → first.2 !! other = cache !! other).
Proof.
  intros Hown first. unfold first, cachedRecipientIsNew', forgetRecipient.
  case_bool_decide; [done|].
  destruct (cache !! recipient) as [outcome|] eqn:Hcache; simpl.
  - split; [done|]. rewrite Hcache. split; [done|]. split; [|done].
    by rewrite lookup_delete_eq, insert_delete_eq.
  - split; [done|]. rewrite lookup_insert_eq. split; [done|]. split.
    + by rewrite lookup_delete_eq, insert_delete_eq.
    + intros other Hother. by rewrite lookup_insert_ne.
Qed.

Lemma cachedRecipientIsNew_cache_witness :
  cachedRecipientIsNew' sampleEnv sampleStatusEnv
    (cachedRecipientIsNew' sampleDownEnv sampleStatusEnv ∅ None "rNew").2 None "rNew"
  = ((cachedRecipientIsNew' sampleDownEnv sampleStatusEnv ∅ None "rNew").1,
     (cachedRecipientIsNew' sampleDownEnv sampleStatusEnv ∅ None "rNew").2).
Proof.
  apply (proj1 (proj2 (cachedRecipientIsNew_cache sampleDownEnv sampleEnv sampleStatusEnv
                         ∅ None "rNew" ltac:(by apply (bool_decide_unpack _))))).
Defined.

(** ** [prepareTransaction] *)

(** Remapping an error twice is remapping it once. *)
Lemma remapError_remapError (e : JsError.t) :
  remapError (remapError e) = remapError e.
Proof.
  unfold remapError.
  destruct (includes (JsError.message e) "Unable to resolve host") eqn:H1,
           (includes (JsError.message e) "Network is down") eqn:H2; simpl;
    rewrite ?H1, ?H2; done.
Qed.

Ltac run_payment :=
  unfold try_finally, try_catch, poll;
  unfold mbind, Async_bind, bind, mret, Async_ret, ret, throw, tell, await;
  simpl.

(** The three ways [prepareTransaction] can end. *)
Lemma prepareTransaction_cases (env : RippleEnv) (penv : PaymentEnv)
    (a : Account.t) (t : BridgeTransaction.t) (w : World PaymentStep) :
  let f := BridgeTransaction.fields t in
  let loaded (networkInfo : NetworkInfo.t) :=
    {| BridgeTransaction.fields :=
         {| RippleTransaction.family := RippleTransaction.family f;
            RippleTransaction.amount := RippleTransaction.amount f;
            RippleTransaction.recipient := RippleTransaction.recipient f;
            RippleTransaction.fee :=
              Some (default (NetworkInfo.serverFee networkInfo) (RippleTransaction.fee f));
            RippleTransaction.tag := RippleTransaction.tag f |};
       BridgeTransaction.networkInfo := Some networkInfo;
       BridgeTransaction.feeCustomUnit := BridgeTransaction.feeCustomUnit t |} in
  match BridgeTransaction.networkInfo t with
  | Some networkInfo =>
      prepareTransaction env penv a t w
      = Value (if bool_decide (RippleTransaction.fee f = None)
               then NewObject (loaded networkInfo) else SameObject) w
  | None =>
      match connect (apiForEndpointConfig env (Account.endpointConfig a)) with
      | Throws e =>
          prepareTransaction env penv a t w
          = Thrown (remapError e)
              (mkWorld (polls w) (log w ++ [Api_connect; Api_disconnect]))
      | Ok _ =>
          match api_getServerInfo penv (Account.endpointConfig a) with
          | Throws e =>
              prepareTransaction env penv a t w
              = Thrown (remapError e)
                  (mkWorld (polls w)
                     (log w ++ [Api_connect; Api_getServerInfo; Api_disconnect]))
          | Ok info =>
              prepareTransaction env penv a t w
              = Value
                  (NewObject
                     (loaded
                        {| NetworkInfo.family := "ripple";
                           NetworkInfo.serverFee :=
                             parseAPIValue env (ServerInfo.validatedLedger_baseFeeXRP info);
                           NetworkInfo.baseReserve := BigNumber.Fin 0 |}))
                  (mkWorld (polls w)
                     (log w ++ [Api_connect; Api_getServerInfo; Api_disconnect]))
          end
      end
  end.
Proof.
  unfold prepareTransaction.
  destruct (BridgeTransaction.networkInfo t) as [networkInfo|]; run_payment.
  - destruct (RippleTransaction.fee (BridgeTransaction.fields t)); reflexivity.
  - destruct (connect _) as [[]|e]; simpl.
    + destruct (api_getServerInfo _ _) as [info|e]; simpl;
        rewrite <- ?app_assoc; reflexivity.
    + rewrite <- ?app_assoc; reflexivity.
Qed.

(** X25. What [prepareTransaction] resolves to is the transaction updated with
    the network information and then with the patch that
    [fillUpExtraFieldToApplyTransactionNetworkInfo] makes of them: it
    always carries network information and a fee; those that were already
    there are kept, and a missing fee becomes the server fee.  The
    transaction given is returned as it is (the same object) exactly when
    it had both, and preparing the result once more, with whatever ledger,
    returns it as it is without any call. *)
Theorem prepareTransaction_loads_fee (env env' : RippleEnv) (penv penv' : PaymentEnv)
    (a a' : Account.t) (t : BridgeTransaction.t) (w w1 w' : World PaymentStep)
    (r : Prepared) :
  prepareTransaction env penv a t w = Value r w1 →
  let t1 := Prepared_value t r in
  (∃ networkInfo,
     t1 = updateTransaction (updateTransaction t (networkInfoPatch networkInfo))
            (fillUpExtraFieldToApplyTransactionNetworkInfo a t networkInfo)
     ∧ BridgeTransaction.networkInfo t1 = Some networkInfo
     ∧ is_Some (RippleTransaction.fee (BridgeTransaction.fields t1))
     ∧ (is_Some (BridgeTransaction.networkInfo t) →
        BridgeTransaction.networkInfo t = Some networkInfo))
  ∧ (is_Some (RippleTransaction.fee (BridgeTransaction.fields t)) →
     RippleTransaction.fee (BridgeTransaction.fields t1)
     = RippleTransaction.fee (BridgeTransaction.fields t))
  ∧ (r = SameObject ↔
     is_Some (BridgeTransaction.networkInfo t)
     ∧ is_Some (RippleTransaction.fee (BridgeTransaction.fields t)))
  ∧ prepareTransaction env' penv' a' t1 w' = Value SameObject w'.
Proof.
  intros Hrun t1. subst t1.
  pose proof (prepareTransaction_cases env penv a t w) as Hcases.
  pose proof (prepareTransaction_cases env' penv' a' (Prepared_value t r) w') as Hagain.
  simpl in Hcases.
  unfold fillUpExtraFieldToApplyTransactionNetworkInfo, networkInfoPatch, updateTransaction.
  destruct (BridgeTransaction.networkInfo t) as [networkInfo|] eqn:Hinfo.
  - rewrite Hcases in Hrun.
    destruct (RippleTransaction.fee (BridgeTransaction.fields t)) as [fee|] eqn:Hfee;
      simpl in Hrun; injection Hrun as <- <-; simpl in *.
    + rewrite Hinfo, Hfee in *. simpl in Hagain.
      split_and!; try done. exists networkInfo. split_and!; try done.
      destruct t as [[] ? ?]; simpl in *. by subst.
    + split_and!; try done.
      * exists networkInfo. by split_and!.
      * split; [done|]. by intros [_ [? [=]]].
  - destruct (connect _) as [[]|e]; [|by rewrite Hcases in Hrun].
    destruct (api_getServerInfo _ _) as [info|e]; [|by rewrite Hcases in Hrun].
    rewrite Hcases in Hrun. injection Hrun as <- <-. simpl in *.
    split_and!; try done.
    + eexists. split_and!; try done; try (by eexists); by intros [? [=]].
    + intros [fee Hfee]. by rewrite Hfee.
    + split; [done|]. by intros [[? [=]] _].
Qed.

Lemma prepareTransaction_loads_fee_witness :
  ∃ r w1,
    prepareTransaction sampleEnv samplePaymentEnv (sampleAccount "ripple" [] [])
      createTransaction initialWorld = Value r w1
    ∧ prepareTransaction sampleDownEnv samplePaymentEnv (sampleAccount "ripple" [] [])
        (Prepared_value createTransaction r) initialWorld
      = Value SameObject initialWorld.
Proof.
  eexists _, _. split; [reflexivity|].
  destruct (prepareTransaction_loads_fee sampleEnv sampleDownEnv samplePaymentEnv
              samplePaymentEnv (sampleAccount "ripple" [] []) (sampleAccount "ripple" [] [])
              createTransaction initialWorld _ initialWorld _ eq_refl)
    as (_ & _ & _ & H).
  exact H.
Defined.

(** X26. A transaction that went through [prepareTransaction] is never
    reported as [FeeNotLoaded] by [getTransactionStatus], and the fees the
    status estimates are the fee of the prepared transaction. *)
Theorem prepareTransaction_then_status (env env' : RippleEnv) (penv : PaymentEnv)
    (stenv : StatusEnv) (a a' : Account.t) (t : BridgeTransaction.t)
    (w w1 : World PaymentStep) (r : Prepared) (status : TransactionStatus.t) :
  prepareTransaction env penv a t w = Value r w1 →
  getTransactionStatus env' stenv a'
    (BridgeTransaction.fields (Prepared_value t r)) = Ok status →
  TransactionStatus.errors status !! "fee" ≠ Some FeeNotLoaded
  ∧ RippleTransaction.fee (BridgeTransaction.fields (Prepared_value t r))
    = Some (TransactionStatus.estimatedFees status).
Proof.
  intros Hrun.
  assert (∃ fee, RippleTransaction.fee (BridgeTransaction.fields (Prepared_value t r))
                 = Some fee) as [fee Hfee].
  { pose proof (prepareTransaction_cases env penv a t w) as Hcases. simpl in Hcases.
    destruct (BridgeTransaction.networkInfo t) as [networkInfo|].
    - rewrite Hcases in Hrun.
      destruct (RippleTransaction.fee (BridgeTransaction.fields t)) as [fee|] eqn:Hfee;
        simpl in Hrun; injection Hrun as <- <-; simpl; eauto.
    - destruct (connect _) as [[]|e]; [|by rewrite Hcases in Hrun].
      destruct (api_getServerInfo _ _) as [info|e]; [|by rewrite Hcases in Hrun].
      rewrite Hcases in Hrun. injection Hrun as <- <-. simpl. eauto. }
  generalize dependent (BridgeTransaction.fields (Prepared_value t r)).
  intros t1 Hfee. unfold getTransactionStatus. rewrite Hfee.
  destruct (getServerInfo env' _) as [info|e]; [|done]. simpl.
  match goal with |- (?errs ≫= _) = _ → _ => destruct errs as [errors|e] eqn:Herrors end;
    [|done].
  simpl. intros [= <-]. simpl. split; [|done].
  assert (errors !! "fee" ≠ Some FeeNotLoaded) as Herr.
  { revert Herrors.
    repeat match goal with
           | |- context [if ?b then _ else _] => destruct b
           | |- context [cachedRecipientIsNew ?s ?c ?x] =>
               destruct (cachedRecipientIsNew s c x); simpl
           end;
      intros [= <-]; rewrite ?lookup_insert_eq, ?lookup_insert_ne, ?lookup_empty by done;
      done. }
  repeat match goal with
         | |- context [if ?b then _ else _] => destruct b
         end;
    rewrite ?lookup_insert_ne by done; done.
Qed.

Lemma prepareTransaction_then_status_witness :
  Some (BigNumber.Fin 10) = Some (BigNumber.Fin 10).
Proof.
  exact (proj2 (prepareTransaction_then_status sampleEnv sampleEnv samplePaymentEnv
                  sampleStatusEnv (sampleAccount "ripple" [] []) (sampleAccount "ripple" [] [])
                  samplePreparedTransaction initialWorld initialWorld SameObject
                  _ eq_refl eq_refl)).
Defined.

(** X27. [prepareTransaction] asks the ledger exactly when the transaction has
    no network information: then it connects, asks for the server
    information if the connection succeeded, and disconnects whatever
    happened; otherwise it makes no call at all.  It never reads the
    cancellation flag, and an error it throws went through [remapError]. *)
Theorem prepareTransaction_protocol (env : RippleEnv) (penv : PaymentEnv)
    (a : Account.t) (t : BridgeTransaction.t) (w : World PaymentStep) :
  let outcome := prepareTransaction env penv a t w in
  polls (finalWorld outcome) = polls w
  ∧ (is_Some (BridgeTransaction.networkInfo t) →
     ∃ r, outcome = Value r w)
  ∧ (BridgeTransaction.networkInfo t = None →
     ∃ steps,
       log (finalWorld outcome) = log w ++ [Api_connect] ++ steps ++ [Api_disconnect]
       ∧ (steps = [] ∨ steps = [Api_getServerInfo])
       ∧ (steps = [] ↔
          ∃ e, connect (apiForEndpointConfig env (Account.endpointConfig a)) = Throws e))
  ∧ (∀ e w', outcome = Thrown e w' → remapError e = e)
  ∧ (∀ w', outcome ≠ Returned w').
Proof.
  intros outcome. subst outcome.
  pose proof (prepareTransaction_cases env penv a t w) as Hcases. simpl in Hcases.
  destruct (BridgeTransaction.networkInfo t) as [networkInfo|].
  - rewrite Hcases. simpl. split; [done|]. split; [eauto|]. split; [done|]. done.
  - destruct (connect _) as [[]|e].
    + destruct (api_getServerInfo _ _) as [info|e]; rewrite Hcases; simpl.
      * split; [done|]. split; [by intros [? [=]]|]. split; [|done].
        intros _. exists [Api_getServerInfo].
        split; [done|]. split; [by right|]. split; [done|]. by intros [? [=]].
      * split; [done|]. split; [by intros [? [=]]|]. split; [|split; [|done]].
        -- intros _. exists [Api_getServerInfo].
           split; [done|]. split; [by right|]. split; [done|]. by intros [? [=]].
        -- intros ? ? [= <- _]. apply remapError_remapError.
    + rewrite Hcases; simpl.
      split; [done|]. split; [by intros [? [=]]|]. split; [|split; [|done]].
      * intros _. exists []. split; [done|]. split; [by left|]. split; [eauto|done].
      * intros ? ? [= <- _]. apply remapError_remapError.
Qed.

(** ** [signAndBroadcast] *)

(** The [catch] of [doSignAndBroadcast] always throws, and what it throws
    is a [RippledError] only if that is the error it caught, with no
    result message to show instead. *)
Lemma rethrowRippled_thrown {A} (penv : PaymentEnv) (e : JsError.t)
    (w : World PaymentStep) :
  ∃ e', rethrowRippled (A:=A) penv e w = Thrown e' w
        ∧ (JsError.name e' = "RippledError" →
           e' = e ∧ (error_data penv e = Some None ∨ error_data penv e = Some (Some ""))).
Proof.
  unfold rethrowRippled.
  destruct (String.eqb (JsError.name e) "RippledError") eqn:Hname.
  - destruct (error_data penv e) as [[msg|]|] eqn:Hdata.
    + unfold truthy_string. destruct (String.eqb msg "") eqn:Hmsg; simpl.
      * apply String.eqb_eq in Hmsg as ->. eexists. split; [done|].
        intros _. split; [done|]. by right.
      * eexists. split; [done|]. done.
    + eexists. split; [done|]. intros _. split; [done|]. by left.
    + eexists. split; [done|]. done.
  - apply String.eqb_neq in Hname. eexists. split; [done|]. done.
Qed.

Ltac explore_payment :=
  repeat match goal with
         | |- context [rethrowRippled ?p ?e ?w] =>
             let e' := fresh "e'" in
             let H := fresh "Hthrown" in
             let Hname := fresh "Hrippled" in
             destruct (rethrowRippled_thrown (A:=()) p e w) as (e' & H & Hname);
             rewrite H; clear H; simpl
         | |- context [match ?x with Ok _ => _ | Throws _ => _ end] =>
             destruct x as [?|?] eqn:?; simpl
         | |- context [if ?b then _ else _] => destruct b eqn:?; simpl
         end.

(** Membership in a list that is written out. *)
Ltac elem_of_explicit :=
  solve [repeat first [ apply list_elem_of_here | apply list_elem_of_further ]].

Ltac not_elem_of_explicit H :=
  repeat (apply elem_of_cons in H as [H|H]; [discriminate H|]);
  by apply elem_of_nil in H.

(** X28. What a subscriber of [signAndBroadcast] brings about follows a
    protocol, whatever the ledger, the device and the subscriber do.  It
    ends with exactly one completion or error.  Without a fee nothing is
    called and the error is [FeeNotLoaded].  Otherwise the calls and events
    come in a fixed order, each at most once, between a first [connect] and
    a last [disconnect]; a transport that was opened is closed before
    anything else happens; [signed] is emitted only to a subscriber that
    had not cancelled, and after the transport was closed; an operation is
    emitted only after [signed] and the submission, and then the
    observable completes. *)
Theorem signAndBroadcast_protocol (env : RippleEnv) (penv : PaymentEnv)
    (cacheRecipientsNew : gmap string (Result bool)) (cancelled : nat → bool)
    (a : Account.t) (t : RippleTransaction.t) (deviceId : string) :
  ∃ steps final,
    (signAndBroadcast env penv cacheRecipientsNew cancelled a t deviceId).1
    = steps ++ [final]
    ∧ stepRank final = 10%nat
    ∧ Sorted lt (stepRank <$> steps)
    ∧ (steps = [] ↔ RippleTransaction.fee t = None)
    ∧ (RippleTransaction.fee t = None → final = Payment_error FeeNotLoaded)
    ∧ (steps ≠ [] → head steps = Some Api_connect ∧ last steps = Some Api_disconnect)
    ∧ (Hw_open deviceId ∈ steps → hw_open penv deviceId = Ok () → Hw_close ∈ steps)
    ∧ (Next_signed ∈ steps → cancelled 0%nat = false ∧ Hw_close ∈ steps)
    ∧ (∀ operation tag, Next_broadcasted operation tag ∈ steps →
       final = Payment_complete ∧ Next_signed ∈ steps
       ∧ ∃ transaction, Api_submit transaction ∈ steps).
Proof.
  unfold signAndBroadcast, doSignAndBroadcast.
  destruct (RippleTransaction.fee t) as [fee|] eqn:Hfee; simpl.
  - run_payment. explore_payment.
    all: match goal with
         | |- ∃ steps final, ?l = _ ∧ _ =>
             exists (removelast l), (List.last l Payment_complete)
         end; simpl.
    all: split_and!; try done.
    all: try solve [repeat constructor; simpl; lia].
    all: try solve [intros Hin; exfalso; not_elem_of_explicit Hin].
    all: try solve [intros Hin Hopen; exfalso; congruence].
    all: try solve [intros ? ?; elem_of_explicit].
    all: try solve [intros Hin; split; [done|elem_of_explicit]].
    all: try solve [intros operation tag Hin; exfalso; not_elem_of_explicit Hin].
    all: try solve [intros operation tag Hin; split_and!; [done|elem_of_explicit|];
                    eexists; elem_of_explicit].
  - exists [], (Payment_error FeeNotLoaded). split_and!; try done.
    all: try solve [intros Hin; by apply elem_of_nil in Hin].
    all: try solve [intros ? ? Hin; by apply elem_of_nil in Hin].
Qed.

Ltac elem_of_inv H tac :=
  repeat (apply elem_of_cons in H as [H|H]; [first [discriminate H | tac H]|]);
  by apply elem_of_nil in H.

(** The operation that is emitted, if any. *)
Lemma signAndBroadcast_broadcasted (env : RippleEnv) (penv : PaymentEnv)
    (cacheRecipientsNew : gmap string (Result bool)) (cancelled : nat → bool)
    (a : Account.t) (t : RippleTransaction.t) (deviceId : string)
    (operation : Operation.t) (tag : option Z) :
  Next_broadcasted operation tag
    ∈ (signAndBroadcast env penv cacheRecipientsNew cancelled a t deviceId).1 →
  ∃ fee hash,
    RippleTransaction.fee t = Some fee
    ∧ operation = broadcastedOperation penv a t fee hash
    ∧ tag = (if truthy_number (RippleTransaction.tag t)
             then RippleTransaction.tag t else None).
Proof.
  unfold signAndBroadcast, doSignAndBroadcast.
  destruct (RippleTransaction.fee t) as [fee|] eqn:Hfee; simpl.
  - run_payment.
    destruct (truthy_number (RippleTransaction.tag t)) eqn:Htag.
    all: explore_payment.
    all: intros Hin.
    all: elem_of_inv Hin ltac:(fun H => injection H as -> ->; by eexists _, _).
  - intros Hin. elem_of_inv Hin ltac:(fun H => idtac).
Qed.

(** X29. The operation handed to the subscriber is an outgoing one of the
    account, not yet in a block, for the amount and the fee of the
    transaction; its tag is never [0].  Its sequence number is the one of
    the latest operation of the account plus the number of pending
    operations: when the account has no pending operation, the next
    synchronisation that finds the same latest operation does not keep it
    among the pending ones. *)
Theorem signAndBroadcast_operation (env : RippleEnv) (penv : PaymentEnv)
    (cacheRecipientsNew : gmap string (Result bool)) (cancelled : nat → bool)
    (a : Account.t) (t : RippleTransaction.t) (deviceId : string)
    (operation : Operation.t) (tag : option Z) :
  Next_broadcasted operation tag
    ∈ (signAndBroadcast env penv cacheRecipientsNew cancelled a t deviceId).1 →
  Operation.type operation = OUT
  ∧ Operation.accountId operation = Account.id a
  ∧ Operation.blockHeight operation = None
  ∧ Operation.value operation = RippleTransaction.amount t
  ∧ RippleTransaction.fee t = Some (Operation.fee operation)
  ∧ Operation.transactionSequenceNumber operation = predictedSequenceNumber a
  ∧ tag ≠ Some 0
  ∧ (Account.pendingOperations a = [] →
     ∀ operations, head operations = head (Account.operations a) →
                   keepPending operations operation = false).
Proof.
  intros (fee & hash & Hfee & -> & ->)%signAndBroadcast_broadcasted.
  split_and!; try done.
  - unfold truthy_number. destruct (RippleTransaction.tag t) as [z|]; [|done].
    destruct (Z.eqb_spec z 0) as [->|]; simpl; congruence.
  - intros Hpending operations Hhead. unfold keepPending.
    rewrite Hhead. simpl. unfold predictedSequenceNumber. rewrite Hpending.
    destruct (Account.operations a) as [|last ?]; simpl.
    + apply andb_false_r.
    + destruct (Operation.transactionSequenceNumber last) as [n|]; simpl.
      * rewrite (proj2 (Z.ltb_ge n (n + Z.of_nat 0))) by lia.
        by rewrite !andb_false_r.
      * apply andb_false_r.
Qed.

Lemma signAndBroadcast_operation_witness :
  keepPending [sampleOp "acc-H1-IN" "H1" 1000 (Some 4)]
    (broadcastedOperation samplePaymentEnv
       (sampleAccount "ripple" [sampleOp "acc-H1-IN" "H1" 1000 (Some 4)] [])
       (sampleRippleTransaction 100 (Some (BigNumber.Fin 10))) (BigNumber.Fin 10) "HASH")
  = false.
Proof.
  refine (proj2 (proj2 (proj2 (proj2 (proj2 (proj2 (proj2
            (signAndBroadcast_operation sampleEnv samplePaymentEnv ∅ neverFinished
               (sampleAccount "ripple" [sampleOp "acc-H1-IN" "H1" 1000 (Some 4)] [])
               (sampleRippleTransaction 100 (Some (BigNumber.Fin 10))) "device"
               _ None _))))))) eq_refl _ eq_refl).
  vm_compute. elem_of_explicit.
Defined.

(** X30. An error named [RippledError] that reaches the subscriber carries no
    result message: its [data] is there, with a [resultMessage] that is
    missing or empty.  One that carries a result message, or no [data] at
    all, is never delivered as such. *)
Theorem signAndBroadcast_rippled_error (env : RippleEnv) (penv : PaymentEnv)
    (cacheRecipientsNew : gmap string (Result bool)) (cancelled : nat → bool)
    (a : Account.t) (t : RippleTransaction.t) (deviceId : string)
    (e : JsError.t) :
  Payment_error e
    ∈ (signAndBroadcast env penv cacheRecipientsNew cancelled a t deviceId).1 →
  JsError.name e = "RippledError" →
  error_data penv e = Some None ∨ error_data penv e = Some (Some "").
Proof.
  unfold signAndBroadcast, doSignAndBroadcast.
  destruct (RippleTransaction.fee t) as [fee|] eqn:Hfee; simpl.
  - run_payment. explore_payment.
    all: intros Hin Hname.
    all: elem_of_inv Hin ltac:(fun H =>
           injection H as ->;
           match goal with
           | Hrippled : JsError.name _ = _ → _ |- _ =>
               by destruct (Hrippled Hname) as [-> Hmsg]
           | _ => discriminate Hname
           end).
  - intros Hin Hname. elem_of_inv Hin ltac:(fun H => by injection H as ->).
Qed.

Lemma signAndBroadcast_rippled_error_witness :
  error_data (sampleRefusingPaymentEnv (Some "")) (JsError.mk "RippledError" "refused")
  = Some None
  ∨ error_data (sampleRefusingPaymentEnv (Some "")) (JsError.mk "RippledError" "refused")
    = Some (Some "").
Proof.
  apply (signAndBroadcast_rippled_error sampleEnv (sampleRefusingPaymentEnv (Some "")) ∅
           neverFinished (sampleAccount "ripple" [] [])
           (sampleRippleTransaction 100 (Some (BigNumber.Fin 10))) "device").
  - vm_compute. elem_of_explicit.
  - reflexivity.
Defined.
